(** * ducktape.services.service: the Service lifecycle controller

    A shallow embedding of [ducktape/services/service.py] (class [Service])
    and the properties of it that the specification states.

    Conventions of the embedding
    - Python integers are [Z]; [time.time()] readings and timeouts are [Z]
      as well (clock ticks), only their order and differences matter here.
    - A method is a computation in a state-and-exception monad [M]: the
      state holds the fields of [self] and the environment around it
      (external world, logger slots of the nodes, service registry, log of
      the calls made to the subclass hooks and to the cluster).
    - What lives outside [service.py] is a parameter: the subclass hooks,
      the cluster, the clock, the printers of the Python runtime and the
      constants of [RemoteAccount]. *)

From Stdlib Require Import ZArith List String Ascii Bool Lia DecimalString.
Import ListNotations.

Local Open Scope string_scope.
Local Open Scope Z_scope.

(** ** Python values and exceptions *)

(** The exception classes that [service.py] raises or lets through; each
    carries its message. *)
Inductive exn : Type :=
| Exception (msg : string)
| RuntimeError (msg : string)
| TimeoutError (msg : string)
| NotImplementedError (msg : string)
| ValueError (msg : string)
| IndexError (msg : string)
| AttributeError (msg : string).

Inductive result (A : Type) : Type :=
| Ok (a : A)
| Raise (e : exn).
Arguments Ok {A} a.
Arguments Raise {A} e.

(** [str(i)] / ["%d" % i] for a Python int. *)
Definition str_int (i : Z) : string := NilZero.string_of_int (Z.to_int i).

(** [sep.join(l)] *)
Definition join (sep : string) (l : list string) : string := String.concat sep l.

(** [str] of a list whose elements print as [reprs]. *)
Definition str_list (reprs : list string) : string := "[" ++ join ", " reprs ++ "]".

(** [len(l)] *)
Definition len {A} (l : list A) : Z := Z.of_nat (List.length l).

(** [s] occurs in [t]. *)
Definition occurs_in (s t : string) : Prop := exists pre post, t = pre ++ s ++ post.

(** ** Node specs *)

(** A node spec is a dict from OS type to node count; an association list
    keeps the iteration order that [iteritems] and [str] share. *)
Definition NodeSpec : Type := list (string * Z).

(** The constants of [ducktape.cluster.remoteaccount.RemoteAccount] that
    [service.py] reads. *)
Record RemoteAccountConsts : Type := {
  LINUX : string;
  SUPPORTED_OS_TYPES : list string
}.

(** Python truthiness of the two optional constructor arguments. *)
Definition truthy_int (o : option Z) : bool :=
  match o with
  | None => false
  | Some i => negb (i =? 0)
  end.

Definition truthy_dict (o : option NodeSpec) : bool :=
  match o with
  | None => false
  | Some [] => false
  | Some (_ :: _) => true
  end.

Definition in_strs (s : string) (l : list string) : bool :=
  existsb (String.eqb s) l.

Section NodeSpecResolver.

Variable RemoteAccount : RemoteAccountConsts.
(** [repr] of a Python string (quotes and escapes are the runtime's). *)
Variable repr_str : string -> string.

(** [str(node_spec)] *)
Definition str_node_spec (d : NodeSpec) : string :=
  "{" ++ join ", " (map (fun kv => repr_str (fst kv) ++ ": " ++ str_int (snd kv)) d) ++ "}".

(** [str(RemoteAccount.SUPPORTED_OS_TYPES)] *)
Definition str_supported : string :=
  str_list (map repr_str (SUPPORTED_OS_TYPES RemoteAccount)).

(** The loop of the [try] block: the first unsupported key raises. *)
Fixpoint check_os_types (items : NodeSpec) : result unit :=
  match items with
  | [] => Ok tt
  | (os_type, _) :: rest =>
      if negb (in_strs os_type (SUPPORTED_OS_TYPES RemoteAccount))
      then Raise (Exception ("When nodes is a dictionary, each key must be a "
                             ++ "supported OS. '" ++ os_type ++ "' is unknown."))
      else check_os_types rest
  end.

Definition unsupported_msg (d : NodeSpec) : string :=
  "Each node_spec key must be a supported operating system: "
  ++ str_supported ++ ", node_spec: " ++ str_node_spec d.

(** [Service.setup_node_spec(num_nodes, node_spec)]: the bare [except]
    replaces whatever the loop raised. *)
Definition setup_node_spec (num_nodes : option Z) (node_spec : option NodeSpec)
  : result NodeSpec :=
  if negb (truthy_int num_nodes) && negb (truthy_dict node_spec)
  then Raise (Exception "Either num_nodes or node_spec must not be None.")
  else
    match node_spec with
    | Some ((_ :: _) as d) =>
        match check_os_types d with
        | Ok _ => Ok d
        | Raise _ => Raise (Exception (unsupported_msg d))
        end
    | _ =>
        match num_nodes with
        | Some n => Ok [(LINUX RemoteAccount, n)]
        | None => (* not reached: [num_nodes] is truthy here *)
            Raise (Exception "Either num_nodes or node_spec must not be None.")
        end
    end.

End NodeSpecResolver.

(** The invariant of a node spec as the specification states it: not
    empty, every key a supported OS type, every count positive. *)
Definition stated_node_spec_invariant (supported : list string) (spec : NodeSpec) : Prop :=
  spec <> []
  /\ (forall k, In k (map fst spec) -> In k supported)
  /\ (forall kv, In kv spec -> 0 < snd kv).

(** ** Services, nodes and their environment *)

(** A node handle; two handles are [==] when they are the same object. *)
Definition Node : Type := nat.

(** A logger object. *)
Definition Logger : Type := string.

(** What the registry [context.services] shows of a registered service:
    its identity [id(s)] and its class [type(s)]. *)
Record Handle : Type := {
  h_id : Z;
  h_type : string
}.

(** The fields of a [Service] instance. *)
Record Service : Type := {
  cls_name : string;                        (* self.__class__.__name__ *)
  self_id : Z;                              (* id(self) *)
  _init_time : Z;
  _start_time : Z;
  _start_duration_seconds : Z;
  _stop_time : Z;
  _stop_duration_seconds : Z;
  _clean_time : Z;
  _initialized : bool;
  node_spec : NodeSpec;
  nodes : list Node;
  _nodes_formerly_allocated : list string;
  _local_scratch_dir : option string
}.

Definition handle_of (s : Service) : Handle :=
  {| h_id := self_id s; h_type := cls_name s |}.

Definition set_init_time (t : Z) (s : Service) : Service :=
  {| cls_name := cls_name s; self_id := self_id s; _init_time := t;
     _start_time := _start_time s; _start_duration_seconds := _start_duration_seconds s;
     _stop_time := _stop_time s; _stop_duration_seconds := _stop_duration_seconds s;
     _clean_time := _clean_time s; _initialized := _initialized s;
     node_spec := node_spec s; nodes := nodes s;
     _nodes_formerly_allocated := _nodes_formerly_allocated s;
     _local_scratch_dir := _local_scratch_dir s |}.

Definition set_node_spec (d : NodeSpec) (s : Service) : Service :=
  {| cls_name := cls_name s; self_id := self_id s; _init_time := _init_time s;
     _start_time := _start_time s; _start_duration_seconds := _start_duration_seconds s;
     _stop_time := _stop_time s; _stop_duration_seconds := _stop_duration_seconds s;
     _clean_time := _clean_time s; _initialized := _initialized s;
     node_spec := d; nodes := nodes s;
     _nodes_formerly_allocated := _nodes_formerly_allocated s;
     _local_scratch_dir := _local_scratch_dir s |}.

Definition set_start_time (t : Z) (s : Service) : Service :=
  {| cls_name := cls_name s; self_id := self_id s; _init_time := _init_time s;
     _start_time := t; _start_duration_seconds := _start_duration_seconds s;
     _stop_time := _stop_time s; _stop_duration_seconds := _stop_duration_seconds s;
     _clean_time := _clean_time s; _initialized := _initialized s;
     node_spec := node_spec s; nodes := nodes s;
     _nodes_formerly_allocated := _nodes_formerly_allocated s;
     _local_scratch_dir := _local_scratch_dir s |}.

Definition set_start_duration_seconds (d : Z) (s : Service) : Service :=
  {| cls_name := cls_name s; self_id := self_id s; _init_time := _init_time s;
     _start_time := _start_time s; _start_duration_seconds := d;
     _stop_time := _stop_time s; _stop_duration_seconds := _stop_duration_seconds s;
     _clean_time := _clean_time s; _initialized := _initialized s;
     node_spec := node_spec s; nodes := nodes s;
     _nodes_formerly_allocated := _nodes_formerly_allocated s;
     _local_scratch_dir := _local_scratch_dir s |}.

Definition set_stop_time (t : Z) (s : Service) : Service :=
  {| cls_name := cls_name s; self_id := self_id s; _init_time := _init_time s;
     _start_time := _start_time s; _start_duration_seconds := _start_duration_seconds s;
     _stop_time := t; _stop_duration_seconds := _stop_duration_seconds s;
     _clean_time := _clean_time s; _initialized := _initialized s;
     node_spec := node_spec s; nodes := nodes s;
     _nodes_formerly_allocated := _nodes_formerly_allocated s;
     _local_scratch_dir := _local_scratch_dir s |}.

Definition set_stop_duration_seconds (d : Z) (s : Service) : Service :=
  {| cls_name := cls_name s; self_id := self_id s; _init_time := _init_time s;
     _start_time := _start_time s; _start_duration_seconds := _start_duration_seconds s;
     _stop_time := _stop_time s; _stop_duration_seconds := d;
     _clean_time := _clean_time s; _initialized := _initialized s;
     node_spec := node_spec s; nodes := nodes s;
     _nodes_formerly_allocated := _nodes_formerly_allocated s;
     _local_scratch_dir := _local_scratch_dir s |}.

Definition set_clean_time (t : Z) (s : Service) : Service :=
  {| cls_name := cls_name s; self_id := self_id s; _init_time := _init_time s;
     _start_time := _start_time s; _start_duration_seconds := _start_duration_seconds s;
     _stop_time := _stop_time s; _stop_duration_seconds := _stop_duration_seconds s;
     _clean_time := t; _initialized := _initialized s;
     node_spec := node_spec s; nodes := nodes s;
     _nodes_formerly_allocated := _nodes_formerly_allocated s;
     _local_scratch_dir := _local_scratch_dir s |}.

Definition set_initialized (b : bool) (s : Service) : Service :=
  {| cls_name := cls_name s; self_id := self_id s; _init_time := _init_time s;
     _start_time := _start_time s; _start_duration_seconds := _start_duration_seconds s;
     _stop_time := _stop_time s; _stop_duration_seconds := _stop_duration_seconds s;
     _clean_time := _clean_time s; _initialized := b;
     node_spec := node_spec s; nodes := nodes s;
     _nodes_formerly_allocated := _nodes_formerly_allocated s;
     _local_scratch_dir := _local_scratch_dir s |}.

Definition set_nodes (ns : list Node) (s : Service) : Service :=
  {| cls_name := cls_name s; self_id := self_id s; _init_time := _init_time s;
     _start_time := _start_time s; _start_duration_seconds := _start_duration_seconds s;
     _stop_time := _stop_time s; _stop_duration_seconds := _stop_duration_seconds s;
     _clean_time := _clean_time s; _initialized := _initialized s;
     node_spec := node_spec s; nodes := ns;
     _nodes_formerly_allocated := _nodes_formerly_allocated s;
     _local_scratch_dir := _local_scratch_dir s |}.

Definition set_nodes_formerly_allocated (l : list string) (s : Service) : Service :=
  {| cls_name := cls_name s; self_id := self_id s; _init_time := _init_time s;
     _start_time := _start_time s; _start_duration_seconds := _start_duration_seconds s;
     _stop_time := _stop_time s; _stop_duration_seconds := _stop_duration_seconds s;
     _clean_time := _clean_time s; _initialized := _initialized s;
     node_spec := node_spec s; nodes := nodes s;
     _nodes_formerly_allocated := l;
     _local_scratch_dir := _local_scratch_dir s |}.

Definition set_local_scratch_dir (d : option string) (s : Service) : Service :=
  {| cls_name := cls_name s; self_id := self_id s; _init_time := _init_time s;
     _start_time := _start_time s; _start_duration_seconds := _start_duration_seconds s;
     _stop_time := _stop_time s; _stop_duration_seconds := _stop_duration_seconds s;
     _clean_time := _clean_time s; _initialized := _initialized s;
     node_spec := node_spec s; nodes := nodes s;
     _nodes_formerly_allocated := _nodes_formerly_allocated s;
     _local_scratch_dir := d |}.

(** The object that [__init__] receives: its class and identity are
    fixed, every other attribute is assigned by [__init__] before it is
    read. *)
Definition new_object (cls : string) (id : Z) : Service :=
  {| cls_name := cls; self_id := id; _init_time := 0;
     _start_time := 0; _start_duration_seconds := 0;
     _stop_time := 0; _stop_duration_seconds := 0;
     _clean_time := 0; _initialized := false;
     node_spec := []; nodes := [];
     _nodes_formerly_allocated := [];
     _local_scratch_dir := None |}.

(** A call made to a subclass hook or to the cluster. The log of these
    calls is ghost state: the program never reads it. *)
Inductive Event : Type :=
| Call_start_node (node : Node)
| Call_stop_node (node : Node)
| Call_clean_node (node : Node)
| Call_wait_node (node : Node) (timeout_sec : Z)
| Call_cluster_alloc (spec : NodeSpec)
| Call_cluster_free (node : Node).

(** The per-node hooks that a concrete service class implements. A hook is
    a method of the instance: it sees [self], acts on the outside world and
    may raise. [wait_node] answers whether the node has finished. *)
Record Hooks (World : Type) : Type := {
  start_node : Service -> Node -> World -> result unit * World;
  stop_node : Service -> Node -> World -> result unit * World;
  clean_node : Service -> Node -> World -> result unit * World;
  wait_node : Service -> Node -> Z -> World -> result bool * World
}.
Arguments start_node {World} _ _ _ _.
Arguments stop_node {World} _ _ _ _.
Arguments clean_node {World} _ _ _ _.
Arguments wait_node {World} _ _ _ _ _.

(** The collaborators: the clock [time.time()] and the cluster behind
    [context.cluster]. *)
Record Collaborators (World : Type) : Type := {
  time_time : World -> Z * World;
  cluster_alloc : NodeSpec -> World -> result (list Node) * World;
  cluster_free : Node -> World -> result unit * World
}.
Arguments time_time {World} _ _.
Arguments cluster_alloc {World} _ _ _.
Arguments cluster_free {World} _ _ _.

(** How the Python runtime and the collaborators print their objects. *)
Record Printers : Type := {
  repr_str : string -> string;          (* repr of a str *)
  repr_node : Node -> string;           (* repr(node) *)
  str_account : Node -> string;         (* str(node.account) *)
  account_hostname : Node -> string;    (* node.account.hostname *)
  repr_service : Handle -> string       (* repr of a registered service *)
}.

Section Environment.

(** The world outside the service: processes and files on the nodes, the
    pool of the cluster, the clock. *)
Variable World : Type.

(** The environment of a service instance. *)
Record Env : Type := {
  world : World;
  account_logger : Node -> option Logger;   (* node.account._logger *)
  context_logger : Logger;                  (* context.logger *)
  context_services : option (list Handle);  (* context.services, if it has any *)
  calls : list Event
}.

Definition set_world (w : World) (e : Env) : Env :=
  {| world := w; account_logger := account_logger e;
     context_logger := context_logger e; context_services := context_services e;
     calls := calls e |}.

Definition set_account_logger (node : Node) (l : option Logger) (e : Env) : Env :=
  {| world := world e;
     account_logger := fun n => if Nat.eqb n node then l else account_logger e n;
     context_logger := context_logger e; context_services := context_services e;
     calls := calls e |}.

Definition set_context_services (l : option (list Handle)) (e : Env) : Env :=
  {| world := world e; account_logger := account_logger e;
     context_logger := context_logger e; context_services := l;
     calls := calls e |}.

Definition log_call (ev : Event) (e : Env) : Env :=
  {| world := world e; account_logger := account_logger e;
     context_logger := context_logger e; context_services := context_services e;
     calls := (calls e ++ [ev])%list |}.

Record State : Type := {
  self : Service;
  env : Env
}.

End Environment.

Arguments Build_Env {World} _ _ _ _ _.
Arguments world {World} _.
Arguments account_logger {World} _ _.
Arguments context_logger {World} _.
Arguments context_services {World} _.
Arguments calls {World} _.
Arguments set_world {World} _ _.
Arguments set_account_logger {World} _ _ _.
Arguments set_context_services {World} _ _.
Arguments log_call {World} _ _.
Arguments Build_State {World} _ _.
Arguments self {World} _.
Arguments env {World} _.

(** ** A small concrete instance

    A cluster with a finite pool of nodes, a clock that advances by one
    tick at every reading, and a service class whose nodes need a fixed
    time to finish. It is used to run the model on concrete inputs. *)
Module Toy.

(** The clock counts ticks since the epoch. *)
Record World : Type := {
  clock : nat;
  pool : list Node
}.

Definition advance (d : Z) (w : World) : World :=
  {| clock := clock w + Z.to_nat d; pool := pool w |}.

Definition consts : RemoteAccountConsts :=
  {| LINUX := "linux"; SUPPORTED_OS_TYPES := ["linux"; "windows"] |}.

Definition printers : Printers :=
  {| repr_str := fun s => "'" ++ s ++ "'";
     repr_node := fun n => "<node " ++ str_int (Z.of_nat n) ++ ">";
     str_account := fun n => "user@host" ++ str_int (Z.of_nat n);
     account_hostname := fun n => "host" ++ str_int (Z.of_nat n);
     repr_service := fun h => "<" ++ h_type h ++ ">" |}.

(** Number of nodes that a spec asks for. *)
Definition requested (spec : NodeSpec) : nat :=
  Z.to_nat (fold_right (fun kv acc => snd kv + acc) 0 spec).

Definition collaborators : Collaborators World :=
  {| time_time := fun w => (Z.of_nat (clock w), advance 1 w);
     cluster_alloc := fun spec w =>
       if (requested spec <=? List.length (pool w))%nat
       then (Ok (firstn (requested spec) (pool w)),
             {| clock := clock w; pool := skipn (requested spec) (pool w) |})
       else (Raise (RuntimeError "There aren't enough available nodes."), w);
     cluster_free := fun node w =>
       (Ok tt, {| clock := clock w; pool := (pool w ++ [node])%list |}) |}.

(** Node 1 needs 12 ticks to finish, every other node 2. Stopping a node
    fails (nothing runs there), starting node 7 fails. *)
Definition needs (node : Node) : Z := if Nat.eqb node 1 then 12 else 2.

Definition hooks : Hooks World :=
  {| start_node := fun _ node w =>
       if Nat.eqb node 7
       then (Raise (RuntimeError "cannot start"), advance 1 w)
       else (Ok tt, advance 1 w);
     stop_node := fun _ _ w => (Raise (RuntimeError "no process to kill"), advance 1 w);
     clean_node := fun _ _ w => (Ok tt, advance 1 w);
     wait_node := fun _ node timeout_sec w =>
       if needs node <=? timeout_sec
       then (Ok true, advance (needs node) w)
       else (Ok false, advance timeout_sec w) |}.

(** The environment before anything is constructed: six free nodes, no
    logger bound, an empty registry. *)
Definition env0 : Env World :=
  {| world := {| clock := 100; pool := [1; 2; 3; 4; 5; 6]%nat |};
     account_logger := fun _ => None;
     context_logger := "test";
     context_services := Some [];
     calls := [] |}.

(** An object of class [KafkaService] about to be initialized. *)
Definition fresh : State World :=
  {| self := new_object "KafkaService" 1001; env := env0 |}.

(** The state that [Service.__init__] with [num_nodes = 2] reaches from
    [fresh]. *)
Definition kafka : State World :=
  {| self :=
       {| cls_name := "KafkaService"; self_id := 1001; _init_time := 100;
          _start_time := -1; _start_duration_seconds := -1;
          _stop_time := -1; _stop_duration_seconds := -1;
          _clean_time := -1; _initialized := true;
          node_spec := [("linux", 2)]; nodes := [1; 2]%nat;
          _nodes_formerly_allocated := ["user@host1"; "user@host2"];
          _local_scratch_dir := None |};
     env :=
       {| world := {| clock := 101; pool := [3; 4; 5; 6]%nat |};
          account_logger := fun n =>
            if Nat.eqb n 2 then Some "test"
            else if Nat.eqb n 1 then Some "test" else None;
          context_logger := "test";
          context_services := Some [{| h_id := 1001; h_type := "KafkaService" |}];
          calls := [Call_cluster_alloc [("linux", 2)]] |} |}.

(** An environment in which node 4 still bears the logger of a service
    that did not free it. *)
Definition leaky_env : Env World :=
  {| world := {| clock := 100; pool := [3; 4; 5]%nat |};
     account_logger := fun n => if Nat.eqb n 4 then Some "other" else None;
     context_logger := "test";
     context_services := Some [];
     calls := [] |}.

(** An instance that asks for three nodes and holds none yet. *)
Definition asking : State World :=
  {| self := set_node_spec [("linux", 3)] (new_object "KafkaService" 1001);
     env := leaky_env |}.

(** Five instances of two classes, registered in the order A, B, A, B, A. *)
Definition service_of (cls : string) (id : Z) : Service :=
  set_initialized true (new_object cls id).

Definition registry : list Handle :=
  map handle_of [service_of "A" 1; service_of "B" 2; service_of "A" 3;
                 service_of "B" 4; service_of "A" 5].

Definition registry_env : Env World :=
  {| world := {| clock := 100; pool := [] |};
     account_logger := fun _ => None;
     context_logger := "test";
     context_services := Some registry;
     calls := [] |}.

(** A cluster that does not take node 2 back. *)
Definition stubborn : Collaborators World :=
  {| time_time := time_time collaborators;
     cluster_alloc := cluster_alloc collaborators;
     cluster_free := fun node w =>
       if Nat.eqb node 2
       then (Raise (RuntimeError "node is down"), w)
       else cluster_free collaborators node w |}.

End Toy.

(** The file system of the test driver, as [tempfile.mkdtemp],
    [os.path.exists] and [shutil.rmtree] show it. *)
Record FileSystem (World : Type) : Type := {
  mkdtemp : World -> result string * World;
  path_exists : string -> World -> bool;
  rmtree : string -> World -> result unit * World
}.
Arguments mkdtemp {World} _ _.
Arguments path_exists {World} _ _ _.
Arguments rmtree {World} _ _ _.

(** ** A small file system

    Directories are a list of paths; [mkdtemp] makes the directory
    ["/tmp/tmp<n>"] for a counter [n], [rmtree] removes a directory
    that exists and fails otherwise. *)
Module ToyFS.

Record World : Type := {
  dirs : list string;
  made : nat
}.

Definition fs : FileSystem World :=
  {| mkdtemp := fun w =>
       let d := "/tmp/tmp" ++ str_int (Z.of_nat (made w)) in
       (Ok d, {| dirs := d :: dirs w; made := S (made w) |});
     path_exists := fun d w => in_strs d (dirs w);
     rmtree := fun d w =>
       if in_strs d (dirs w)
       then (Ok tt, {| dirs := filter (fun x => negb (String.eqb x d)) (dirs w);
                       made := made w |})
       else (Raise (Exception "No such file or directory"), w) |}.

(** A constructed instance that has not asked for its scratch directory. *)
Definition service : State World :=
  {| self := set_initialized true (new_object "KafkaService" 1001);
     env := {| world := {| dirs := ["/tmp/other"]; made := 7 |};
               account_logger := fun _ => None;
               context_logger := "test";
               context_services := Some [{| h_id := 1001; h_type := "KafkaService" |}];
               calls := [] |} |}.

End ToyFS.

(** ** A clock that is set back

    The clock gives the readings that are left on a list, in order; the
    cluster serves one node, and the hooks do nothing. *)
Module SetBack.

Definition World : Type := list Z.

Definition collaborators : Collaborators World :=
  {| time_time := fun w =>
       match w with
       | t :: rest => (t, rest)
       | [] => (0, [])
       end;
     cluster_alloc := fun _ w => (Ok [1%nat], w);
     cluster_free := fun _ w => (Ok tt, w) |}.

Definition hooks : Hooks World :=
  {| start_node := fun _ _ w => (Ok tt, w);
     stop_node := fun _ _ w => (Ok tt, w);
     clean_node := fun _ _ w => (Ok tt, w);
     wait_node := fun _ _ _ w => (Ok true, w) |}.

(** An object about to be initialized, with a clock that reads 50, 100,
    then 90, then 120. *)
Definition fresh : State World :=
  {| self := new_object "KafkaService" 1001;
     env := {| world := [50; 100; 90; 120];
               account_logger := fun _ => None;
               context_logger := "test";
               context_services := Some [];
               calls := [] |} |}.

End SetBack.

Section ServiceModel.

Variable World : Type.

(** State and exceptions: a raised exception keeps the state reached. *)
Definition M (A : Type) : Type := State World -> result A * State World.

Definition ret {A} (a : A) : M A := fun st => (Ok a, st).

Definition bind {A B} (m : M A) (k : A -> M B) : M B :=
  fun st =>
    match m st with
    | (Ok a, st') => k a st'
    | (Raise e, st') => (Raise e, st')
    end.

Definition raise {A} (e : exn) : M A := fun st => (Raise e, st).

Definition get_self : M Service := fun st => (Ok (self st), st).
Definition get_env : M (Env World) := fun st => (Ok (env st), st).

Definition modify_self (f : Service -> Service) : M unit :=
  fun st => (Ok tt, {| self := f (self st); env := env st |}).

Definition modify_env (f : Env World -> Env World) : M unit :=
  fun st => (Ok tt, {| self := self st; env := f (env st) |}).

(** An operation of the outside world, which sees and changes [world] only. *)
Definition external {A} (op : World -> result A * World) : M A :=
  fun st =>
    let (r, w') := op (world (env st)) in
    (r, {| self := self st; env := set_world w' (env st) |}).

(** A pure computation that may raise. *)
Definition lift {A} (r : result A) : M A := fun st => (r, st).

Local Notation "x <- m ;; k" := (bind m (fun x => k))
  (at level 61, m at next level, right associativity).
Local Notation "m ;;; k" := (bind m (fun _ => k))
  (at level 61, right associativity).

(** [for x in xs: body(x)] *)
Fixpoint for_each {A} (xs : list A) (body : A -> M unit) : M unit :=
  match xs with
  | [] => ret tt
  | x :: rest => body x ;;; for_each rest body
  end.

(** [try: m  except: pass] *)
Definition try_pass (m : M unit) : M unit :=
  fun st => let (_, st') := m st in (Ok tt, st').

(** [try: m  except <classes handled by h> as e: h(e)] *)
Definition try_except {A} (m : M A) (h : exn -> option (M A)) : M A :=
  fun st =>
    match m st with
    | (Ok a, st') => (Ok a, st')
    | (Raise e, st') =>
        match h e with
        | Some k => k st'
        | None => (Raise e, st')
        end
    end.

(** Reading something that depends on [self] and its environment. *)
Definition eval {A} (f : Service -> Env World -> result A) : M A :=
  fun st => (f (self st) (env st), st).

(** A logger call: the logger does nothing that matters here, but its
    argument is evaluated first, and that may raise. *)
Definition logger_call (msg : Service -> Env World -> result string) : M unit :=
  _ <- eval msg ;; ret tt.

Variable RemoteAccount : RemoteAccountConsts.
Variable pr : Printers.
Variable hooks : Hooks World.
Variable ext : Collaborators World.

(** ** Python lists *)

(** [l[i]] *)
Definition py_getitem {A} (l : list A) (i : Z) : result A :=
  let j := if i <? 0 then i + len l else i in
  if (j <? 0) || (len l <=? j)
  then Raise (IndexError "list index out of range")
  else match nth_error l (Z.to_nat j) with
       | Some x => Ok x
       | None => Raise (IndexError "list index out of range")
       end.

(** [enumerate(l, start)] *)
Fixpoint enumerate {A} (l : list A) (start : Z) : list (Z * A) :=
  match l with
  | [] => []
  | x :: rest => (start, x) :: enumerate rest (start + 1)
  end.

(** [l.index(x)] on a list of ints, counting from [from]. *)
Fixpoint index_from (x : Z) (l : list Z) (from : Z) : option Z :=
  match l with
  | [] => None
  | y :: rest => if y =? x then Some from else index_from x rest (from + 1)
  end.

Definition list_index (l : list Z) (x : Z) : result Z :=
  match index_from x l 0 with
  | Some i => Ok i
  | None => Raise (ValueError (str_int x ++ " is not in list"))
  end.

(** ** Identity *)

(** [self in self.context.services] *)
Definition registered (s : Service) (services : list Handle) : bool :=
  existsb (fun x => h_id x =? self_id s) services.

(** The property [Service._order]. *)
Definition _order (s : Service) (e : Env World) : result Z :=
  match context_services e with
  | Some services =>
      let same_services :=
        map h_id (filter (fun x => String.eqb (h_type x) (cls_name s)) services) in
      if negb (registered s services) && negb (_initialized s)
      then Ok (len same_services)
      else list_index same_services (self_id s)
  | None => Ok 0
  end.

(** The property [Service.service_id]. *)
Definition service_id (s : Service) (e : Env World) : result string :=
  match _order s e with
  | Ok o => Ok (cls_name s ++ "-" ++ str_int o ++ "-" ++ str_int (self_id s))
  | Raise x => Raise x
  end.

(** [Service.get_node(idx)] *)
Definition get_node (s : Service) (idx : Z) : result Node :=
  py_getitem (nodes s) (idx - 1).

Fixpoint idx_loop (s : Service) (items : list (Z * Node)) (node : Node) : result Z :=
  match items with
  | [] => Ok (-1)
  | (i, _) :: rest =>
      match get_node s i with
      | Ok n => if Nat.eqb n node then Ok i else idx_loop s rest node
      | Raise x => Raise x
      end
  end.

(** [Service.idx(node)] *)
Definition idx (s : Service) (node : Node) : result Z :=
  idx_loop s (enumerate (nodes s) 1) node.

(** [Service.who_am_i(node=None)] *)
Definition who_am_i (node : option Node) (s : Service) (e : Env World) : result string :=
  match node with
  | None => service_id s e
  | Some n =>
      match service_id s e with
      | Ok sid =>
          match idx s n with
          | Ok i => Ok (sid ++ " node " ++ str_int i ++ " on " ++ account_hostname pr n)
          | Raise x => Raise x
          end
      | Raise x => Raise x
      end
  end.

(** The property [Service.allocated]. *)
Definition allocated (s : Service) : bool := 0 <? len (nodes s).

(** ** Calls to the hooks and to the collaborators *)

Definition time : M Z :=
  external (fun w => let (t, w') := time_time ext w in (Ok t, w')).

Definition call_start_node (node : Node) : M unit :=
  s <- get_self ;;
  modify_env (log_call (Call_start_node node)) ;;;
  external (start_node hooks s node).

Definition call_stop_node (node : Node) : M unit :=
  s <- get_self ;;
  modify_env (log_call (Call_stop_node node)) ;;;
  external (stop_node hooks s node).

Definition call_clean_node (node : Node) : M unit :=
  s <- get_self ;;
  modify_env (log_call (Call_clean_node node)) ;;;
  external (clean_node hooks s node).

Definition call_wait_node (node : Node) (timeout_sec : Z) : M bool :=
  s <- get_self ;;
  modify_env (log_call (Call_wait_node node timeout_sec)) ;;;
  external (wait_node hooks s node timeout_sec).

Definition call_cluster_alloc (spec : NodeSpec) : M (list Node) :=
  modify_env (log_call (Call_cluster_alloc spec)) ;;;
  external (cluster_alloc ext spec).

Definition call_cluster_free (node : Node) : M unit :=
  modify_env (log_call (Call_cluster_free node)) ;;;
  external (cluster_free ext node).

(** ** Allocation and release *)

(** [except RuntimeError as e] also catches the subclass
    [NotImplementedError]; the result is [e.message]. *)
Definition runtime_error_message (e : exn) : option string :=
  match e with
  | RuntimeError msg => Some msg
  | NotImplementedError msg => Some msg
  | _ => None
  end.

Definition dirty_node_msg (s : Service) (node : Node) : string :=
  "logger was not None on service start. There may be a concurrency issue, "
  ++ "or some service which isn't properly cleaning up after itself. "
  ++ "Service: " ++ cls_name s ++ ", node.account: " ++ str_account pr node.

(** The body of the loop over the nodes just allocated. *)
Definition bind_logger (node : Node) : M unit :=
  s <- get_self ;;
  e <- get_env ;;
  match account_logger e node with
  | Some _ => raise (RuntimeError (dirty_node_msg s node))
  | None => modify_env (set_account_logger node (Some (context_logger e)))
  end.

(** [Service.allocate_nodes()] *)
Definition allocate_nodes : M unit :=
  s <- get_self ;;
  if allocated s
  then raise (Exception
                "Requesting nodes for a service that has already been allocated nodes.")
  else
    ns <- try_except (call_cluster_alloc (node_spec s))
            (fun e =>
               match runtime_error_message e with
               | Some msg =>
                   Some (e' <- get_env ;;
                         raise (RuntimeError
                                  (msg ++ match context_services e' with
                                          | Some services =>
                                              " Currently registered services: "
                                              ++ str_list (map (repr_service pr) services)
                                          | None => ""
                                          end)))
               | None => None
               end) ;;
    modify_self (set_nodes ns) ;;;
    for_each ns bind_logger ;;;
    logger_call (who_am_i None).

(** [Service.free()] *)
Definition free : M unit :=
  s <- get_self ;;
  for_each (nodes s)
    (fun node =>
       logger_call (who_am_i (Some node)) ;;;
       modify_env (set_account_logger node None) ;;;
       call_cluster_free node) ;;;
  modify_self (set_nodes []).

(** ** Construction *)

(** [self.context.services.append(self)] *)
Definition register_self : M unit :=
  s <- get_self ;;
  e <- get_env ;;
  match context_services e with
  | Some services =>
      modify_env (set_context_services (Some (services ++ [handle_of s])%list))
  | None => raise (AttributeError "'context' object has no attribute 'services'")
  end.

(** [Service.__init__(context, num_nodes, node_spec)] *)
Definition __init__ (num_nodes : option Z) (node_spec_arg : option NodeSpec) : M unit :=
  t <- time ;;
  modify_self (set_init_time t) ;;;
  modify_self (set_start_time (-1)) ;;;
  modify_self (set_start_duration_seconds (-1)) ;;;
  modify_self (set_stop_time (-1)) ;;;
  modify_self (set_stop_duration_seconds (-1)) ;;;
  modify_self (set_clean_time (-1)) ;;;
  modify_self (set_initialized false) ;;;
  spec <- lift (setup_node_spec RemoteAccount (repr_str pr) num_nodes node_spec_arg) ;;
  modify_self (set_node_spec spec) ;;;
  modify_self (set_nodes []) ;;;
  allocate_nodes ;;;
  s <- get_self ;;
  modify_self (set_nodes_formerly_allocated (map (str_account pr) (nodes s))) ;;;
  register_self ;;;
  modify_self (set_local_scratch_dir None) ;;;
  modify_self (set_initialized true).

(** ** Lifecycle *)

(** The blocks of [start], in source order: the start time, set on the
    first call only; *)
Definition set_start_time_once : M unit :=
  s <- get_self ;;
  if _start_time s <? 0
  then t <- time ;; modify_self (set_start_time t)
  else ret tt.

(** the precaution taken before starting, each step in a [try] whose
    [except] passes; *)
Definition pre_cleanup : M unit :=
  s <- get_self ;;
  for_each (nodes s)
    (fun node =>
       try_pass (call_stop_node node) ;;;
       try_pass (call_clean_node node)).

(** the loop that starts the nodes; *)
Definition start_all_nodes : M unit :=
  s <- get_self ;;
  for_each (nodes s)
    (fun node =>
       logger_call (who_am_i (Some node)) ;;;
       call_start_node node).

(** the start duration, set by the first call that gets here. *)
Definition set_start_duration_once : M unit :=
  s <- get_self ;;
  if _start_duration_seconds s <? 0
  then t <- time ;; modify_self (set_start_duration_seconds (t - _start_time s))
  else ret tt.

(** [Service.start()] *)
Definition start : M unit :=
  logger_call (who_am_i None) ;;;
  set_start_time_once ;;;
  logger_call (who_am_i None) ;;;
  pre_cleanup ;;;
  start_all_nodes ;;;
  set_start_duration_once.

Definition timeout_msg (timeout_sec : Z) (unfinished_nodes : list Node) : string :=
  "Timed out waiting " ++ str_int timeout_sec
  ++ " seconds for service nodes to finish. "
  ++ "These nodes are still alive: " ++ str_list (map (repr_node pr) unfinished_nodes).

(** The loop of [wait]; [unfinished_nodes] is the list built so far. *)
Fixpoint wait_loop (ns : list Node) (end_ : Z) (unfinished_nodes : list Node)
  : M (list Node) :=
  match ns with
  | [] => ret unfinished_nodes
  | node :: rest =>
      now <- time ;;
      if end_ >? now
      then
        logger_call (who_am_i (Some node)) ;;;
        finished <- call_wait_node node (end_ - now) ;;
        if negb finished
        then wait_loop rest end_ (unfinished_nodes ++ [node])%list
        else wait_loop rest end_ unfinished_nodes
      else wait_loop rest end_ (unfinished_nodes ++ [node])%list
  end.

(** [Service.wait(timeout_sec=600)] *)
Definition wait (timeout_sec : Z) : M unit :=
  start_ <- time ;;
  let end_ := start_ + timeout_sec in
  s <- get_self ;;
  unfinished_nodes <- wait_loop (nodes s) end_ [] ;;
  match unfinished_nodes with
  | [] => ret tt
  | _ :: _ => raise (TimeoutError (timeout_msg timeout_sec unfinished_nodes))
  end.

(** [Service.stop()] *)
Definition stop : M unit :=
  t <- time ;;
  modify_self (set_stop_time t) ;;;
  logger_call (who_am_i None) ;;;
  s <- get_self ;;
  for_each (nodes s)
    (fun node =>
       logger_call (who_am_i (Some node)) ;;;
       call_stop_node node) ;;;
  t' <- time ;;
  s <- get_self ;;
  modify_self (set_stop_duration_seconds (t' - _stop_time s)).

(** [Service.clean()] *)
Definition clean : M unit :=
  t <- time ;;
  modify_self (set_clean_time t) ;;;
  logger_call (who_am_i None) ;;;
  s <- get_self ;;
  for_each (nodes s)
    (fun node =>
       logger_call (who_am_i (Some node)) ;;;
       call_clean_node node).

(** [Service.run()] *)
Definition run : M unit :=
  start ;;; wait 600 ;;; stop.

(** The ["nodes"] entry of [Service.to_json()]. *)
Definition to_json_nodes (s : Service) : list string := _nodes_formerly_allocated s.



(** ** The scratch directory *)

Variable fs : FileSystem World.

(** Truthiness of [self._local_scratch_dir]: [None] and the empty string
    are false. *)
Definition truthy_path (o : option string) : bool :=
  match o with
  | None => false
  | Some d => negb (String.eqb d "")
  end.

(** The property [Service.local_scratch_dir]; it returns the value of
    the attribute. *)
Definition local_scratch_dir : M (option string) :=
  s <- get_self ;;
  (if negb (truthy_path (_local_scratch_dir s))
   then d <- external (mkdtemp fs) ;; modify_self (set_local_scratch_dir (Some d))
   else ret tt) ;;;
  s' <- get_self ;;
  ret (_local_scratch_dir s').

(** [Service.close()] *)
Definition close : M unit :=
  s <- get_self ;;
  e <- get_env ;;
  match _local_scratch_dir s with
  | Some d =>
      if truthy_path (Some d) && path_exists fs d (world e)
      then external (rmtree fs d)
      else ret tt
  | None => ret tt
  end.

(** ** The hooks of the base class *)

(** What [start_node], [wait_node] and [stop_node] of [Service] itself
    do: they name the instance and raise. *)
Definition must_implement {A} (hook : string) (s : Service) (e : Env World) : result A :=
  match who_am_i None s e with
  | Ok me => Raise (NotImplementedError (me ++ ": subclasses must implement " ++ hook ++ "."))
  | Raise x => Raise x
  end.

(** The hooks as [Service] defines them, for the instances of a context
    whose registry is that of [e]; [clean_node] only logs a warning. None
    of them touches the outside world. *)
Definition base_hooks (e : Env World) : Hooks World :=
  {| start_node := fun s _ w => (must_implement "start_node" s e, w);
     stop_node := fun s _ w => (must_implement "stop_node" s e, w);
     clean_node := fun s _ w =>
       (match who_am_i None s e with
        | Ok _ => Ok tt
        | Raise x => Raise x
        end, w);
     wait_node := fun s _ _ w => (must_implement "wait_node" s e, w) |}.

(** ** The snapshot *)

(** The module in which a class is defined, [cls.__module__]. *)
Variable module_name : string -> string.

(** The ["lifecycle"] entry of [Service.to_json()]. *)
Record Lifecycle : Type := {
  json_init_time : Z;
  json_start_time : Z;
  json_start_duration_seconds : Z;
  json_stop_time : Z;
  json_stop_duration_seconds : Z;
  json_clean_time : Z
}.

(** The dict that [Service.to_json()] returns. *)
Record ServiceJson : Type := {
  json_cls_name : string;
  json_module_name : string;
  json_lifecycle : Lifecycle;
  json_service_id : string;
  json_nodes : list string
}.

(** [Service.to_json()]; the entries are evaluated in source order, and
    only [service_id] can raise. *)
Definition to_json (s : Service) (e : Env World) : result ServiceJson :=
  match service_id s e with
  | Ok sid =>
      Ok {| json_cls_name := cls_name s;
            json_module_name := module_name (cls_name s);
            json_lifecycle :=
              {| json_init_time := _init_time s;
                 json_start_time := _start_time s;
                 json_start_duration_seconds := _start_duration_seconds s;
                 json_stop_time := _stop_time s;
                 json_stop_duration_seconds := _stop_duration_seconds s;
                 json_clean_time := _clean_time s |};
            json_service_id := sid;
            json_nodes := to_json_nodes s |}
  | Raise x => Raise x
  end.

(** ** Several services

    The services of one test share the context and the cluster; each has
    its own fields. [object os a] are the fields of the object at address
    [a], [shared os] is the environment that the objects share. The hook
    that a call reaches depends on the object it is called on: [hooks]
    receives [self]. *)
Record Objects : Type := {
  object : nat -> Service;
  shared : Env World
}.

(** A method call [svc.m()] on the object at address [a]. *)
Definition on_object {A} (a : nat) (m : M A) : Objects -> result A * Objects :=
  fun os =>
    let (r, st') := m {| self := object os a; env := shared os |} in
    (r, {| object := fun b => if Nat.eqb b a then self st' else object os b;
           shared := env st' |}).

(** [for svc in args: svc.m()] *)
Fixpoint each_object (args : list nat) (m : M unit) : Objects -> result unit * Objects :=
  fun os =>
    match args with
    | [] => (Ok tt, os)
    | a :: rest =>
        match on_object a m os with
        | (Ok _, os') => each_object rest m os'
        | (Raise e, os') => (Raise e, os')
        end
    end.

(** [Service.run_parallel] with the arguments [args]; the arguments are
    the addresses of the services, and an address may occur twice. *)
Definition run_parallel (args : list nat) : Objects -> result unit * Objects :=
  fun os =>
    match each_object args start os with
    | (Ok _, os1) =>
        match each_object args (wait 600) os1 with
        | (Ok _, os2) => each_object args stop os2
        | (Raise e, os2) => (Raise e, os2)
        end
    | (Raise e, os1) => (Raise e, os1)
    end.

(** ** Vocabulary of the specification *)

(** The instance can name itself: [_order] does not raise. This holds
    once the instance is registered. *)
Definition identified (s : Service) (e : Env World) : Prop :=
  exists o, _order s e = Ok o.

(** The pre-cleanup pass as the specification words it: on every node,
    in order, [stop_node] then [clean_node], whatever either of them
    returns or raises. [runs_pre_cleanup s ns w tr w'] takes the world
    from [w] to [w'] and makes the calls [tr]. *)
Inductive runs_pre_cleanup (s : Service)
  : list Node -> World -> list Event -> World -> Prop :=
| pre_cleanup_done (w : World) :
    runs_pre_cleanup s [] w [] w
| pre_cleanup_node (node : Node) (rest : list Node) (w w1 w2 w' : World)
                   (r1 r2 : result unit) (tr : list Event) :
    stop_node hooks s node w = (r1, w1) ->
    clean_node hooks s node w1 = (r2, w2) ->
    runs_pre_cleanup s rest w2 tr w' ->
    runs_pre_cleanup s (node :: rest) w
                     (Call_stop_node node :: Call_clean_node node :: tr) w'.

(** The start phase as the specification words it: [start_node] on every
    node in order; the first failure ends the phase with that exception
    ([Some e]), otherwise the phase completes ([None]). *)
Inductive runs_start_nodes (s : Service)
  : list Node -> World -> option exn -> list Event -> World -> Prop :=
| start_nodes_done (w : World) :
    runs_start_nodes s [] w None [] w
| start_nodes_started (node : Node) (rest : list Node) (w w1 w' : World)
                      (out : option exn) (tr : list Event) :
    start_node hooks s node w = (Ok tt, w1) ->
    runs_start_nodes s rest w1 out tr w' ->
    runs_start_nodes s (node :: rest) w out (Call_start_node node :: tr) w'
| start_nodes_failed (node : Node) (rest : list Node) (w w1 : World) (e : exn) :
    start_node hooks s node w = (Raise e, w1) ->
    runs_start_nodes s (node :: rest) w (Some e) [Call_start_node node] w1.

(** How the loop of [wait] ends: all nodes were checked and some are
    unfinished, or [wait_node] raised. *)
Inductive WaitOutcome : Type :=
| Checked (unfinished_nodes : list Node)
| Aborted (e : exn).

Definition mark_unfinished (node : Node) (out : WaitOutcome) : WaitOutcome :=
  match out with
  | Checked u => Checked (node :: u)
  | Aborted e => Aborted e
  end.

(** The checks of [wait] as the specification words them, for a shared
    [deadline]: for each node in order, the remaining budget is the
    deadline minus the clock reading; a budget that is not positive marks
    the node unfinished without a call to [wait_node]; otherwise
    [wait_node] is called with the budget and the node is marked
    unfinished when it answers false. *)
Inductive wait_checks (s : Service) (deadline : Z)
  : list Node -> World -> WaitOutcome -> list Event -> World -> Prop :=
| wait_checks_done (w : World) :
    wait_checks s deadline [] w (Checked []) [] w
| wait_checks_no_budget (node : Node) (rest : list Node) (w w1 w' : World)
                        (now : Z) (out : WaitOutcome) (tr : list Event) :
    time_time ext w = (now, w1) ->
    deadline - now <= 0 ->
    wait_checks s deadline rest w1 out tr w' ->
    wait_checks s deadline (node :: rest) w (mark_unfinished node out) tr w'
| wait_checks_finished (node : Node) (rest : list Node) (w w1 w2 w' : World)
                       (now : Z) (out : WaitOutcome) (tr : list Event) :
    time_time ext w = (now, w1) ->
    0 < deadline - now ->
    wait_node hooks s node (deadline - now) w1 = (Ok true, w2) ->
    wait_checks s deadline rest w2 out tr w' ->
    wait_checks s deadline (node :: rest) w out
                (Call_wait_node node (deadline - now) :: tr) w'
| wait_checks_unfinished (node : Node) (rest : list Node) (w w1 w2 w' : World)
                         (now : Z) (out : WaitOutcome) (tr : list Event) :
    time_time ext w = (now, w1) ->
    0 < deadline - now ->
    wait_node hooks s node (deadline - now) w1 = (Ok false, w2) ->
    wait_checks s deadline rest w2 out tr w' ->
    wait_checks s deadline (node :: rest) w (mark_unfinished node out)
                (Call_wait_node node (deadline - now) :: tr) w'
| wait_checks_raised (node : Node) (rest : list Node) (w w1 w2 : World)
                     (now : Z) (e : exn) :
    time_time ext w = (now, w1) ->
    0 < deadline - now ->
    wait_node hooks s node (deadline - now) w1 = (Raise e, w2) ->
    wait_checks s deadline (node :: rest) w (Aborted e)
                [Call_wait_node node (deadline - now)] w2.

(** The two guarded assignments of [start], as functions of the instance
    and the world: each reads the clock only when its field is unset. *)
Definition start_time_step (s : Service) (w : World) : Service * World :=
  if _start_time s <? 0
  then let (t, w') := time_time ext w in (set_start_time t s, w')
  else (s, w).

Definition start_duration_step (s : Service) (w : World) : Service * World :=
  if _start_duration_seconds s <? 0
  then let (t, w') := time_time ext w in
       (set_start_duration_seconds (t - _start_time s) s, w')
  else (s, w).

(** The calls of a complete pre-cleanup pass over [ns]. *)
Definition pre_cleanup_calls (ns : list Node) : list Event :=
  flat_map (fun node => [Call_stop_node node; Call_clean_node node]) ns.

(** A computation keeps an invariant of the state, whether it returns or
    raises. *)
Definition keeps {A} (I : State World -> Prop) (m : M A) : Prop :=
  forall st, I st -> I (snd (m st)).


(** The first assignments of [__init__]: the timestamps and the
    [_initialized] flag, for the clock reading [t]. *)
Definition init_timestamps (t : Z) (s : Service) : Service :=
  set_initialized false
    (set_clean_time (-1)
       (set_stop_duration_seconds (-1)
          (set_stop_time (-1)
             (set_start_duration_seconds (-1)
                (set_start_time (-1) (set_init_time t s)))))).


(** A loop that calls one hook on every node in order and stops at the
    first failure, as [stop] and [clean] do: [runs_nodes hook ev ns w out
    tr w'] ends with the exception [out] of the failing call, if any. *)
Inductive runs_nodes (hook : Node -> World -> result unit * World) (ev : Node -> Event)
  : list Node -> World -> option exn -> list Event -> World -> Prop :=
| runs_nodes_done (w : World) :
    runs_nodes hook ev [] w None [] w
| runs_nodes_ok (node : Node) (rest : list Node) (w w1 w' : World)
                (out : option exn) (tr : list Event) :
    hook node w = (Ok tt, w1) ->
    runs_nodes hook ev rest w1 out tr w' ->
    runs_nodes hook ev (node :: rest) w out (ev node :: tr) w'
| runs_nodes_failed (node : Node) (rest : list Node) (w w1 : World) (e : exn) :
    hook node w = (Raise e, w1) ->
    runs_nodes hook ev (node :: rest) w (Some e) [ev node] w1.

(** Two states agree on what allocation and registration set up: the
    nodes held, the node spec, the recorded identifiers, the logger
    slots of all nodes, the logger of the context and the registry. *)
Definition same_allocation (st st' : State World) : Prop :=
  nodes (self st') = nodes (self st)
  /\ node_spec (self st') = node_spec (self st)
  /\ _nodes_formerly_allocated (self st') = _nodes_formerly_allocated (self st)
  /\ _initialized (self st') = _initialized (self st)
  /\ (forall m, account_logger (env st') m = account_logger (env st) m)
  /\ context_logger (env st') = context_logger (env st)
  /\ context_services (env st') = context_services (env st).




(** The log of the calls has grown from [c0] by calls that satisfy [P]. *)
Definition grown_by (P : Event -> Prop) (c0 : list Event) (e : Env World) : Prop :=
  exists tr, calls e = (c0 ++ tr)%list /\ Forall P tr.

(** The outside world after [cluster.free] was called on the nodes [ns],
    in order, from the world [w]. *)
Definition returned_to_cluster (ns : list Node) (w : World) : World :=
  fold_left (fun w0 node => snd (cluster_free ext node w0)) ns w.

(** * Properties *)

(** ** Strings *)

Lemma append_assoc (a b c : string) : (a ++ b) ++ c = a ++ (b ++ c).
Proof.
  induction a as [|ch a IH]; simpl; [reflexivity | now rewrite IH].
Qed.

Lemma append_nil_r (a : string) : a ++ "" = a.
Proof.
  induction a as [|ch a IH]; simpl; [reflexivity | now rewrite IH].
Qed.

Lemma occurs_in_refl (s : string) : occurs_in s s.
Proof.
  exists "", "". simpl. now rewrite append_nil_r.
Qed.

Lemma occurs_in_app_r (s a b : string) : occurs_in s b -> occurs_in s (a ++ b).
Proof.
  intros (pre & post & ->). exists (a ++ pre), post.
  now rewrite append_assoc.
Qed.

Lemma occurs_in_app_l (s a b : string) : occurs_in s a -> occurs_in s (a ++ b).
Proof.
  intros (pre & post & ->). exists pre, (post ++ b).
  now rewrite !append_assoc.
Qed.

Lemma occurs_in_trans (a b c : string) :
  occurs_in a b -> occurs_in b c -> occurs_in a c.
Proof.
  intros (p1 & q1 & ->) (p2 & q2 & ->).
  exists (p2 ++ p1), (q1 ++ q2). now rewrite !append_assoc.
Qed.

Lemma occurs_in_join (sep x : string) (l : list string) :
  In x l -> occurs_in x (join sep l).
Proof.
  unfold join. induction l as [|y l IH]; intros Hin; [contradiction|].
  destruct Hin as [-> | Hin].
  - destruct l as [|z l]; simpl.
    + apply occurs_in_refl.
    + apply occurs_in_app_l, occurs_in_refl.
  - destruct l as [|z l]; [contradiction|].
    change (String.concat sep (y :: z :: l))
      with (y ++ sep ++ String.concat sep (z :: l)).
    apply occurs_in_app_r, occurs_in_app_r, IH, Hin.
Qed.

(** ** Node spec resolution *)

Lemma in_strs_In (s : string) (l : list string) : in_strs s l = true <-> In s l.
Proof.
  unfold in_strs. rewrite existsb_exists. split.
  - intros (x & Hx & Heq). apply String.eqb_eq in Heq. now subst.
  - intros Hin. exists s. split; [assumption | apply String.eqb_refl].
Qed.

Lemma check_os_types_ok (d : NodeSpec) :
  check_os_types RemoteAccount d = Ok tt <->
  (forall k, In k (map fst d) -> in_strs k (SUPPORTED_OS_TYPES RemoteAccount) = true).
Proof.
  induction d as [|[k v] d IH]; simpl.
  - split; [intros _ k [] | reflexivity].
  - destruct (in_strs k (SUPPORTED_OS_TYPES RemoteAccount)) eqn:Hk; simpl.
    + rewrite IH. split.
      * intros H k' [<- | Hin]; auto.
      * intros H k' Hin. apply H. now right.
    + split; [discriminate|].
      intros H. specialize (H k (or_introl eq_refl)). congruence.
Qed.

Lemma check_os_types_raises (d : NodeSpec) (k : string) :
  In k (map fst d) ->
  in_strs k (SUPPORTED_OS_TYPES RemoteAccount) = false ->
  exists e, check_os_types RemoteAccount d = Raise e.
Proof.
  intros Hin Hk.
  destruct (check_os_types RemoteAccount d) as [[]|e] eqn:Hc; [|now exists e].
  rewrite (proj1 (check_os_types_ok d) Hc k Hin) in Hk. discriminate.
Qed.

Lemma unsupported_msg_lists_key (d : NodeSpec) (k : string) :
  In k (map fst d) ->
  occurs_in (repr_str pr k) (unsupported_msg RemoteAccount (repr_str pr) d).
Proof.
  intros Hin. unfold unsupported_msg, str_node_spec.
  do 4 apply occurs_in_app_r. apply occurs_in_app_l.
  apply in_map_iff in Hin. destruct Hin as ([k' v] & Hk & Hin). simpl in Hk. subst k'.
  apply occurs_in_trans with (b := repr_str pr k ++ ": " ++ str_int v).
  - apply occurs_in_app_l, occurs_in_refl.
  - apply occurs_in_join.
    apply (in_map (fun kv => repr_str pr (fst kv) ++ ": " ++ str_int (snd kv)) d (k, v) Hin).
Qed.


Lemma unsupported_msg_lists_supported (d : NodeSpec) :
  occurs_in (str_supported RemoteAccount (repr_str pr))
            (unsupported_msg RemoteAccount (repr_str pr) d).
Proof.
  unfold unsupported_msg. apply occurs_in_app_r, occurs_in_app_l, occurs_in_refl.
Qed.

Lemma setup_node_spec_accepts_supported (num_nodes : option Z) (d : NodeSpec) :
  d <> [] ->
  (forall k, In k (map fst d) -> in_strs k (SUPPORTED_OS_TYPES RemoteAccount) = true) ->
  setup_node_spec RemoteAccount (repr_str pr) num_nodes (Some d) = Ok d.
Proof.
  intros Hne Hall. destruct d as [|kv d]; [congruence|].
  unfold setup_node_spec.
  replace (truthy_dict (Some (kv :: d))) with true by reflexivity.
  rewrite andb_false_r.
  now rewrite (proj2 (check_os_types_ok (kv :: d)) Hall).
Qed.

(** What a successful resolution returns: the mapping itself when a
    non-empty one is given, all of its keys being supported, and
    otherwise the count, which is not zero, under the key [LINUX]. *)
Lemma setup_node_spec_ok (num_nodes : option Z) (arg : option NodeSpec) (spec : NodeSpec) :
  setup_node_spec RemoteAccount (repr_str pr) num_nodes arg = Ok spec ->
  (exists d, arg = Some d /\ d <> [] /\ spec = d /\
             forall k, In k (map fst d) ->
                       in_strs k (SUPPORTED_OS_TYPES RemoteAccount) = true)
  \/ (exists n, num_nodes = Some n /\ n <> 0 /\ truthy_dict arg = false /\
                spec = [(LINUX RemoteAccount, n)]).
Proof.
  unfold setup_node_spec. intros H.
  destruct arg as [[|kv d]|].
  - right. destruct num_nodes as [n|]; simpl in H; [|discriminate].
    destruct (n =? 0) eqn:Hn; simpl in H; [discriminate|].
    exists n. apply Z.eqb_neq in Hn. inversion H. auto.
  - left. replace (truthy_dict (Some (kv :: d))) with true in H by reflexivity.
    rewrite andb_false_r in H.
    destruct (check_os_types RemoteAccount (kv :: d)) as [[]|e] eqn:Hc; [|discriminate].
    inversion H; subst spec. exists (kv :: d).
    repeat split; [discriminate|].
    apply check_os_types_ok, Hc.
  - right. destruct num_nodes as [n|]; simpl in H; [|discriminate].
    destruct (n =? 0) eqn:Hn; simpl in H; [discriminate|].
    exists n. apply Z.eqb_neq in Hn. inversion H. auto.
Qed.

(** C6. When a mapping is supplied, a key outside the supported-OS set,
    at whatever position of the mapping, makes [setup_node_spec] raise the
    exception of its handler; the message of that exception contains the
    repr of the offending key (within the dump of the mapping) and the
    printed supported-OS set. *)
Theorem setup_node_spec_rejects_unsupported_key
    (num_nodes : option Z) (d : NodeSpec) (os_type : string) :
  In os_type (map fst d) ->
  in_strs os_type (SUPPORTED_OS_TYPES RemoteAccount) = false ->
  setup_node_spec RemoteAccount (repr_str pr) num_nodes (Some d)
    = Raise (Exception (unsupported_msg RemoteAccount (repr_str pr) d))
  /\ occurs_in (repr_str pr os_type) (unsupported_msg RemoteAccount (repr_str pr) d)
  /\ occurs_in (str_supported RemoteAccount (repr_str pr))
               (unsupported_msg RemoteAccount (repr_str pr) d).
Proof.
  intros Hin Hk. split; [|split].
  - destruct d as [|kv d]; [contradiction|].
    unfold setup_node_spec.
    replace (truthy_dict (Some (kv :: d))) with true by reflexivity.
    rewrite andb_false_r.
    destruct (check_os_types_raises (kv :: d) os_type Hin Hk) as (e & ->).
    reflexivity.
  - apply unsupported_msg_lists_key, Hin.
  - apply unsupported_msg_lists_supported.
Qed.


(** ** Node lookup *)

Lemma len_app {A} (l1 l2 : list A) : len (l1 ++ l2) = len l1 + len l2.
Proof.
  unfold len. rewrite length_app. lia.
Qed.

Lemma len_cons {A} (x : A) (l : list A) : len (x :: l) = len l + 1.
Proof.
  unfold len. cbn [List.length]. rewrite Nat2Z.inj_succ. lia.
Qed.

Lemma len_nonneg {A} (l : list A) : 0 <= len l.
Proof.
  unfold len. lia.
Qed.

Lemma py_getitem_middle {A} (pre post : list A) (x : A) :
  py_getitem (pre ++ x :: post) (len pre) = Ok x.
Proof.
  unfold py_getitem. pose proof (len_nonneg pre) as Hpre.
  destruct (len pre <? 0) eqn:Hneg; [apply Z.ltb_lt in Hneg; lia|].
  rewrite Hneg. simpl.
  destruct (len (pre ++ x :: post) <=? len pre) eqn:Hle.
  - apply Z.leb_le in Hle. rewrite len_app, len_cons in Hle.
    pose proof (len_nonneg post). lia.
  - unfold len. rewrite Nat2Z.id, nth_error_app2, Nat.sub_diag by lia. reflexivity.
Qed.

Lemma idx_loop_missing (s : Service) (rest : list Node) (from : Z) (node : Node) :
  (forall i n, In (i, n) (enumerate rest from) ->
               exists m, get_node s i = Ok m /\ m <> node) ->
  idx_loop s (enumerate rest from) node = Ok (-1).
Proof.
  revert from. induction rest as [|x rest IH]; intros from H; simpl; [reflexivity|].
  destruct (H from x (or_introl eq_refl)) as (m & -> & Hm).
  apply Nat.eqb_neq in Hm. rewrite Hm.
  apply IH. intros i n Hin. apply (H i n). now right.
Qed.

Lemma enumerate_get_node (s : Service) (pre rest : list Node) (i : Z) (n : Node) :
  nodes s = (pre ++ rest)%list ->
  In (i, n) (enumerate rest (len pre + 1)) ->
  get_node s i = Ok n.
Proof.
  revert pre. induction rest as [|x rest IH]; intros pre Hs Hin; [contradiction|].
  destruct Hin as [Heq | Hin].
  - inversion Heq; subst i n. unfold get_node. rewrite Hs.
    replace (len pre + 1 - 1) with (len pre) by lia. apply py_getitem_middle.
  - apply (IH (pre ++ [x])%list).
    + now rewrite <- app_assoc.
    + rewrite len_app. exact Hin.
Qed.

Lemma enumerate_snd {A} (l : list A) (from i : Z) (x : A) :
  In (i, x) (enumerate l from) -> In x l.
Proof.
  revert from. induction l as [|y l IH]; intros from Hin; [contradiction|].
  destruct Hin as [Heq | Hin]; [inversion Heq; now left | right; eauto].
Qed.

Lemma idx_loop_found (s : Service) (node : Node) (p q pre : list Node) :
  nodes s = (pre ++ p ++ node :: q)%list ->
  ~ In node p ->
  idx_loop s (enumerate (p ++ node :: q) (len pre + 1)) node
    = Ok (len pre + len p + 1).
Proof.
  revert pre. induction p as [|x p IH]; intros pre Hs Hnot.
  - simpl. unfold get_node. rewrite Hs.
    replace (len pre + 1 - 1) with (len pre) by lia.
    simpl app. rewrite py_getitem_middle, Nat.eqb_refl.
    f_equal. change (len (@nil Node)) with 0. lia.
  - simpl. unfold get_node. rewrite Hs.
    replace (len pre + 1 - 1) with (len pre) by lia.
    simpl app. rewrite py_getitem_middle.
    assert (Hx : x <> node) by (intros ->; apply Hnot; now left).
    apply Nat.eqb_neq in Hx. rewrite Hx.
    specialize (IH (pre ++ [x])%list). rewrite len_app in IH.
    replace (len [x]) with 1 in IH by reflexivity.
    rewrite IH.
    + f_equal. rewrite len_cons. lia.
    + rewrite Hs, <- app_assoc. reflexivity.
    + intros Hin. apply Hnot. now right.
Qed.

Lemma in_split_first (x : Node) (l : list Node) :
  In x l -> exists p q, l = (p ++ x :: q)%list /\ ~ In x p.
Proof.
  induction l as [|y l IH]; intros Hin; [contradiction|].
  destruct (Nat.eq_dec y x) as [-> | Hne].
  - exists [], l. split; [reflexivity | intros []].
  - destruct Hin as [Heq | Hin]; [contradiction|].
    destruct (IH Hin) as (p & q & -> & Hnot).
    exists (y :: p), q. split; [reflexivity|].
    intros [Heq | Hin']; [contradiction | now apply Hnot].
Qed.

Lemma idx_missing (s : Service) (node : Node) :
  ~ In node (nodes s) -> idx s node = Ok (-1).
Proof.
  intros Hnot. unfold idx. apply idx_loop_missing.
  intros i n Hin. exists n. split.
  - apply (enumerate_get_node s [] (nodes s)); [reflexivity | exact Hin].
  - intros ->. apply Hnot. eapply enumerate_snd, Hin.
Qed.

Lemma idx_first (s : Service) (node : Node) (pre post : list Node) :
  nodes s = (pre ++ node :: post)%list ->
  ~ In node pre ->
  idx s node = Ok (len pre + 1).
Proof.
  intros Hs Hnot. unfold idx. rewrite Hs.
  pose proof (idx_loop_found s node pre post [] Hs Hnot) as H.
  change (len (@nil Node)) with 0 in H. simpl in H. exact H.
Qed.

(** [idx] never raises. *)
Lemma idx_total (s : Service) (node : Node) : exists i, idx s node = Ok i.
Proof.
  destruct (in_dec Nat.eq_dec node (nodes s)) as [Hin | Hnot].
  - destruct (in_split_first node (nodes s) Hin) as (p & q & Hs & Hp).
    eexists. apply (idx_first s node p q Hs Hp).
  - exists (-1). now apply idx_missing.
Qed.

(** C10. For a node held by the instance, [idx] is the 1-based position
    of its first occurrence in [nodes] and [get_node] at that index
    returns the node; for a node that is not held, [idx] is -1. *)
Theorem idx_get_node_round_trip (s : Service) (node : Node) :
  (forall pre post,
      nodes s = (pre ++ node :: post)%list ->
      ~ In node pre ->
      idx s node = Ok (len pre + 1) /\ get_node s (len pre + 1) = Ok node)
  /\ (~ In node (nodes s) -> idx s node = Ok (-1)).
Proof.
  split.
  - intros pre post Hs Hnot. split; [now apply (idx_first s node pre post)|].
    unfold get_node. rewrite Hs.
    replace (len pre + 1 - 1) with (len pre) by lia.
    apply py_getitem_middle.
  - apply idx_missing.
Qed.

(** ** Order among the registered services *)

Lemma index_from_first (x : Z) (l1 l2 : list Z) (from : Z) :
  ~ In x l1 ->
  index_from x (l1 ++ x :: l2) from = Some (from + len l1).
Proof.
  revert from. induction l1 as [|y l1 IH]; intros from Hnot; simpl.
  - rewrite Z.eqb_refl. f_equal. change (len (@nil Z)) with 0. lia.
  - destruct (y =? x) eqn:Hy.
    + apply Z.eqb_eq in Hy. exfalso. apply Hnot. now left.
    + rewrite IH by (intros Hin; apply Hnot; now right).
      f_equal. rewrite len_cons. lia.
Qed.

Lemma registered_middle (s : Service) (pre post : list Handle) :
  registered s (pre ++ handle_of s :: post) = true.
Proof.
  unfold registered. rewrite existsb_app. simpl.
  rewrite Z.eqb_refl. simpl. apply orb_true_r.
Qed.

Lemma order_is_position (s : Service) (e : Env World) (pre post : list Handle) :
  context_services e = Some (pre ++ handle_of s :: post)%list ->
  (forall h, In h pre -> h_id h <> self_id s) ->
  _order s e = Ok (len (filter (fun x => String.eqb (h_type x) (cls_name s)) pre)).
Proof.
  intros Hsvc Hfresh. unfold _order. rewrite Hsvc.
  rewrite registered_middle. simpl negb. rewrite andb_false_l.
  rewrite filter_app. simpl filter. rewrite String.eqb_refl.
  rewrite map_app. simpl map. unfold list_index.
  rewrite index_from_first.
  - f_equal. unfold len. rewrite length_map. lia.
  - intros Hin. apply in_map_iff in Hin. destruct Hin as (h & Hid & Hin).
    apply filter_In in Hin. destruct Hin as [Hin _].
    now apply (Hfresh h Hin).
Qed.

Lemma index_from_In (x : Z) (l : list Z) (from : Z) :
  In x l -> exists i, index_from x l from = Some i.
Proof.
  revert from. induction l as [|y l IH]; intros from Hin; [contradiction|].
  simpl. destruct (y =? x) eqn:Hy; [eauto|].
  destruct Hin as [-> | Hin]; [rewrite Z.eqb_refl in Hy; discriminate|].
  now apply IH.
Qed.

(** C2. The order of a registered instance is the number of registry
    entries of its own type that stand before it: its zero-based
    position among the entries of that type, in registry order. *)
Theorem order_is_position_among_same_type
    (s : Service) (e : Env World) (pre post : list Handle) :
  context_services e = Some (pre ++ handle_of s :: post)%list ->
  (forall h, In h pre -> h_id h <> self_id s) ->
  _order s e = Ok (len (filter (fun x => String.eqb (h_type x) (cls_name s)) pre)).
Proof.
  exact (order_is_position s e pre post).
Qed.


(** ** The monad and the logger calls *)

Lemma bind_ok {A B} (m : M A) (k : A -> M B) (st st1 : State World) (a : A) :
  m st = (Ok a, st1) -> bind m k st = k a st1.
Proof.
  intros H. unfold bind. now rewrite H.
Qed.

Lemma bind_raise {A B} (m : M A) (k : A -> M B) (st st1 : State World) (e : exn) :
  m st = (Raise e, st1) -> bind m k st = (Raise e, st1).
Proof.
  intros H. unfold bind. now rewrite H.
Qed.

Lemma order_frame (s : Service) (e e' : Env World) :
  context_services e' = context_services e -> _order s e' = _order s e.
Proof.
  intros H. unfold _order. now rewrite H.
Qed.

Lemma identified_frame (s : Service) (e e' : Env World) :
  context_services e' = context_services e -> identified s e -> identified s e'.
Proof.
  intros H (o & Ho). exists o. now rewrite (order_frame s e e' H).
Qed.

Lemma who_am_i_identified (node : option Node) (s : Service) (e : Env World) :
  identified s e -> exists m, who_am_i node s e = Ok m.
Proof.
  intros (o & Ho). unfold who_am_i, service_id. rewrite Ho.
  destruct node as [n|]; [|eauto].
  destruct (idx_total s n) as (i & ->). eauto.
Qed.

Lemma logger_call_identified (node : option Node) (s : Service) (e : Env World) :
  identified s e ->
  logger_call (who_am_i node) {| self := s; env := e |}
    = (Ok tt, {| self := s; env := e |}).
Proof.
  intros H. destruct (who_am_i_identified node _ _ H) as (m & Hm).
  unfold logger_call, bind, eval. simpl. now rewrite Hm.
Qed.

Lemma for_each_invariant {A} (I : State World -> Prop) (xs : list A) (body : A -> M unit) :
  (forall x st, I st -> I (snd (body x st))) ->
  forall st, I st -> I (snd (for_each xs body st)).
Proof.
  intros Hbody. induction xs as [|x xs IH]; intros st HI; simpl; [exact HI|].
  unfold bind. specialize (Hbody x st HI).
  destruct (body x st) as [[[]|e] st1]; simpl in *; [now apply IH | exact Hbody].
Qed.

(** ** Allocation *)

Lemma allocated_nonempty (s : Service) : nodes s <> [] -> allocated s = true.
Proof.
  unfold allocated. destruct (nodes s) as [|n l]; [congruence|].
  intros _. rewrite len_cons. pose proof (len_nonneg l). apply Z.ltb_lt. lia.
Qed.

Lemma allocated_empty (s : Service) : nodes s = [] -> allocated s = false.
Proof.
  unfold allocated. now intros ->.
Qed.

Lemma allocate_nodes_allocated (st : State World) :
  allocated (self st) = true ->
  allocate_nodes st
    = (Raise (Exception
                "Requesting nodes for a service that has already been allocated nodes."),
       st).
Proof.
  intros H. unfold allocate_nodes, bind, get_self. now rewrite H.
Qed.

(** C7. On an instance that holds nodes, [allocate_nodes] raises and
    leaves the whole state as it was: the node sequence is unchanged and
    no call reaches the cluster. *)
Theorem allocate_nodes_twice (st : State World) :
  nodes (self st) <> [] ->
  allocate_nodes st
    = (Raise (Exception
                "Requesting nodes for a service that has already been allocated nodes."),
       st)
  /\ nodes (self (snd (allocate_nodes st))) = nodes (self st)
  /\ calls (env (snd (allocate_nodes st))) = calls (env st).
Proof.
  intros H.
  rewrite (allocate_nodes_allocated st (allocated_nonempty _ H)).
  repeat split.
Qed.

(** The loop over the allocated nodes, when the nodes [pre] are clean and
    the next one is dirty: it stops there, the loggers of [pre] bound. *)
Lemma bind_loggers_dirty (s : Service) (w : World) (L : Logger)
      (S : option (list Handle)) (tr : list Event)
      (pre post : list Node) (node : Node) :
  forall f : Node -> option Logger,
    NoDup pre ->
    (forall m, In m pre -> f m = None) ->
    f node <> None ->
    exists f',
      for_each (pre ++ node :: post) bind_logger
               {| self := s; env := Build_Env w f L S tr |}
        = (Raise (RuntimeError (dirty_node_msg s node)),
           {| self := s; env := Build_Env w f' L S tr |})
      /\ (forall m, In m pre -> f' m = Some L)
      /\ (forall m, ~ In m pre -> f' m = f m).
Proof.
  induction pre as [|x pre IH]; intros f Hnd Hclean Hdirty.
  - exists f. split; [|split; [intros m [] | reflexivity]].
    simpl. unfold bind, bind_logger, get_self, get_env, bind, raise. simpl.
    destruct (f node) as [l|]; [reflexivity | congruence].
  - inversion Hnd as [|x' pre' Hx Hnd']; subst.
    set (f1 := fun n => if Nat.eqb n x then Some L else f n).
    assert (Hne : node <> x).
    { intros ->. apply Hdirty, Hclean. now left. }
    destruct (IH f1 Hnd') as (f' & Hrun & Hbound & Hsame).
    + intros m Hm. unfold f1.
      destruct (Nat.eqb m x) eqn:Hmx.
      * apply Nat.eqb_eq in Hmx. subst m. contradiction.
      * apply Hclean. now right.
    + unfold f1. apply Nat.eqb_neq in Hne. now rewrite Hne.
    + exists f'. split; [|split].
      * simpl. unfold bind at 1. unfold bind_logger at 1.
        unfold bind, get_self, get_env, modify_env. simpl.
        rewrite (Hclean x (or_introl eq_refl)). simpl.
        exact Hrun.
      * intros m [<- | Hm]; [|now apply Hbound].
        destruct (in_dec Nat.eq_dec x pre) as [Hin | Hnot]; [contradiction|].
        rewrite (Hsame x Hnot). unfold f1. now rewrite Nat.eqb_refl.
      * intros m Hm. rewrite Hsame by (intros Hin; apply Hm; now right).
        unfold f1. destruct (Nat.eqb m x) eqn:Hmx; [|reflexivity].
        apply Nat.eqb_eq in Hmx. subst m. exfalso. apply Hm. now left.
Qed.


(** C9. When the cluster returns a sequence whose first dirty node comes
    after the clean nodes [pre], [allocate_nodes] raises the dirty-node
    error with [nodes] already set to the whole sequence and the loggers
    of [pre] already bound; the instance then counts as allocated and a
    second [allocate_nodes] raises the already-allocated error. *)
Theorem allocate_nodes_dirty_node_not_atomic
    (st : State World) (pre post : list Node) (node : Node) (w' : World) :
  nodes (self st) = [] ->
  cluster_alloc ext (node_spec (self st)) (world (env st))
    = (Ok (pre ++ node :: post)%list, w') ->
  NoDup pre ->
  (forall m, In m pre -> account_logger (env st) m = None) ->
  account_logger (env st) node <> None ->
  let st' := snd (allocate_nodes st) in
  fst (allocate_nodes st) = Raise (RuntimeError (dirty_node_msg (self st) node))
  /\ nodes (self st') = (pre ++ node :: post)%list
  /\ (forall m, In m pre ->
                account_logger (env st') m = Some (context_logger (env st)))
  /\ (forall m, ~ In m pre ->
                account_logger (env st') m = account_logger (env st) m)
  /\ allocated (self st') = true
  /\ allocate_nodes st'
     = (Raise (Exception
                 "Requesting nodes for a service that has already been allocated nodes."),
        st').
Proof.
  destruct st as [s [w f L S tr]]. simpl.
  intros Hnodes Halloc Hnd Hclean Hdirty.
  destruct (bind_loggers_dirty (set_nodes (pre ++ node :: post) s) w' L S
              (tr ++ [Call_cluster_alloc (node_spec s)]) pre post node
              f Hnd Hclean Hdirty) as (f' & Hrun & Hbound & Hsame).
  assert (Hst : allocate_nodes {| self := s; env := Build_Env w f L S tr |}
                = (Raise (RuntimeError (dirty_node_msg s node)),
                   {| self := set_nodes (pre ++ node :: post) s;
                      env := Build_Env w' f' L S
                               (tr ++ [Call_cluster_alloc (node_spec s)]) |})).
  { unfold allocate_nodes. unfold bind at 1. unfold get_self at 1. simpl.
    rewrite (allocated_empty s Hnodes).
    unfold bind at 1. unfold try_except, call_cluster_alloc, bind, modify_env, external.
    simpl. rewrite Halloc. simpl.
    unfold set_world, log_call. simpl.
    rewrite Hrun. reflexivity. }
  rewrite Hst. simpl.
  repeat split; try assumption.
  - apply allocated_nonempty. simpl. now destruct pre.
  - apply allocate_nodes_allocated, allocated_nonempty. simpl. now destruct pre.
Qed.


(** ** Release *)

(** The loop of [free] when the cluster takes every node back. *)
Lemma free_loop (s : Service) (L : Logger) (S : option (list Handle))
      (ns : list Node) :
  (forall node w, In node ns -> fst (cluster_free ext node w) = Ok tt) ->
  forall (w : World) (f : Node -> option Logger) (tr : list Event),
    identified s (Build_Env w f L S tr) ->
    exists w' f',
      for_each ns
        (fun node =>
           logger_call (who_am_i (Some node)) ;;;
           modify_env (set_account_logger node None) ;;;
           call_cluster_free node)
        {| self := s; env := Build_Env w f L S tr |}
      = (Ok tt,
         {| self := s;
            env := Build_Env w' f' L S (tr ++ map Call_cluster_free ns) |})
      /\ (forall m, In m ns -> f' m = None)
      /\ (forall m, ~ In m ns -> f' m = f m).
Proof.
  intros Hfree. induction ns as [|x ns IH]; intros w f tr Hid.
  - exists w, f. simpl. rewrite app_nil_r. repeat split. intros m [].
  - set (f1 := fun n => if Nat.eqb n x then None else f n).
    destruct (cluster_free ext x w) as [r w1] eqn:Hx.
    pose proof (Hfree x w (or_introl eq_refl)) as Hr. rewrite Hx in Hr.
    simpl in Hr. subst r.
    destruct (IH (fun node w0 Hin => Hfree node w0 (or_intror Hin))
                 w1 f1 (tr ++ [Call_cluster_free x])%list)
      as (w' & f' & Hrun & Hnone & Hsame).
    { eapply identified_frame; [|exact Hid]. reflexivity. }
    exists w', f'. split; [|split].
    + replace (tr ++ map Call_cluster_free (x :: ns))%list
        with ((tr ++ [Call_cluster_free x]) ++ map Call_cluster_free ns)%list
        by (rewrite <- app_assoc; reflexivity).
      simpl for_each. unfold bind at 1. unfold bind at 1.
      rewrite (logger_call_identified (Some x) _ _ Hid).
      unfold bind at 1. unfold modify_env at 1.
      unfold call_cluster_free. unfold bind at 1. unfold modify_env at 1.
      unfold external. cbn [world env self set_account_logger log_call].
      rewrite Hx. exact Hrun.
    + intros m [<- | Hm]; [|now apply Hnone].
      destruct (in_dec Nat.eq_dec x ns) as [Hin | Hnot]; [now apply Hnone|].
      rewrite (Hsame x Hnot). unfold f1. now rewrite Nat.eqb_refl.
    + intros m Hm. rewrite Hsame by (intros Hin; apply Hm; now right).
      unfold f1. destruct (Nat.eqb m x) eqn:Hmx; [|reflexivity].
      apply Nat.eqb_eq in Hmx. subst m. exfalso. apply Hm. now left.
Qed.

Lemma free_loop_world (s : Service) (L : Logger) (S : option (list Handle))
      (ns : list Node) :
  (forall node w, In node ns -> fst (cluster_free ext node w) = Ok tt) ->
  forall (w : World) (f : Node -> option Logger) (tr : list Event),
    identified s (Build_Env w f L S tr) ->
    world (env (snd (for_each ns
                       (fun node =>
                          logger_call (who_am_i (Some node)) ;;;
                          modify_env (set_account_logger node None) ;;;
                          call_cluster_free node)
                       {| self := s; env := Build_Env w f L S tr |})))
    = returned_to_cluster ns w.
Proof.
  intros Hfree. induction ns as [|x ns IH]; intros w f tr Hid; [reflexivity|].
  destruct (cluster_free ext x w) as [r w1] eqn:Hx.
  pose proof (Hfree x w (or_introl eq_refl)) as Hr. rewrite Hx in Hr.
  simpl in Hr. subst r.
  simpl for_each. unfold bind at 1. unfold bind at 1.
  rewrite (logger_call_identified (Some x) _ _ Hid).
  unfold bind at 1. unfold modify_env at 1.
  unfold call_cluster_free. unfold bind at 1. unfold modify_env at 1.
  unfold external. cbn [world env self set_account_logger log_call].
  rewrite Hx.
  unfold returned_to_cluster. cbn [fold_left]. rewrite Hx. cbn [snd].
  apply (IH (fun node w0 Hin => Hfree node w0 (or_intror Hin))).
  eapply identified_frame; [|exact Hid]. reflexivity.
Qed.

Lemma free_empty (st : State World) :
  nodes (self st) = [] -> free st = (Ok tt, st).
Proof.
  destruct st as [s e]. simpl. intros Hs.
  unfold free, bind, get_self, modify_self. simpl. rewrite Hs. simpl.
  destruct s; simpl in *. now subst.
Qed.

(** C8. [free] on an instance with no nodes changes nothing. Otherwise,
    with a cluster that takes the nodes back, it clears the logger slot
    of every held node and of no other, returns every held node to the
    cluster: the outside world it leaves is the one that [cluster.free],
    called once per held node in order, has made; it empties [nodes],
    and leaves [_nodes_formerly_allocated], hence the ["nodes"] entry of
    the snapshot, as it was. *)
Theorem free_releases_nodes (st : State World) :
  (nodes (self st) = [] -> free st = (Ok tt, st))
  /\ (identified (self st) (env st) ->
      (forall node w, In node (nodes (self st)) ->
                      fst (cluster_free ext node w) = Ok tt) ->
      let st' := snd (free st) in
      fst (free st) = Ok tt
      /\ nodes (self st') = []
      /\ _nodes_formerly_allocated (self st') = _nodes_formerly_allocated (self st)
      /\ to_json_nodes (self st') = to_json_nodes (self st)
      /\ (forall m, In m (nodes (self st)) -> account_logger (env st') m = None)
      /\ (forall m, ~ In m (nodes (self st)) ->
                    account_logger (env st') m = account_logger (env st) m)
      /\ calls (env st')
         = (calls (env st) ++ map Call_cluster_free (nodes (self st)))%list
      /\ world (env st') = returned_to_cluster (nodes (self st)) (world (env st))).
Proof.
  split; [apply free_empty|].
  destruct st as [s [w f L S tr]]. simpl. intros Hid Hfree.
  destruct (free_loop s L S (nodes s) Hfree w f tr Hid)
    as (w' & f' & Hrun & Hnone & Hsame).
  pose proof (free_loop_world s L S (nodes s) Hfree w f tr Hid) as Hworld.
  rewrite Hrun in Hworld. cbn [snd env world] in Hworld.
  assert (Hst : free {| self := s; env := Build_Env w f L S tr |}
                = (Ok tt,
                   {| self := set_nodes [] s;
                      env := Build_Env w' f' L S
                               (tr ++ map Call_cluster_free (nodes s)) |})).
  { unfold free. unfold bind at 1. unfold get_self at 1.
    cbn [self]. unfold bind at 1. rewrite Hrun. reflexivity. }
  rewrite Hst. simpl. repeat split; assumption.
Qed.


(** ** Start *)

Lemma identified_self (s s1 : Service) (e : Env World) :
  cls_name s1 = cls_name s ->
  self_id s1 = self_id s ->
  _initialized s1 = _initialized s ->
  identified s e -> identified s1 e.
Proof.
  intros Hc Hi Hb (o & Ho). exists o.
  unfold _order, registered in *. now rewrite Hc, Hi, Hb.
Qed.

Lemma runs_pre_cleanup_calls (s : Service) (ns : list Node) (w w' : World)
      (tr : list Event) :
  runs_pre_cleanup s ns w tr w' -> tr = pre_cleanup_calls ns.
Proof.
  induction 1; simpl; [reflexivity | now subst].
Qed.

Lemma pre_cleanup_loop (s : Service) (f : Node -> option Logger) (L : Logger)
      (S : option (list Handle)) (ns : list Node) :
  forall (w : World) (tr : list Event),
  exists w' tr',
    runs_pre_cleanup s ns w tr' w'
    /\ for_each ns
         (fun node =>
            try_pass (call_stop_node node) ;;;
            try_pass (call_clean_node node))
         {| self := s; env := Build_Env w f L S tr |}
       = (Ok tt, {| self := s; env := Build_Env w' f L S (tr ++ tr') |}).
Proof.
  induction ns as [|x ns IH]; intros w tr.
  - exists w, []. split; [constructor | simpl; now rewrite app_nil_r].
  - destruct (stop_node hooks s x w) as [r1 w1] eqn:Hstop.
    destruct (clean_node hooks s x w1) as [r2 w2] eqn:Hclean.
    destruct (IH w2 ((tr ++ [Call_stop_node x]) ++ [Call_clean_node x])%list)
      as (w' & tr' & Hspec & Hrun).
    exists w', (Call_stop_node x :: Call_clean_node x :: tr'). split.
    + econstructor; eassumption.
    + replace (tr ++ Call_stop_node x :: Call_clean_node x :: tr')%list
        with (((tr ++ [Call_stop_node x]) ++ [Call_clean_node x]) ++ tr')%list
        by (rewrite <- !app_assoc; reflexivity).
      simpl for_each. unfold bind at 1. unfold bind at 1.
      unfold try_pass at 1. unfold call_stop_node, bind, get_self, modify_env.
      unfold external at 1. cbn [self env world log_call].
      rewrite Hstop.
      unfold try_pass at 1. unfold call_clean_node, bind, get_self, modify_env.
      unfold external at 1. cbn [self env world log_call set_world].
      rewrite Hclean. exact Hrun.
Qed.

Lemma start_nodes_loop (s : Service) (f : Node -> option Logger) (L : Logger)
      (S : option (list Handle)) (ns : list Node) :
  forall (w : World) (tr : list Event),
    identified s (Build_Env w f L S tr) ->
    exists w' tr' out,
      runs_start_nodes s ns w out tr' w'
      /\ for_each ns
           (fun node =>
              logger_call (who_am_i (Some node)) ;;;
              call_start_node node)
           {| self := s; env := Build_Env w f L S tr |}
         = (match out with
            | None => Ok tt
            | Some e => Raise e
            end,
            {| self := s; env := Build_Env w' f L S (tr ++ tr') |}).
Proof.
  induction ns as [|x ns IH]; intros w tr Hid.
  - exists w, [], None. split; [constructor | simpl; now rewrite app_nil_r].
  - destruct (start_node hooks s x w) as [[[]|e] w1] eqn:Hstart.
    + destruct (IH w1 (tr ++ [Call_start_node x])%list)
        as (w' & tr' & out & Hspec & Hrun).
      { eapply identified_frame; [|exact Hid]. reflexivity. }
      exists w', (Call_start_node x :: tr'), out. split.
      * econstructor; eassumption.
      * replace (tr ++ Call_start_node x :: tr')%list
          with ((tr ++ [Call_start_node x]) ++ tr')%list
          by (rewrite <- app_assoc; reflexivity).
        simpl for_each. unfold bind at 1. unfold bind at 1.
        rewrite (logger_call_identified (Some x) _ _ Hid).
        unfold call_start_node, bind, get_self, modify_env.
        unfold external at 1. cbn [self env world log_call set_world].
        rewrite Hstart. exact Hrun.
    + exists w1, [Call_start_node x], (Some e). split.
      * now constructor.
      * simpl for_each. unfold bind at 1. unfold bind at 1.
        rewrite (logger_call_identified (Some x) _ _ Hid).
        unfold call_start_node, bind, get_self, modify_env.
        unfold external at 1. cbn [self env world log_call set_world].
        rewrite Hstart. reflexivity.
Qed.


Lemma set_start_time_once_run (s : Service) (w : World)
      (f : Node -> option Logger) (L : Logger) (S : option (list Handle))
      (tr : list Event) :
  set_start_time_once {| self := s; env := Build_Env w f L S tr |}
  = (Ok tt, {| self := fst (start_time_step s w);
               env := Build_Env (snd (start_time_step s w)) f L S tr |}).
Proof.
  cbv [set_start_time_once start_time_step bind get_self time external
       modify_self ret self env world].
  destruct (_start_time s <? 0); [|reflexivity].
  destruct (time_time ext w) as [t w']. reflexivity.
Qed.

Lemma set_start_duration_once_run (s : Service) (w : World)
      (f : Node -> option Logger) (L : Logger) (S : option (list Handle))
      (tr : list Event) :
  set_start_duration_once {| self := s; env := Build_Env w f L S tr |}
  = (Ok tt, {| self := fst (start_duration_step s w);
               env := Build_Env (snd (start_duration_step s w)) f L S tr |}).
Proof.
  cbv [set_start_duration_once start_duration_step bind get_self time external
       modify_self ret self env world].
  destruct (_start_duration_seconds s <? 0); [|reflexivity].
  destruct (time_time ext w) as [t w']. reflexivity.
Qed.

Lemma start_time_step_frame (s : Service) (w : World) :
  let s1 := fst (start_time_step s w) in
  cls_name s1 = cls_name s /\ self_id s1 = self_id s
  /\ _initialized s1 = _initialized s /\ nodes s1 = nodes s
  /\ _start_duration_seconds s1 = _start_duration_seconds s.
Proof.
  unfold start_time_step. destruct (_start_time s <? 0); [|simpl; auto].
  destruct (time_time ext w). simpl. auto.
Qed.

(** [start] as a whole: the start time, the pre-cleanup pass, the start
    phase and, when that phase completes, the start duration. *)
Lemma start_run (s : Service) (w : World) (f : Node -> option Logger)
      (L : Logger) (S : option (list Handle)) (tr : list Event) :
  identified s (Build_Env w f L S tr) ->
  exists w1 w2 tr1 tr2 out,
    runs_pre_cleanup (fst (start_time_step s w)) (nodes s)
                     (snd (start_time_step s w)) tr1 w1
    /\ runs_start_nodes (fst (start_time_step s w)) (nodes s) w1 out tr2 w2
    /\ start {| self := s; env := Build_Env w f L S tr |}
       = match out with
         | Some e =>
             (Raise e,
              {| self := fst (start_time_step s w);
                 env := Build_Env w2 f L S (tr ++ tr1 ++ tr2) |})
         | None =>
             (Ok tt,
              {| self := fst (start_duration_step (fst (start_time_step s w)) w2);
                 env := Build_Env
                          (snd (start_duration_step (fst (start_time_step s w)) w2))
                          f L S (tr ++ tr1 ++ tr2) |})
         end.
Proof.
  intros Hid.
  destruct (start_time_step_frame s w) as (Hc & Hi & Hb & Hn & _).
  set (s1 := fst (start_time_step s w)) in *.
  set (w0 := snd (start_time_step s w)).
  assert (Hid1 : identified s1 (Build_Env w0 f L S tr)).
  { apply (identified_self s s1); try assumption.
    all: eapply identified_frame; [|exact Hid]; reflexivity. }
  destruct (pre_cleanup_loop s1 f L S (nodes s) w0 tr) as (w1 & tr1 & Hpre & Hrun1).
  destruct (start_nodes_loop s1 f L S (nodes s) w1 (tr ++ tr1))
    as (w2 & tr2 & out & Hstart & Hrun2).
  { eapply identified_frame; [|exact Hid1]. reflexivity. }
  exists w1, w2, tr1, tr2, out. split; [exact Hpre|]. split; [exact Hstart|].
  unfold start.
  rewrite (bind_ok _ _ _ _ _ (logger_call_identified None _ _ Hid)).
  rewrite (bind_ok _ _ _ _ _ (set_start_time_once_run s w f L S tr)).
  fold s1 w0.
  rewrite (bind_ok _ _ _ _ _ (logger_call_identified None _ _ Hid1)).
  assert (Hp : pre_cleanup {| self := s1; env := Build_Env w0 f L S tr |}
               = (Ok tt, {| self := s1; env := Build_Env w1 f L S (tr ++ tr1) |})).
  { unfold pre_cleanup. unfold bind at 1. unfold get_self at 1. cbn [self].
    rewrite Hn. exact Hrun1. }
  rewrite (bind_ok _ _ _ _ _ Hp).
  assert (Hs : start_all_nodes {| self := s1; env := Build_Env w1 f L S (tr ++ tr1) |}
               = (match out with None => Ok tt | Some e => Raise e end,
                  {| self := s1;
                     env := Build_Env w2 f L S ((tr ++ tr1) ++ tr2) |})).
  { unfold start_all_nodes. unfold bind at 1. unfold get_self at 1. cbn [self].
    rewrite Hn. exact Hrun2. }
  rewrite <- app_assoc in Hs.
  destruct out as [e|].
  - now rewrite (bind_raise _ _ _ _ _ Hs).
  - rewrite (bind_ok _ _ _ _ _ Hs). apply set_start_duration_once_run.
Qed.


Lemma runs_start_nodes_calls (s : Service) (ns : list Node) (w w' : World)
      (out : option exn) (tr : list Event) :
  runs_start_nodes s ns w out tr w' ->
  match out with
  | None => tr = map Call_start_node ns
  | Some _ => exists pre node post,
      ns = (pre ++ node :: post)%list /\ tr = map Call_start_node (pre ++ [node])
  end.
Proof.
  induction 1 as [w | node rest w w1 w' out tr Hnode Hrest IH | node rest w w1 e Hnode].
  - reflexivity.
  - destruct out as [e|].
    + destruct IH as (pre & n & post & -> & ->).
      exists (node :: pre), n, post. split; reflexivity.
    + now subst.
  - exists [], node, rest. split; reflexivity.
Qed.

(** C4. In [start], the pre-cleanup pass calls [stop_node] then
    [clean_node] on every node whatever either of them raises, and the
    start phase always follows it; the start phase calls [start_node] on
    the nodes in order, and [start] raises exactly the exception of the
    first [start_node] that fails, without starting the nodes after it. *)
Theorem start_pre_cleanup_swallows_start_node_propagates (st : State World) :
  identified (self st) (env st) ->
  exists w1 w2 tr2 out,
    runs_pre_cleanup (fst (start_time_step (self st) (world (env st))))
                     (nodes (self st))
                     (snd (start_time_step (self st) (world (env st))))
                     (pre_cleanup_calls (nodes (self st))) w1
    /\ runs_start_nodes (fst (start_time_step (self st) (world (env st))))
                        (nodes (self st)) w1 out tr2 w2
    /\ calls (env (snd (start st)))
       = (calls (env st) ++ pre_cleanup_calls (nodes (self st)) ++ tr2)%list
    /\ fst (start st) = match out with
                        | Some e => Raise e
                        | None => Ok tt
                        end
    /\ match out with
       | None => tr2 = map Call_start_node (nodes (self st))
       | Some _ => exists pre node post,
           nodes (self st) = (pre ++ node :: post)%list
           /\ tr2 = map Call_start_node (pre ++ [node])
       end.
Proof.
  destruct st as [s [w f L S tr]]. cbn [self env world calls]. intros Hid.
  destruct (start_run s w f L S tr Hid) as (w1 & w2 & tr1 & tr2 & out & Hpre & Hstart & Hrun).
  pose proof (runs_pre_cleanup_calls _ _ _ _ _ Hpre) as Htr1. subst tr1.
  exists w1, w2, tr2, out.
  split; [exact Hpre|]. split; [exact Hstart|].
  rewrite Hrun. split; [|split].
  - destruct out; reflexivity.
  - destruct out; reflexivity.
  - apply (runs_start_nodes_calls _ _ _ _ _ _ Hstart).
Qed.

Lemma start_time_step_cases (s : Service) (w : World) :
  (_start_time s < 0
   /\ start_time_step s w
      = (set_start_time (fst (time_time ext w)) s, snd (time_time ext w)))
  \/ (0 <= _start_time s /\ start_time_step s w = (s, w)).
Proof.
  unfold start_time_step. destruct (_start_time s <? 0) eqn:H.
  - left. apply Z.ltb_lt in H. split; [exact H|].
    now destruct (time_time ext w).
  - right. apply Z.ltb_ge in H. now split.
Qed.

Lemma start_duration_step_cases (s : Service) (w : World) :
  (_start_duration_seconds s < 0
   /\ start_duration_step s w
      = (set_start_duration_seconds (fst (time_time ext w) - _start_time s) s,
         snd (time_time ext w)))
  \/ (0 <= _start_duration_seconds s /\ start_duration_step s w = (s, w)).
Proof.
  unfold start_duration_step. destruct (_start_duration_seconds s <? 0) eqn:H.
  - left. apply Z.ltb_lt in H. split; [exact H|].
    now destruct (time_time ext w).
  - right. apply Z.ltb_ge in H. now split.
Qed.

Section MonotoneClock.

(** The clock of the world is a wall clock [wall]: never negative (an
    epoch time), read by [time.time()], and never set back, neither
    by a reading nor by a hook. *)
Variable wall : World -> Z.
Hypothesis wall_nonneg : forall w, 0 <= wall w.
Hypothesis time_time_wall :
  forall w, wall w <= fst (time_time ext w) <= wall (snd (time_time ext w)).
Hypothesis start_node_wall :
  forall s node w, wall w <= wall (snd (start_node hooks s node w)).
Hypothesis stop_node_wall :
  forall s node w, wall w <= wall (snd (stop_node hooks s node w)).
Hypothesis clean_node_wall :
  forall s node w, wall w <= wall (snd (clean_node hooks s node w)).

Lemma runs_pre_cleanup_wall (s : Service) (ns : list Node) (w w' : World)
      (tr : list Event) :
  runs_pre_cleanup s ns w tr w' -> wall w <= wall w'.
Proof.
  induction 1 as [w | node rest w w1 w2 w' r1 r2 tr Hstop Hclean Hrest IH].
  - lia.
  - pose proof (stop_node_wall s node w) as H1. rewrite Hstop in H1.
    pose proof (clean_node_wall s node w1) as H2. rewrite Hclean in H2.
    simpl in *. lia.
Qed.

Lemma runs_start_nodes_wall (s : Service) (ns : list Node) (w w' : World)
      (out : option exn) (tr : list Event) :
  runs_start_nodes s ns w out tr w' -> wall w <= wall w'.
Proof.
  induction 1 as [w | node rest w w1 w' out tr Hnode Hrest IH
                 | node rest w w1 e Hnode].
  - lia.
  - pose proof (start_node_wall s node w) as H1. rewrite Hnode in H1.
    simpl in *. lia.
  - pose proof (start_node_wall s node w) as H1. rewrite Hnode in H1.
    simpl in *. lia.
Qed.

(** One call of [start], from any state: what it does to the start
    time and to the start duration. *)
Lemma start_times_step (st : State World) :
  identified (self st) (env st) ->
  let s := self st in
  let w := world (env st) in
  let r := fst (start st) in
  let s' := self (snd (start st)) in
  let w' := world (env (snd (start st))) in
  (_start_time s < 0 ->
   _start_time s' = fst (time_time ext w) /\ 0 <= _start_time s')
  /\ (0 <= _start_time s -> _start_time s' = _start_time s)
  /\ (_start_duration_seconds s < 0 -> r = Ok tt ->
      exists w1 w2 tr1 tr2,
        runs_pre_cleanup (fst (start_time_step s w)) (nodes s)
                         (snd (start_time_step s w)) tr1 w1
        /\ runs_start_nodes (fst (start_time_step s w)) (nodes s) w1 None tr2 w2
        /\ _start_duration_seconds s' = fst (time_time ext w2) - _start_time s'
        /\ w' = snd (time_time ext w2)
        /\ ((_start_time s < 0 \/ _start_time s <= wall w) ->
            0 <= _start_duration_seconds s'))
  /\ (r <> Ok tt -> _start_duration_seconds s' = _start_duration_seconds s)
  /\ (0 <= _start_duration_seconds s ->
      _start_duration_seconds s' = _start_duration_seconds s)
  /\ ((_start_time s < 0 \/ _start_time s <= wall w) ->
      _start_time s' <= wall w').
Proof.
  destruct st as [s [w f L S tr]]. cbn [self env world]. intros Hid.
  destruct (start_run s w f L S tr Hid)
    as (w1 & w2 & tr1 & tr2 & out & Hpre & Hstart & Hrun).
  rewrite Hrun. clear Hrun.
  pose proof (runs_pre_cleanup_wall _ _ _ _ _ Hpre) as Hprew.
  pose proof (runs_start_nodes_wall _ _ _ _ _ _ Hstart) as Hstartw.
  pose proof (time_time_wall w) as Hw. pose proof (wall_nonneg w) as Hw0.
  destruct (start_time_step_cases s w) as [[Hneg Hstep] | [Hpos Hstep]];
    rewrite Hstep in *; cbn [fst snd] in *.
  - (* the start time is set by this call *)
    set (t0 := fst (time_time ext w)) in *.
    destruct out as [e|]; cbn [fst snd self env world].
    + repeat split; intros; cbn in *; try lia; congruence.
    + pose proof (time_time_wall w2) as Hw2.
      destruct (start_duration_step_cases (set_start_time t0 s) w2)
        as [[Hdn Hds] | [Hdp Hds]];
        rewrite Hds; cbn [fst snd]; cbn in Hdn || cbn in Hdp.
      * split; [intros _; cbn; lia|]. split; [intros; lia|].
        split; [|repeat split; intros; cbn in *; try lia; congruence].
        intros _ _. exists w1, w2, tr1, tr2.
        split; [exact Hpre|]. split; [exact Hstart|].
        split; [reflexivity|]. split; [reflexivity|]. intros _. cbn. lia.
      * repeat split; intros; cbn in *; try lia; congruence.
  - (* the start time was set before *)
    destruct out as [e|]; cbn [fst snd self env world].
    + repeat split; intros; cbn in *; try lia; congruence.
    + pose proof (time_time_wall w2) as Hw2.
      destruct (start_duration_step_cases s w2) as [[Hdn Hds] | [Hdp Hds]];
        rewrite Hds; cbn [fst snd].
      * split; [intros; lia|]. split; [intros _; reflexivity|].
        split; [|repeat split; intros; cbn in *; try lia; congruence].
        intros _ _. exists w1, w2, tr1, tr2.
        split; [exact Hpre|]. split; [exact Hstart|].
        split; [reflexivity|]. split; [reflexivity|]. intros [H | H]; cbn; lia.
      * repeat split; intros; cbn in *; try lia; congruence.
Qed.

(** C3, as the code has it: with a clock that is never negative and is
    never set back. [start] sets the start time when it is unset
    (negative), to the clock reading taken on entry, which is not
    negative; it sets the start duration when that is unset and the
    call completes: to the clock reading taken after the pre-cleanup
    pass and the last [start_node] minus the start time, which is not
    negative; a call that fails leaves the start duration as it was; and
    a call never changes a start time or a start duration that is set.
    So each is set at most once, by the first call and by the first
    call that completes. *)
Theorem start_sets_time_and_duration_once (st : State World) :
  identified (self st) (env st) ->
  let s := self st in
  let w := world (env st) in
  let r := fst (start st) in
  let s' := self (snd (start st)) in
  let w' := world (env (snd (start st))) in
  (_start_time s < 0 ->
   _start_time s' = fst (time_time ext w) /\ 0 <= _start_time s')
  /\ (0 <= _start_time s -> _start_time s' = _start_time s)
  /\ (_start_duration_seconds s < 0 -> r = Ok tt ->
      exists w1 w2 tr1 tr2,
        runs_pre_cleanup (fst (start_time_step s w)) (nodes s)
                         (snd (start_time_step s w)) tr1 w1
        /\ runs_start_nodes (fst (start_time_step s w)) (nodes s) w1 None tr2 w2
        /\ _start_duration_seconds s' = fst (time_time ext w2) - _start_time s'
        /\ w' = snd (time_time ext w2)
        /\ ((_start_time s < 0 \/ _start_time s <= wall w) ->
            0 <= _start_duration_seconds s'))
  /\ (r <> Ok tt -> _start_duration_seconds s' = _start_duration_seconds s)
  /\ (0 <= _start_duration_seconds s ->
      _start_duration_seconds s' = _start_duration_seconds s)
  /\ ((_start_time s < 0 \/ _start_time s <= wall w) ->
      _start_time s' <= wall w').
Proof.
  exact (start_times_step st).
Qed.

(** [start] called twice on a fresh instance, with anything in between
    that leaves the fields of the instance alone: the second call
    changes neither the start time nor the start duration that the
    first, completed call has set. *)
Lemma start_twice (st st2 : State World) :
  identified (self st) (env st) ->
  _start_time (self st) = -1 ->
  _start_duration_seconds (self st) = -1 ->
  fst (start st) = Ok tt ->
  self st2 = self (snd (start st)) ->
  identified (self st2) (env st2) ->
  0 <= _start_time (self st2)
  /\ 0 <= _start_duration_seconds (self st2)
  /\ _start_time (self (snd (start st2))) = _start_time (self st2)
  /\ _start_duration_seconds (self (snd (start st2)))
     = _start_duration_seconds (self st2).
Proof.
  intros Hid Ht Hd Hok Hself Hid2.
  destruct (start_times_step st Hid) as (H1 & _ & H3 & _).
  destruct (start_times_step st2 Hid2) as (_ & K2 & _ & _ & K5 & _).
  cbv zeta in *.
  destruct H1 as [_ Hset]; [lia|].
  destruct H3 as (w1 & w2 & tr1 & tr2 & _ & _ & _ & _ & Hnn); [lia | exact Hok |].
  assert (Hdur : 0 <= _start_duration_seconds (self (snd (start st))))
    by (apply Hnn; left; lia).
  rewrite <- Hself in *.
  repeat split; auto.
Qed.

End MonotoneClock.


(** ** Wait *)

Lemma wait_loop_run (s : Service) (f : Node -> option Logger) (L : Logger)
      (S : option (list Handle)) (deadline : Z) (ns : list Node) :
  forall (w : World) (tr : list Event) (acc : list Node),
    identified s (Build_Env w f L S tr) ->
    exists w' tr' out,
      wait_checks s deadline ns w out tr' w'
      /\ wait_loop ns deadline acc {| self := s; env := Build_Env w f L S tr |}
         = (match out with
            | Checked u => Ok (acc ++ u)%list
            | Aborted e => Raise e
            end,
            {| self := s; env := Build_Env w' f L S (tr ++ tr') |}).
Proof.
  induction ns as [|x ns IH]; intros w tr acc Hid.
  - exists w, [], (Checked []). split; [constructor|].
    simpl. now rewrite !app_nil_r.
  - destruct (time_time ext w) as [now w1] eqn:Htime.
    assert (Hnow : time {| self := s; env := Build_Env w f L S tr |}
                   = (Ok now, {| self := s; env := Build_Env w1 f L S tr |})).
    { cbv [time external self env world]. now rewrite Htime. }
    assert (Hid1 : identified s (Build_Env w1 f L S tr)).
    { eapply identified_frame; [|exact Hid]. reflexivity. }
    cbn [wait_loop]. rewrite (bind_ok _ _ _ _ _ Hnow).
    rewrite Z.gtb_ltb. destruct (now <? deadline) eqn:Hlt.
    + apply Z.ltb_lt in Hlt.
      rewrite (bind_ok _ _ _ _ _ (logger_call_identified (Some x) _ _ Hid1)).
      destruct (wait_node hooks s x (deadline - now) w1) as [[b|e] w2] eqn:Hwait.
      * assert (Hcall : call_wait_node x (deadline - now)
                          {| self := s; env := Build_Env w1 f L S tr |}
                        = (Ok b,
                           {| self := s;
                              env := Build_Env w2 f L S
                                       (tr ++ [Call_wait_node x (deadline - now)]) |})).
        { cbv [call_wait_node bind get_self modify_env external self env world
               log_call set_world account_logger context_logger
               context_services calls].
          now rewrite Hwait. }
        rewrite (bind_ok _ _ _ _ _ Hcall).
        assert (Hid2 : identified s (Build_Env w2 f L S
                                       (tr ++ [Call_wait_node x (deadline - now)]))).
        { eapply identified_frame; [|exact Hid]. reflexivity. }
        destruct b; cbn [negb].
        -- destruct (IH w2 _ acc Hid2) as (w' & tr' & out & Hspec & Hrun).
           exists w', (Call_wait_node x (deadline - now) :: tr'), out.
           split; [eapply wait_checks_finished; eauto; lia|].
           rewrite Hrun, <- app_assoc. reflexivity.
        -- destruct (IH w2 _ (acc ++ [x])%list Hid2) as (w' & tr' & out & Hspec & Hrun).
           exists w', (Call_wait_node x (deadline - now) :: tr'), (mark_unfinished x out).
           split; [eapply wait_checks_unfinished; eauto; lia|].
           rewrite Hrun, <- !app_assoc. now destruct out; rewrite <- ?app_assoc.
      * exists w2, [Call_wait_node x (deadline - now)], (Aborted e).
        split; [eapply wait_checks_raised; eauto; lia|].
        apply bind_raise.
        cbv [call_wait_node bind get_self modify_env external self env world
             log_call set_world account_logger context_logger
             context_services calls].
        now rewrite Hwait.
    + apply Z.ltb_ge in Hlt.
      destruct (IH w1 tr (acc ++ [x])%list Hid1) as (w' & tr' & out & Hspec & Hrun).
      exists w', tr', (mark_unfinished x out).
      split; [eapply wait_checks_no_budget; eauto; lia|].
      rewrite Hrun. now destruct out; rewrite <- ?app_assoc.
Qed.

(** C1. [wait] reads the clock once, fixes the deadline at that reading
    plus [timeout_sec], and checks the nodes against this one deadline
    as [wait_checks] says: in order, each with the budget left, without
    a call to [wait_node] when no budget is left. When all the nodes
    were checked it returns if none is unfinished and otherwise raises a
    [TimeoutError] whose message prints the unfinished nodes, only them,
    in the order they were checked; when [wait_node] raises, that
    exception goes through. *)
Theorem wait_shared_deadline (st : State World) (timeout_sec : Z) :
  identified (self st) (env st) ->
  exists out tr w',
    wait_checks (self st)
                (fst (time_time ext (world (env st))) + timeout_sec)
                (nodes (self st))
                (snd (time_time ext (world (env st)))) out tr w'
    /\ calls (env (snd (wait timeout_sec st))) = (calls (env st) ++ tr)%list
    /\ self (snd (wait timeout_sec st)) = self st
    /\ match out with
       | Checked u =>
           (u = [] /\ fst (wait timeout_sec st) = Ok tt)
           \/ (u <> [] /\
               fst (wait timeout_sec st)
               = Raise (TimeoutError
                          ("Timed out waiting " ++ str_int timeout_sec
                           ++ " seconds for service nodes to finish. "
                           ++ "These nodes are still alive: "
                           ++ str_list (map (repr_node pr) u))))
       | Aborted e => fst (wait timeout_sec st) = Raise e
       end.
Proof.
  destruct st as [s [w f L S tr]]. cbn [self env world calls]. intros Hid.
  destruct (time_time ext w) as [start_ w0] eqn:Htime. cbn [fst snd].
  assert (Hnow : time {| self := s; env := Build_Env w f L S tr |}
                 = (Ok start_, {| self := s; env := Build_Env w0 f L S tr |})).
  { cbv [time external self env world]. now rewrite Htime. }
  destruct (wait_loop_run s f L S (start_ + timeout_sec) (nodes s) w0 tr [])
    as (w' & tr' & out & Hspec & Hrun).
  { eapply identified_frame; [|exact Hid]. reflexivity. }
  exists out, tr', w'. split; [exact Hspec|].
  assert (Hwait : wait timeout_sec {| self := s; env := Build_Env w f L S tr |}
                  = (match out with
                     | Checked [] => Ok tt
                     | Checked (n :: u) =>
                         Raise (TimeoutError (timeout_msg timeout_sec (n :: u)))
                     | Aborted e => Raise e
                     end,
                     {| self := s; env := Build_Env w' f L S (tr ++ tr') |})).
  { unfold wait. rewrite (bind_ok _ _ _ _ _ Hnow).
    unfold bind at 1. unfold get_self at 1. cbn [self].
    unfold bind at 1. rewrite Hrun.
    destruct out as [[|n u]|e]; reflexivity. }
  rewrite Hwait. cbn [fst snd self env calls].
  split; [reflexivity|]. split; [reflexivity|].
  destruct out as [[|n u]|e].
  - left. split; reflexivity.
  - right. split; [discriminate | reflexivity].
  - reflexivity.
Qed.


(** ** Construction *)

Section Keeps.

(** An invariant that fixes the value [v] of some fields of [self], read
    by [field], none of them being [nodes]. *)
Variable T : Type.
Variable field : Service -> T.
Variable v : T.
Hypothesis field_set_nodes : forall ns s, field (set_nodes ns s) = field s.
Let I (st : State World) : Prop := field (self st) = v.

Lemma keeps_bind {A B} (m : M A) (k : A -> M B) :
  keeps I m -> (forall a, keeps I (k a)) -> keeps I (bind m k).
Proof.
  intros Hm Hk st HI. unfold bind. specialize (Hm st HI).
  destruct (m st) as [[a|e] st1]; simpl in *; [now apply Hk | exact Hm].
Qed.

Lemma keeps_self_unchanged {A} (m : M A) :
  (forall st, self (snd (m st)) = self st) -> keeps I m.
Proof.
  intros H st HI. unfold I in *. now rewrite H.
Qed.

Lemma keeps_external {A} (op : World -> result A * World) : keeps I (external op).
Proof.
  apply keeps_self_unchanged. intros st. unfold external.
  now destruct (op (world (env st))).
Qed.

Lemma keeps_modify_env (g : Env World -> Env World) : keeps I (modify_env g).
Proof.
  now apply keeps_self_unchanged.
Qed.

Lemma keeps_modify_self (g : Service -> Service) :
  (forall s, field (g s) = field s) -> keeps I (modify_self g).
Proof.
  intros Hg st HI. unfold I in *. simpl. now rewrite Hg.
Qed.

Lemma keeps_logger_call (msg : Service -> Env World -> result string) :
  keeps I (logger_call msg).
Proof.
  apply keeps_self_unchanged. intros st. unfold logger_call, bind, eval.
  now destruct (msg (self st) (env st)).
Qed.

Lemma keeps_for_each {A} (xs : list A) (body : A -> M unit) :
  (forall x, keeps I (body x)) -> keeps I (for_each xs body).
Proof.
  intros H st HI. apply for_each_invariant; [|exact HI].
  intros x st0. apply H.
Qed.

Lemma keeps_try_except {A} (m : M A) (h : exn -> option (M A)) :
  keeps I m -> (forall e k, h e = Some k -> keeps I k) -> keeps I (try_except m h).
Proof.
  intros Hm Hh st HI. unfold try_except. specialize (Hm st HI).
  destruct (m st) as [[a|e] st1]; simpl in *; [exact Hm|].
  destruct (h e) as [k|] eqn:He; [now apply (Hh e k) | exact Hm].
Qed.

Lemma keeps_bind_logger (node : Node) : keeps I (bind_logger node).
Proof.
  apply keeps_self_unchanged. intros st.
  unfold bind_logger, bind, get_self, get_env, raise, modify_env. simpl.
  now destruct (account_logger (env st) node).
Qed.

Lemma keeps_allocate_nodes : keeps I allocate_nodes.
Proof.
  unfold allocate_nodes. apply keeps_bind; [now apply keeps_self_unchanged|].
  intros s. destruct (allocated s); [now apply keeps_self_unchanged|].
  apply keeps_bind.
  - apply keeps_try_except.
    + unfold call_cluster_alloc. apply keeps_bind; [apply keeps_modify_env|].
      intros _. apply keeps_external.
    + intros e k He. destruct (runtime_error_message e); [|discriminate].
      inversion He; subst k. now apply keeps_self_unchanged.
  - intros ns. apply keeps_bind; [apply keeps_modify_self, field_set_nodes|].
    intros _. apply keeps_bind.
    + apply keeps_for_each, keeps_bind_logger.
    + intros _. apply keeps_logger_call.
Qed.

End Keeps.

Lemma bind_fst_ok {A B} (m : M A) (k : A -> M B) (st : State World) (b : B) :
  fst (bind m k st) = Ok b ->
  exists a, fst (m st) = Ok a /\ bind m k st = k a (snd (m st)).
Proof.
  unfold bind. destruct (m st) as [[a|e] st1]; simpl; intros H; [eauto | discriminate].
Qed.

(** One step of a computation that returns: its first action returned
    too, and the rest runs from the state that it reached. *)
Ltac bind_step H a Ha :=
  let Heq := fresh "Heq" in
  destruct (bind_fst_ok _ _ _ _ H) as (a & Ha & Heq);
  rewrite Heq in H |- *; clear Heq.

Lemma order_registered (s : Service) (e : Env World) (l : list Handle) :
  context_services e = Some l ->
  In (handle_of s) l ->
  identified s e.
Proof.
  intros He Hin. unfold identified, _order. rewrite He.
  assert (Hreg : registered s l = true).
  { unfold registered. apply existsb_exists. exists (handle_of s).
    split; [exact Hin | apply Z.eqb_refl]. }
  rewrite Hreg. cbn [negb andb]. unfold list_index.
  destruct (index_from_In (self_id s)
              (map h_id (filter (fun x => String.eqb (h_type x) (cls_name s)) l)) 0)
    as (i & ->); [|eauto].
  apply (in_map h_id _ (handle_of s)), filter_In.
  split; [exact Hin | apply String.eqb_refl].
Qed.

(** What a successful construction establishes: the instance is
    registered and can name itself, it is initialized, its start time and
    start duration are unset, and the identifiers of the nodes it holds
    are recorded. *)
Lemma init_establishes (num_nodes : option Z) (arg : option NodeSpec) (st : State World) :
  fst (__init__ num_nodes arg st) = Ok tt ->
  let st' := snd (__init__ num_nodes arg st) in
  identified (self st') (env st')
  /\ _initialized (self st') = true
  /\ _start_time (self st') = -1
  /\ _start_duration_seconds (self st') = -1
  /\ _nodes_formerly_allocated (self st') = map (str_account pr) (nodes (self st'))
  /\ setup_node_spec RemoteAccount (repr_str pr) num_nodes arg
     = Ok (node_spec (self st')).
Proof.
  unfold __init__. intros H. cbv zeta.
  bind_step H t Ht. bind_step H u1 Hu1. bind_step H u2 Hu2. bind_step H u3 Hu3.
  bind_step H u4 Hu4. bind_step H u5 Hu5. bind_step H u6 Hu6. bind_step H u7 Hu7.
  bind_step H spec Hspec. bind_step H u8 Hu8. bind_step H u9 Hu9.
  bind_step H u10 Hu10.
  match type of H with
  | context [allocate_nodes ?stA] =>
      assert (Hfields :
                (fun s => (_start_time s, _start_duration_seconds s, node_spec s))
                  (self (snd (allocate_nodes stA))) = (-1, -1, spec))
        by (apply (keeps_allocate_nodes _
                     (fun s => (_start_time s, _start_duration_seconds s, node_spec s))
                     (-1, -1, spec));
            reflexivity);
      set (st1 := allocate_nodes stA) in *
  end.
  cbv beta in Hfields. clearbody st1.
  bind_step H s1 Hs1. unfold get_self at 1 in Hs1. cbn [fst] in Hs1.
  inversion Hs1; subst s1. clear Hs1.
  bind_step H u11 Hu11. bind_step H u12 Hreg. bind_step H u13 Hu13.
  clear H Ht Hu1 Hu2 Hu3 Hu4 Hu5 Hu6 Hu7 Hu8 Hu9 Hu10 Hu11 Hu13.
  unfold lift in Hspec. cbn [fst] in Hspec. rewrite Hspec.
  unfold register_self, bind, get_self, get_env, raise, modify_env, modify_self in *.
  cbn [fst snd self env] in *.
  destruct (context_services (env (snd st1))) as [l|] eqn:Hsvc; [|discriminate].
  cbn [fst snd self env] in *.
  injection Hfields as Ht Hd Hn.
  split.
  - eapply order_registered.
    + reflexivity.
    + cbn. apply in_or_app. right. now left.
  - repeat split; cbn; congruence.
Qed.

(** The node spec of a constructed instance is what [setup_node_spec]
    returned. *)
Lemma init_node_spec (num_nodes : option Z) (arg : option NodeSpec) (st : State World) :
  fst (__init__ num_nodes arg st) = Ok tt ->
  setup_node_spec RemoteAccount (repr_str pr) num_nodes arg
    = Ok (node_spec (self (snd (__init__ num_nodes arg st)))).
Proof.
  intros H. apply (init_establishes num_nodes arg st H).
Qed.

(** * Further properties of the class *)

(** ** Indexing the nodes *)

Lemma py_getitem_nonneg {A} (l : list A) (j : Z) :
  0 <= j < len l ->
  exists x, nth_error l (Z.to_nat j) = Some x /\ py_getitem l j = Ok x.
Proof.
  intros Hj. unfold py_getitem.
  destruct (j <? 0) eqn:Hneg; [apply Z.ltb_lt in Hneg; lia|].
  rewrite Hneg. destruct (len l <=? j) eqn:Hle; [apply Z.leb_le in Hle; lia|].
  cbn [orb].
  destruct (nth_error l (Z.to_nat j)) as [x|] eqn:Hnth; [eauto|].
  apply nth_error_None in Hnth. unfold len in Hj. lia.
Qed.

Lemma py_getitem_negative {A} (l : list A) (j : Z) :
  - len l <= j < 0 ->
  exists x, nth_error l (Z.to_nat (j + len l)) = Some x /\ py_getitem l j = Ok x.
Proof.
  intros Hj. unfold py_getitem.
  destruct (j <? 0) eqn:Hneg; [|apply Z.ltb_ge in Hneg; lia].
  destruct (j + len l <? 0) eqn:Hneg'; [apply Z.ltb_lt in Hneg'; lia|].
  destruct (len l <=? j + len l) eqn:Hle; [apply Z.leb_le in Hle; lia|].
  cbn [orb].
  destruct (nth_error l (Z.to_nat (j + len l))) as [x|] eqn:Hnth; [eauto|].
  apply nth_error_None in Hnth. unfold len in *. lia.
Qed.

Lemma py_getitem_out_of_range {A} (l : list A) (j : Z) :
  len l <= j \/ j < - len l ->
  py_getitem l j = Raise (IndexError "list index out of range").
Proof.
  intros Hj. unfold py_getitem. pose proof (len_nonneg l) as Hl.
  destruct (j <? 0) eqn:Hneg.
  - apply Z.ltb_lt in Hneg.
    destruct (j + len l <? 0) eqn:Hneg'; [reflexivity|].
    apply Z.ltb_ge in Hneg'. lia.
  - apply Z.ltb_ge in Hneg. rewrite (proj2 (Z.ltb_ge j 0) Hneg).
    destruct (len l <=? j) eqn:Hle; [reflexivity|].
    apply Z.leb_gt in Hle. lia.
Qed.

(** X1. The bounds of [get_node]. An index from 1 to the number of nodes
    returns the node at that 1-based position. An index from 0 down to
    one more than minus the number of nodes does not fail either: through
    Python's negative indexing [get_node(0)] is the last node,
    [get_node(-1)] the one before it, and so on. Any other index raises
    [IndexError]. *)
Theorem get_node_bounds (s : Service) (i : Z) :
  (1 <= i <= len (nodes s) ->
   exists n, nth_error (nodes s) (Z.to_nat (i - 1)) = Some n
             /\ get_node s i = Ok n)
  /\ (- len (nodes s) < i <= 0 ->
      exists n, nth_error (nodes s) (Z.to_nat (len (nodes s) + i - 1)) = Some n
                /\ get_node s i = Ok n)
  /\ (len (nodes s) < i \/ i <= - len (nodes s) ->
      get_node s i = Raise (IndexError "list index out of range")).
Proof.
  unfold get_node. split; [|split].
  - intros Hi. apply py_getitem_nonneg. lia.
  - intros Hi.
    replace (len (nodes s) + i - 1) with (i - 1 + len (nodes s)) by lia.
    apply py_getitem_negative. lia.
  - intros Hi. apply py_getitem_out_of_range. lia.
Qed.

Lemma nth_error_split_first (l : list Node) (k : nat) (n : Node) :
  nth_error l k = Some n ->
  exists pre post,
    l = (pre ++ n :: post)%list /\ ~ In n pre /\ (List.length pre <= k)%nat
    /\ (NoDup l -> List.length pre = k).
Proof.
  revert k. induction l as [|x l IH]; intros k Hk; [destruct k; discriminate|].
  destruct (Nat.eq_dec x n) as [-> | Hne].
  - exists [], l. repeat split; [intros [] | simpl; lia |].
    intros Hnd. destruct k as [|k]; [reflexivity|].
    simpl in Hk. apply nth_error_In in Hk.
    inversion Hnd; subst. contradiction.
  - destruct k as [|k]; [simpl in Hk; congruence|].
    simpl in Hk. destruct (IH k Hk) as (pre & post & -> & Hnot & Hle & Hnd).
    exists (x :: pre), post. repeat split.
    + intros [Heq | Hin]; [contradiction | now apply Hnot].
    + simpl. lia.
    + intros Hnd'. inversion Hnd'; subst. simpl. f_equal. now apply Hnd.
Qed.

(** X2. [idx] undoes [get_node]: for an index [i] from 1 to the number of
    nodes, [idx(get_node(i))] is a position from 1 to [i] that holds the
    same node (the first one that does), and it is [i] itself when no
    node occurs twice in [nodes]. *)
Theorem idx_of_get_node (s : Service) (i : Z) (n : Node) :
  1 <= i <= len (nodes s) ->
  get_node s i = Ok n ->
  exists j, idx s n = Ok j
            /\ 1 <= j <= i
            /\ get_node s j = Ok n
            /\ (NoDup (nodes s) -> j = i).
Proof.
  intros Hi Hget.
  destruct (py_getitem_nonneg (nodes s) (i - 1)) as (x & Hnth & Hx); [lia|].
  unfold get_node in Hget. rewrite Hx in Hget. inversion Hget; subst x.
  destruct (nth_error_split_first _ _ _ Hnth) as (pre & post & Hs & Hnot & Hle & Hnd).
  exists (len pre + 1). split; [apply (idx_first s n pre post Hs Hnot)|].
  split; [unfold len; lia|]. split.
  - unfold get_node. rewrite Hs.
    replace (len pre + 1 - 1) with (len pre) by lia. apply py_getitem_middle.
  - intros H. specialize (Hnd H). unfold len. lia.
Qed.


(** ** The order, at construction and afterwards *)

Lemma index_from_app_found (x : Z) (l1 l2 : list Z) (from : Z) :
  In x l1 -> index_from x (l1 ++ l2) from = index_from x l1 from.
Proof.
  revert from. induction l1 as [|y l1 IH]; intros from Hin; [contradiction|].
  simpl. destruct (y =? x) eqn:Hy; [reflexivity|].
  destruct Hin as [-> | Hin]; [rewrite Z.eqb_refl in Hy; discriminate|].
  now apply IH.
Qed.

Lemma index_from_missing (x : Z) (l : list Z) (from : Z) :
  ~ In x l -> index_from x l from = None.
Proof.
  revert from. induction l as [|y l IH]; intros from Hnot; [reflexivity|].
  simpl. destruct (y =? x) eqn:Hy.
  - apply Z.eqb_eq in Hy. exfalso. apply Hnot. now left.
  - apply IH. intros Hin. apply Hnot. now right.
Qed.

Lemma registered_fresh (s : Service) (l : list Handle) :
  (forall h, In h l -> h_id h <> self_id s) -> registered s l = false.
Proof.
  intros Hfresh. unfold registered.
  destruct (existsb (fun x => h_id x =? self_id s) l) eqn:Hex; [|reflexivity].
  apply existsb_exists in Hex. destruct Hex as (h & Hin & Heq).
  apply Z.eqb_eq in Heq. now destruct (Hfresh h Hin).
Qed.

Lemma registered_In (s : Service) (l : list Handle) :
  In (handle_of s) l -> registered s l = true.
Proof.
  intros Hin. unfold registered. apply existsb_exists.
  exists (handle_of s). split; [exact Hin | apply Z.eqb_refl].
Qed.

(** The order that an instance under construction reads, before it is
    registered. *)
Lemma order_before_registration (s : Service) (e : Env World) (l : list Handle) :
  context_services e = Some l ->
  (forall h, In h l -> h_id h <> self_id s) ->
  _initialized s = false ->
  _order s e = Ok (len (filter (fun x => String.eqb (h_type x) (cls_name s)) l)).
Proof.
  intros He Hfresh Hinit. unfold _order. rewrite He, (registered_fresh s l Hfresh), Hinit.
  cbn [negb andb]. f_equal. unfold len. now rewrite length_map.
Qed.

(** X3. The order that an instance reads while it is being constructed
    (not yet registered, not yet initialized) is the order it has once
    it is registered: the number of instances of its class registered
    before it. *)
Theorem order_at_construction_is_final
    (s : Service) (e e' : Env World) (l : list Handle) (b : bool) :
  context_services e = Some l ->
  (forall h, In h l -> h_id h <> self_id s) ->
  _initialized s = false ->
  context_services e' = Some (l ++ [handle_of s])%list ->
  _order s e = Ok (len (filter (fun x => String.eqb (h_type x) (cls_name s)) l))
  /\ _order (set_initialized b s) e' = _order s e.
Proof.
  intros He Hfresh Hinit He'.
  rewrite (order_before_registration s e l He Hfresh Hinit). split; [reflexivity|].
  apply (order_is_position (set_initialized b s) e' l []); assumption.
Qed.

(** X4. Registering further instances does not change the order of a
    registered instance. *)
Theorem order_stable_under_registration
    (s : Service) (e e' : Env World) (l more : list Handle) :
  context_services e = Some l ->
  In (handle_of s) l ->
  context_services e' = Some (l ++ more)%list ->
  _order s e' = _order s e.
Proof.
  intros He Hin He'. unfold _order. rewrite He, He'.
  rewrite (registered_In s l Hin).
  rewrite (registered_In s (l ++ more)) by (apply in_or_app; now left).
  cbn [negb andb]. unfold list_index.
  rewrite filter_app, map_app, index_from_app_found; [reflexivity|].
  apply (in_map h_id _ (handle_of s)), filter_In.
  split; [exact Hin | apply String.eqb_refl].
Qed.

Lemma order_unregistered (s : Service) (e : Env World) (l : list Handle) :
  context_services e = Some l ->
  (forall h, In h l -> h_id h <> self_id s) ->
  _initialized s = true ->
  _order s e = Raise (ValueError (str_int (self_id s) ++ " is not in list")).
Proof.
  intros He Hfresh Hinit. unfold _order.
  rewrite He, (registered_fresh s l Hfresh), Hinit. cbn [negb andb].
  unfold list_index. rewrite index_from_missing; [reflexivity|].
  intros Hin. apply in_map_iff in Hin. destruct Hin as (h & Hid & Hin).
  apply filter_In in Hin. now apply (Hfresh h (proj1 Hin)).
Qed.

(** X5. An initialized instance that is missing from the registry cannot
    name itself: [_order] raises [ValueError], and so do [start] and, on
    an instance that holds nodes, [free], each through its first log
    message and before it has changed anything. *)
Theorem unregistered_instance_raises (st : State World) (l : list Handle) :
  context_services (env st) = Some l ->
  (forall h, In h l -> h_id h <> self_id (self st)) ->
  _initialized (self st) = true ->
  let e := ValueError (str_int (self_id (self st)) ++ " is not in list") in
  _order (self st) (env st) = Raise e
  /\ start st = (Raise e, st)
  /\ (nodes (self st) <> [] -> free st = (Raise e, st)).
Proof.
  intros He Hfresh Hinit. cbv zeta.
  pose proof (order_unregistered _ _ _ He Hfresh Hinit) as Ho.
  split; [exact Ho|]. split.
  - unfold start. apply bind_raise.
    unfold logger_call, bind, eval, who_am_i, service_id. now rewrite Ho.
  - intros Hne. unfold free. unfold bind at 1. unfold get_self at 1.
    destruct (nodes (self st)) as [|n ns]; [congruence|].
    apply bind_raise. cbn [for_each]. apply bind_raise. apply bind_raise.
    unfold logger_call, bind, eval, who_am_i, service_id. now rewrite Ho.
Qed.


(** ** Allocation: success and the failures of the cluster *)

Lemma for_each_app {A} (xs ys : list A) (body : A -> M unit) (st : State World) :
  for_each (xs ++ ys) body st
  = bind (for_each xs body) (fun _ => for_each ys body) st.
Proof.
  revert st. induction xs as [|x xs IH]; intros st; [reflexivity|].
  cbn [app for_each]. unfold bind.
  destruct (body x st) as [[[]|e] st1]; [|reflexivity].
  rewrite IH. reflexivity.
Qed.

(** The loop over the allocated nodes when they are distinct and clean:
    it binds the logger of each of them, and of no other node. *)
Lemma bind_loggers_clean (s : Service) (w : World) (L : Logger)
      (S : option (list Handle)) (tr : list Event) (ns : list Node) :
  forall f : Node -> option Logger,
    NoDup ns ->
    (forall m, In m ns -> f m = None) ->
    exists f',
      for_each ns bind_logger {| self := s; env := Build_Env w f L S tr |}
      = (Ok tt, {| self := s; env := Build_Env w f' L S tr |})
      /\ (forall m, In m ns -> f' m = Some L)
      /\ (forall m, ~ In m ns -> f' m = f m).
Proof.
  induction ns as [|x ns IH]; intros f Hnd Hclean.
  - exists f. repeat split. intros m [].
  - inversion Hnd as [|x' ns' Hx Hnd']; subst.
    set (f1 := fun n => if Nat.eqb n x then Some L else f n).
    destruct (IH f1 Hnd') as (f' & Hrun & Hbound & Hsame).
    { intros m Hm. unfold f1. destruct (Nat.eqb m x) eqn:Hmx.
      - apply Nat.eqb_eq in Hmx. subst m. contradiction.
      - apply Hclean. now right. }
    exists f'. split; [|split].
    + cbn [for_each]. unfold bind at 1. unfold bind_logger at 1.
      unfold bind, get_self, get_env, modify_env. simpl.
      rewrite (Hclean x (or_introl eq_refl)). simpl. exact Hrun.
    + intros m [<- | Hm]; [|now apply Hbound].
      rewrite (Hsame x Hx). unfold f1. now rewrite Nat.eqb_refl.
    + intros m Hm. rewrite Hsame by (intros Hin; apply Hm; now right).
      unfold f1. destruct (Nat.eqb m x) eqn:Hmx; [|reflexivity].
      apply Nat.eqb_eq in Hmx. subst m. exfalso. apply Hm. now left.
Qed.

(** [allocate_nodes] up to the loop over the nodes, when the cluster
    serves the request. *)
Lemma allocate_nodes_served (s : Service) (w w' : World) (f : Node -> option Logger)
      (L : Logger) (S : option (list Handle)) (tr : list Event) (ns : list Node) :
  nodes s = [] ->
  cluster_alloc ext (node_spec s) w = (Ok ns, w') ->
  allocate_nodes {| self := s; env := Build_Env w f L S tr |}
  = bind (for_each ns bind_logger) (fun _ => logger_call (who_am_i None))
         {| self := set_nodes ns s;
            env := Build_Env w' f L S (tr ++ [Call_cluster_alloc (node_spec s)]) |}.
Proof.
  intros Hnodes Halloc. unfold allocate_nodes.
  unfold bind at 1. unfold get_self at 1. cbn [self].
  rewrite (allocated_empty s Hnodes).
  unfold bind at 1. unfold try_except, call_cluster_alloc.
  unfold bind at 1. unfold modify_env at 1. unfold external.
  cbn [self env world log_call]. rewrite Halloc.
  unfold bind at 1. unfold modify_self at 1. reflexivity.
Qed.

Lemma allocate_nodes_clean_run (st : State World) (ns : list Node) (w' : World) :
  nodes (self st) = [] ->
  identified (self st) (env st) ->
  cluster_alloc ext (node_spec (self st)) (world (env st)) = (Ok ns, w') ->
  NoDup ns ->
  (forall m, In m ns -> account_logger (env st) m = None) ->
  let st' := snd (allocate_nodes st) in
  fst (allocate_nodes st) = Ok tt
  /\ self st' = set_nodes ns (self st)
  /\ world (env st') = w'
  /\ (forall m, In m ns -> account_logger (env st') m = Some (context_logger (env st)))
  /\ (forall m, ~ In m ns -> account_logger (env st') m = account_logger (env st) m)
  /\ context_logger (env st') = context_logger (env st)
  /\ context_services (env st') = context_services (env st)
  /\ calls (env st') = (calls (env st) ++ [Call_cluster_alloc (node_spec (self st))])%list.
Proof.
  destruct st as [s [w f L S tr]]. cbn [self env world account_logger context_logger
                                        context_services calls].
  intros Hnodes Hid Halloc Hnd Hclean.
  destruct (bind_loggers_clean (set_nodes ns s) w' L S
              (tr ++ [Call_cluster_alloc (node_spec s)]) ns f Hnd Hclean)
    as (f' & Hrun & Hbound & Hsame).
  assert (Hst : allocate_nodes {| self := s; env := Build_Env w f L S tr |}
                = (Ok tt,
                   {| self := set_nodes ns s;
                      env := Build_Env w' f' L S
                               (tr ++ [Call_cluster_alloc (node_spec s)]) |})).
  { rewrite (allocate_nodes_served s w w' f L S tr ns Hnodes Halloc).
    rewrite (bind_ok _ _ _ _ _ Hrun).
    apply logger_call_identified.
    apply (identified_self s); try reflexivity.
    eapply identified_frame; [|exact Hid]. reflexivity. }
  rewrite Hst. cbn. repeat split; assumption.
Qed.

(** X6. When the cluster serves the request with distinct, clean nodes,
    [allocate_nodes] succeeds: the instance holds the nodes in the order
    the cluster returned them, the logger of each of them is the logger
    of the context and no other logger slot has changed, and the cluster
    was called once. *)
Theorem allocate_nodes_succeeds (st : State World) (ns : list Node) (w' : World) :
  nodes (self st) = [] ->
  identified (self st) (env st) ->
  cluster_alloc ext (node_spec (self st)) (world (env st)) = (Ok ns, w') ->
  NoDup ns ->
  (forall m, In m ns -> account_logger (env st) m = None) ->
  let st' := snd (allocate_nodes st) in
  fst (allocate_nodes st) = Ok tt
  /\ self st' = set_nodes ns (self st)
  /\ world (env st') = w'
  /\ (forall m, In m ns -> account_logger (env st') m = Some (context_logger (env st)))
  /\ (forall m, ~ In m ns -> account_logger (env st') m = account_logger (env st) m)
  /\ context_logger (env st') = context_logger (env st)
  /\ context_services (env st') = context_services (env st)
  /\ calls (env st') = (calls (env st) ++ [Call_cluster_alloc (node_spec (self st))])%list.
Proof.
  exact (allocate_nodes_clean_run st ns w').
Qed.

(** X7. When the cluster refuses the request, [allocate_nodes] raises
    and the instance holds no node and has bound no logger. A
    [RuntimeError] of the cluster (or of a subclass of it) is raised
    again as a [RuntimeError] whose message is the cluster's followed,
    when the context has a registry, by the registered services; any
    other exception goes through as it is. *)
Theorem allocate_nodes_refused (st : State World) (e : exn) (w' : World) :
  nodes (self st) = [] ->
  cluster_alloc ext (node_spec (self st)) (world (env st)) = (Raise e, w') ->
  let st' := snd (allocate_nodes st) in
  fst (allocate_nodes st)
  = Raise (match runtime_error_message e with
           | Some msg =>
               RuntimeError
                 (msg ++ match context_services (env st) with
                         | Some services =>
                             " Currently registered services: "
                             ++ str_list (map (repr_service pr) services)
                         | None => ""
                         end)
           | None => e
           end)
  /\ self st' = self st
  /\ account_logger (env st') = account_logger (env st)
  /\ context_services (env st') = context_services (env st)
  /\ calls (env st') = (calls (env st) ++ [Call_cluster_alloc (node_spec (self st))])%list.
Proof.
  destruct st as [s [w f L S tr]]. cbn [self env world account_logger context_logger
                                        context_services calls].
  intros Hnodes Halloc.
  assert (Hst : allocate_nodes {| self := s; env := Build_Env w f L S tr |}
                = (Raise (match runtime_error_message e with
                          | Some msg =>
                              RuntimeError
                                (msg ++ match S with
                                        | Some services =>
                                            " Currently registered services: "
                                            ++ str_list (map (repr_service pr) services)
                                        | None => ""
                                        end)
                          | None => e
                          end),
                   {| self := s;
                      env := Build_Env w' f L S
                               (tr ++ [Call_cluster_alloc (node_spec s)]) |})).
  { unfold allocate_nodes.
    unfold bind at 1. unfold get_self at 1. cbn [self].
    rewrite (allocated_empty s Hnodes).
    unfold bind at 1. unfold try_except, call_cluster_alloc.
    unfold bind at 1. unfold modify_env at 1. unfold external.
    cbn [self env world log_call]. rewrite Halloc.
    destruct (runtime_error_message e); reflexivity. }
  rewrite Hst. cbn. repeat split.
Qed.

(** X8. A cluster that returns a node twice is caught by the dirty-node
    check: the first occurrence binds the logger of the node, the
    second one finds it bound, and [allocate_nodes] raises with the
    instance already holding the whole sequence. *)
Theorem allocate_nodes_repeated_node
    (st : State World) (pre post : list Node) (node : Node) (w' : World) :
  nodes (self st) = [] ->
  cluster_alloc ext (node_spec (self st)) (world (env st))
    = (Ok (pre ++ node :: post)%list, w') ->
  NoDup pre ->
  (forall m, In m pre -> account_logger (env st) m = None) ->
  In node pre ->
  let st' := snd (allocate_nodes st) in
  fst (allocate_nodes st) = Raise (RuntimeError (dirty_node_msg (self st) node))
  /\ nodes (self st') = (pre ++ node :: post)%list
  /\ (forall m, In m pre ->
                account_logger (env st') m = Some (context_logger (env st))).
Proof.
  destruct st as [s [w f L S tr]]. cbn [self env world account_logger context_logger].
  intros Hnodes Halloc Hnd Hclean Hin.
  destruct (bind_loggers_clean (set_nodes (pre ++ node :: post) s) w' L S
              (tr ++ [Call_cluster_alloc (node_spec s)]) pre f Hnd Hclean)
    as (f' & Hrun & Hbound & Hsame).
  assert (Hst : allocate_nodes {| self := s; env := Build_Env w f L S tr |}
                = (Raise (RuntimeError (dirty_node_msg s node)),
                   {| self := set_nodes (pre ++ node :: post) s;
                      env := Build_Env w' f' L S
                               (tr ++ [Call_cluster_alloc (node_spec s)]) |})).
  { rewrite (allocate_nodes_served s w w' f L S tr _ Hnodes Halloc).
    apply bind_raise. rewrite for_each_app.
    rewrite (bind_ok _ _ _ _ _ Hrun).
    cbn [for_each]. apply bind_raise.
    unfold bind_logger, bind, get_self, get_env, raise.
    cbn [self env account_logger]. now rewrite (Hbound node Hin). }
  rewrite Hst. cbn. repeat split. exact Hbound.
Qed.


(** ** Release: a cluster that refuses a node, and the round trip *)

(** X9. When [cluster.free] raises on a node, [free] raises the same
    exception and stops: the nodes before it were returned to the
    cluster, the logger slots of those nodes and of the refused node
    itself are cleared, and the instance still holds its whole node
    sequence, the returned nodes included. *)
Theorem free_refused_node
    (st : State World) (pre post : list Node) (node : Node) (e : exn) :
  nodes (self st) = (pre ++ node :: post)%list ->
  identified (self st) (env st) ->
  (forall m w, In m pre -> fst (cluster_free ext m w) = Ok tt) ->
  (forall w, fst (cluster_free ext node w) = Raise e) ->
  let st' := snd (free st) in
  fst (free st) = Raise e
  /\ self st' = self st
  /\ (forall m, In m (pre ++ [node]) -> account_logger (env st') m = None)
  /\ (forall m, ~ In m (pre ++ [node]) ->
                account_logger (env st') m = account_logger (env st) m)
  /\ calls (env st')
     = (calls (env st) ++ map Call_cluster_free (pre ++ [node]))%list.
Proof.
  destruct st as [s [w f L S tr]]. cbn [self env world account_logger calls].
  intros Hs Hid Hpre Hnode.
  destruct (free_loop s L S pre Hpre w f tr Hid) as (w1 & f1 & Hrun & Hnone & Hsame).
  destruct (cluster_free ext node w1) as [r w2] eqn:Hfree.
  pose proof (Hnode w1) as Hr. rewrite Hfree in Hr. cbn [fst] in Hr. subst r.
  set (f2 := fun n => if Nat.eqb n node then None else f1 n).
  assert (Hst : free {| self := s; env := Build_Env w f L S tr |}
                = (Raise e,
                   {| self := s;
                      env := Build_Env w2 f2 L S
                               (tr ++ map Call_cluster_free (pre ++ [node])) |})).
  { unfold free. unfold bind at 1. unfold get_self at 1. cbn [self].
    apply bind_raise. rewrite Hs, for_each_app.
    rewrite (bind_ok _ _ _ _ _ Hrun).
    cbn [for_each]. apply bind_raise.
    assert (Hid1 : identified s (Build_Env w1 f1 L S (tr ++ map Call_cluster_free pre)))
      by (eapply identified_frame; [|exact Hid]; reflexivity).
    rewrite (bind_ok _ _ _ _ _ (logger_call_identified (Some node) _ _ Hid1)).
    unfold bind at 1. unfold modify_env at 1.
    unfold call_cluster_free. unfold bind at 1. unfold modify_env at 1.
    unfold external. cbn [world env self set_account_logger log_call].
    rewrite Hfree. rewrite map_app, app_assoc. reflexivity. }
  rewrite Hst. cbn [fst snd self env account_logger calls].
  split; [reflexivity|]. split; [reflexivity|]. split; [|split; [|reflexivity]].
  - intros m Hm. unfold f2. destruct (Nat.eqb m node) eqn:Hmn; [reflexivity|].
    apply in_app_or in Hm. destruct Hm as [Hm | [<- | []]]; [now apply Hnone|].
    now rewrite Nat.eqb_refl in Hmn.
  - intros m Hm. unfold f2. destruct (Nat.eqb m node) eqn:Hmn.
    + apply Nat.eqb_eq in Hmn. subst m. exfalso. apply Hm, in_or_app. right. now left.
    + apply Hsame. intros Hin. apply Hm, in_or_app. now left.
Qed.

(** X10. Allocation and release undo each other on the logger slots:
    after [allocate_nodes] has succeeded and [free] has returned the
    nodes, the instance holds no node and every logger slot, of any
    node, is what it was before the allocation; the cluster was called
    once to allocate and once per node, in order, to free. *)
Theorem allocate_then_free (st : State World) (ns : list Node) (w' : World) :
  nodes (self st) = [] ->
  identified (self st) (env st) ->
  cluster_alloc ext (node_spec (self st)) (world (env st)) = (Ok ns, w') ->
  NoDup ns ->
  (forall m, In m ns -> account_logger (env st) m = None) ->
  (forall m w, In m ns -> fst (cluster_free ext m w) = Ok tt) ->
  let st1 := snd (allocate_nodes st) in
  let st2 := snd (free st1) in
  fst (allocate_nodes st) = Ok tt
  /\ fst (free st1) = Ok tt
  /\ nodes (self st2) = []
  /\ allocated (self st2) = false
  /\ (forall m, account_logger (env st2) m = account_logger (env st) m)
  /\ calls (env st2)
     = (calls (env st) ++ Call_cluster_alloc (node_spec (self st))
                          :: map Call_cluster_free ns)%list.
Proof.
  intros Hnodes Hid Halloc Hnd Hclean Hfree. cbv zeta.
  destruct (allocate_nodes_clean_run st ns w' Hnodes Hid Halloc Hnd Hclean)
    as (Hok & Hself & Hw & Hbound & Hsame & _ & Hsvc & Hcalls).
  cbv zeta in *.
  destruct (snd (allocate_nodes st)) as [s1 [w1 f1 L1 S1 tr1]] eqn:Hst1.
  cbn [self env world account_logger context_logger context_services calls] in *.
  subst s1 w1.
  assert (Hid1 : identified (set_nodes ns (self st)) (Build_Env w' f1 L1 S1 tr1)).
  { apply (identified_self (self st)); try reflexivity.
    eapply identified_frame; [|exact Hid]. exact Hsvc. }
  destruct (free_loop (set_nodes ns (self st)) L1 S1 ns Hfree w' f1 tr1 Hid1)
    as (w2 & f2 & Hrun & Hnone & Hkeep).
  assert (Hst2 : free {| self := set_nodes ns (self st);
                         env := Build_Env w' f1 L1 S1 tr1 |}
                 = (Ok tt,
                    {| self := set_nodes [] (set_nodes ns (self st));
                       env := Build_Env w2 f2 L1 S1
                                (tr1 ++ map Call_cluster_free ns) |})).
  { unfold free. unfold bind at 1. unfold get_self at 1. cbn [self nodes set_nodes].
    unfold bind at 1. rewrite Hrun. reflexivity. }
  rewrite Hst2. cbn [fst snd self env account_logger calls nodes set_nodes].
  split; [exact Hok|]. split; [reflexivity|]. split; [reflexivity|].
  split; [reflexivity|]. split.
  - intros m. destruct (in_dec Nat.eq_dec m ns) as [Hin | Hnot].
    + rewrite (Hnone m Hin). symmetry. now apply Hclean.
    + rewrite (Hkeep m Hnot). now apply Hsame.
  - rewrite Hcalls, <- app_assoc. reflexivity.
Qed.


(** ** Construction as a whole *)

Lemma bind_modify_self {B} (g : Service -> Service) (k : unit -> M B)
      (st : State World) :
  bind (modify_self g) k st = k tt {| self := g (self st); env := env st |}.
Proof.
  reflexivity.
Qed.

Lemma time_run (s : Service) (w w0 : World) (f : Node -> option Logger) (L : Logger)
      (S : option (list Handle)) (tr : list Event) (t : Z) :
  time_time ext w = (t, w0) ->
  time {| self := s; env := Build_Env w f L S tr |}
  = (Ok t, {| self := s; env := Build_Env w0 f L S tr |}).
Proof.
  intros Ht. cbv [time external self env world]. now rewrite Ht.
Qed.

(** [__init__] up to the resolution of the node spec. *)
Lemma init_run (num_nodes : option Z) (arg : option NodeSpec)
      (s : Service) (w w0 : World) (f : Node -> option Logger) (L : Logger)
      (S : option (list Handle)) (tr : list Event) (t : Z) :
  time_time ext w = (t, w0) ->
  __init__ num_nodes arg {| self := s; env := Build_Env w f L S tr |}
  = match setup_node_spec RemoteAccount (repr_str pr) num_nodes arg with
    | Ok spec =>
        (allocate_nodes ;;;
         s' <- get_self ;;
         modify_self (set_nodes_formerly_allocated (map (str_account pr) (nodes s'))) ;;;
         register_self ;;;
         modify_self (set_local_scratch_dir None) ;;;
         modify_self (set_initialized true))
          {| self := set_nodes [] (set_node_spec spec (init_timestamps t s));
             env := Build_Env w0 f L S tr |}
    | Raise e =>
        (Raise e, {| self := init_timestamps t s; env := Build_Env w0 f L S tr |})
    end.
Proof.
  intros Ht. unfold __init__.
  rewrite (bind_ok _ _ _ _ _ (time_run s w w0 f L S tr t Ht)).
  do 7 rewrite bind_modify_self. cbn [self env].
  unfold bind at 1. unfold lift at 1. fold (init_timestamps t s).
  destruct (setup_node_spec RemoteAccount (repr_str pr) num_nodes arg) as [spec|e];
    [|reflexivity].
  do 2 rewrite bind_modify_self. reflexivity.
Qed.

(** A construction whose node request does not resolve raises what
    [setup_node_spec] raised. *)
Lemma init_rejected (num_nodes : option Z) (arg : option NodeSpec) (st : State World)
      (e : exn) :
  setup_node_spec RemoteAccount (repr_str pr) num_nodes arg = Raise e ->
  fst (__init__ num_nodes arg st) = Raise e.
Proof.
  destruct st as [s [w f L S tr]]. intros Hsetup.
  destruct (time_time ext w) as [t w0] eqn:Ht.
  now rewrite (init_run num_nodes arg s w w0 f L S tr t Ht), Hsetup.
Qed.

(** C5, as the code has it. After a successful construction the node
    spec is not empty and every key of it is a supported OS type. It is
    the supplied mapping, unchanged, whenever a non-empty mapping was
    supplied, and otherwise the supplied count, which is not zero, under
    [LINUX]. The counts themselves are not checked. A construction with
    neither a count nor a mapping (or with a zero count and an empty
    mapping) raises, and so does every construction with a mapping that
    has an unsupported key, whatever count comes with it. *)
Theorem init_node_spec_invariant
    (num_nodes : option Z) (arg : option NodeSpec) (st : State World) :
  In (LINUX RemoteAccount) (SUPPORTED_OS_TYPES RemoteAccount) ->
  let spec := node_spec (self (snd (__init__ num_nodes arg st))) in
  (fst (__init__ num_nodes arg st) = Ok tt ->
   spec <> []
   /\ (forall k, In k (map fst spec) -> In k (SUPPORTED_OS_TYPES RemoteAccount))
   /\ (truthy_dict arg = true -> arg = Some spec)
   /\ (truthy_dict arg = false ->
       exists n, num_nodes = Some n /\ n <> 0 /\ spec = [(LINUX RemoteAccount, n)]))
  /\ (truthy_int num_nodes = false -> truthy_dict arg = false ->
      fst (__init__ num_nodes arg st)
      = Raise (Exception "Either num_nodes or node_spec must not be None."))
  /\ (forall d k,
         arg = Some d -> In k (map fst d) ->
         ~ In k (SUPPORTED_OS_TYPES RemoteAccount) ->
         fst (__init__ num_nodes arg st)
         = Raise (Exception (unsupported_msg RemoteAccount (repr_str pr) d))).
Proof.
  intros Hlinux. cbv zeta. split; [|split].
  - intros Hok.
    pose proof (init_node_spec num_nodes arg st Hok) as Hspec.
    destruct (setup_node_spec_ok _ _ _ Hspec)
      as [(d & Harg & Hne & Hd & Hkeys) | (n & Hnum & Hn & Hfalsy & Hd)].
    + rewrite Hd. split; [exact Hne|].
      split; [intros k Hk; apply in_strs_In, Hkeys, Hk|].
      split; [intros _; exact Harg|].
      intros Hf. rewrite Harg in Hf. destruct d; [congruence | discriminate].
    + rewrite Hd. split; [discriminate|].
      split; [intros k [<- | []]; exact Hlinux|].
      split; [intros Ht; congruence|]. intros _. now exists n.
  - intros Hn Hd. apply init_rejected. unfold setup_node_spec. now rewrite Hn, Hd.
  - intros d k Harg Hin Hk. apply init_rejected. subst arg.
    destruct (check_os_types_raises d k Hin) as (e & He).
    { destruct (in_strs k (SUPPORTED_OS_TYPES RemoteAccount)) eqn:Hs; [|reflexivity].
      exfalso. apply Hk. now apply in_strs_In. }
    destruct d as [|kv d]; [destruct Hin|].
    unfold setup_node_spec.
    replace (truthy_dict (Some (kv :: d))) with true by reflexivity.
    rewrite andb_false_r. now rewrite He.
Qed.

(** X11. A construction whose node request does not resolve raises the
    exception of [setup_node_spec] having only read the clock and set
    the timestamps: the cluster is not called, no logger is bound and
    the instance is not registered. *)
Theorem init_rejected_request_touches_nothing
    (num_nodes : option Z) (arg : option NodeSpec) (st : State World) (e : exn) :
  setup_node_spec RemoteAccount (repr_str pr) num_nodes arg = Raise e ->
  let st' := snd (__init__ num_nodes arg st) in
  fst (__init__ num_nodes arg st) = Raise e
  /\ env st' = set_world (snd (time_time ext (world (env st)))) (env st)
  /\ nodes (self st') = nodes (self st)
  /\ _initialized (self st') = false.
Proof.
  destruct st as [s [w f L S tr]]. cbn [self env world]. intros Hsetup.
  destruct (time_time ext w) as [t w0] eqn:Ht.
  rewrite (init_run num_nodes arg s w w0 f L S tr t Ht), Hsetup.
  cbn. repeat split.
Qed.

(** The rest of [__init__] once the nodes are allocated. *)
Lemma init_after_allocation (s : Service) (w : World) (f : Node -> option Logger)
      (L : Logger) (S : option (list Handle)) (tr : list Event) :
  (s' <- get_self ;;
   modify_self (set_nodes_formerly_allocated (map (str_account pr) (nodes s'))) ;;;
   register_self ;;;
   modify_self (set_local_scratch_dir None) ;;;
   modify_self (set_initialized true))
    {| self := s; env := Build_Env w f L S tr |}
  = match S with
    | Some l =>
        (Ok tt,
         {| self := set_initialized true
                      (set_local_scratch_dir None
                         (set_nodes_formerly_allocated
                            (map (str_account pr) (nodes s)) s));
            env := Build_Env w f L (Some (l ++ [handle_of s])%list) tr |})
    | None =>
        (Raise (AttributeError "'context' object has no attribute 'services'"),
         {| self := set_nodes_formerly_allocated (map (str_account pr) (nodes s)) s;
            env := Build_Env w f L None tr |})
    end.
Proof.
  destruct S as [l|]; reflexivity.
Qed.

(** What [__init__] does when its request resolves to [spec] and the
    cluster serves it with the distinct, clean nodes [ns]. *)
Lemma init_served (num_nodes : option Z) (arg : option NodeSpec)
      (s : Service) (w w0 w1 : World) (f : Node -> option Logger) (L : Logger)
      (S : option (list Handle)) (tr : list Event) (t : Z)
      (spec : NodeSpec) (ns : list Node) :
  time_time ext w = (t, w0) ->
  setup_node_spec RemoteAccount (repr_str pr) num_nodes arg = Ok spec ->
  cluster_alloc ext spec w0 = (Ok ns, w1) ->
  NoDup ns ->
  (forall m, In m ns -> f m = None) ->
  match S with
  | Some l => forall h, In h l -> h_id h <> self_id s
  | None => True
  end ->
  exists f',
    (forall m, In m ns -> f' m = Some L)
    /\ (forall m, ~ In m ns -> f' m = f m)
    /\ __init__ num_nodes arg {| self := s; env := Build_Env w f L S tr |}
       = (s' <- get_self ;;
          modify_self (set_nodes_formerly_allocated (map (str_account pr) (nodes s'))) ;;;
          register_self ;;;
          modify_self (set_local_scratch_dir None) ;;;
          modify_self (set_initialized true))
           {| self := set_nodes ns (set_node_spec spec (init_timestamps t s));
              env := Build_Env w1 f' L S (tr ++ [Call_cluster_alloc spec]) |}.
Proof.
  intros Ht Hsetup Halloc Hnd Hclean Hfresh.
  set (s0 := set_nodes [] (set_node_spec spec (init_timestamps t s))).
  assert (Hid : identified s0 (Build_Env w0 f L S tr)).
  { destruct S as [l|].
    - eexists. apply (order_before_registration s0 _ l); [reflexivity | exact Hfresh |].
      reflexivity.
    - exists 0. reflexivity. }
  destruct (allocate_nodes_clean_run {| self := s0; env := Build_Env w0 f L S tr |}
              ns w1 eq_refl Hid Halloc Hnd Hclean)
    as (Hok & Hself & Hw & Hbound & Hsame & Hlog & Hsvc & Hcalls).
  cbv zeta in *.
  destruct (allocate_nodes {| self := s0; env := Build_Env w0 f L S tr |})
    as [r [s1 [w1' f' L' S' tr']]] eqn:Hrun.
  cbn [fst snd self env world account_logger context_logger context_services calls] in *.
  subst r s1 w1' L' S' tr'.
  exists f'. split; [exact Hbound|]. split; [exact Hsame|].
  rewrite (init_run num_nodes arg s w w0 f L S tr t Ht), Hsetup.
  fold s0. rewrite (bind_ok _ _ _ _ _ Hrun).
  reflexivity.
Qed.


(** X12. Construction succeeds when the request resolves, the context
    has a registry that does not hold the new object yet, and the
    cluster serves the request with distinct, clean nodes. The instance
    then holds these nodes in the cluster's order with their identifiers
    recorded, its init time is the clock reading and its other
    timestamps and durations are -1, it is initialized and registered
    last in the registry, its order is the number of instances of its
    class registered before it, and the logger of each node is bound. *)
Theorem init_succeeds
    (num_nodes : option Z) (arg : option NodeSpec) (st : State World)
    (t : Z) (w0 w1 : World) (spec : NodeSpec) (ns : list Node) (l : list Handle) :
  time_time ext (world (env st)) = (t, w0) ->
  setup_node_spec RemoteAccount (repr_str pr) num_nodes arg = Ok spec ->
  context_services (env st) = Some l ->
  (forall h, In h l -> h_id h <> self_id (self st)) ->
  cluster_alloc ext spec w0 = (Ok ns, w1) ->
  NoDup ns ->
  (forall m, In m ns -> account_logger (env st) m = None) ->
  let st' := snd (__init__ num_nodes arg st) in
  fst (__init__ num_nodes arg st) = Ok tt
  /\ self st'
     = set_initialized true
         (set_local_scratch_dir None
            (set_nodes_formerly_allocated (map (str_account pr) ns)
               (set_nodes ns (set_node_spec spec (init_timestamps t (self st))))))
  /\ context_services (env st') = Some (l ++ [handle_of (self st)])%list
  /\ _order (self st') (env st')
     = Ok (len (filter (fun x => String.eqb (h_type x) (cls_name (self st))) l))
  /\ (forall m, In m ns -> account_logger (env st') m = Some (context_logger (env st)))
  /\ (forall m, ~ In m ns -> account_logger (env st') m = account_logger (env st) m)
  /\ calls (env st') = (calls (env st) ++ [Call_cluster_alloc spec])%list.
Proof.
  destruct st as [s [w f L S tr]].
  cbn [self env world account_logger context_logger context_services calls].
  intros Ht Hsetup HS Hfresh Halloc Hnd Hclean. subst S.
  destruct (init_served num_nodes arg s w w0 w1 f L (Some l) tr t spec ns
              Ht Hsetup Halloc Hnd Hclean Hfresh) as (f' & Hbound & Hsame & Hrun).
  rewrite Hrun, init_after_allocation.
  cbn [fst snd self env account_logger context_services calls].
  split; [reflexivity|]. split; [reflexivity|]. split; [reflexivity|].
  split; [|split; [exact Hbound | split; [exact Hsame | reflexivity]]].
  match goal with
  | |- _order ?s' ?e' = _ => apply (order_is_position s' e' l [])
  end; [reflexivity | exact Hfresh].
Qed.

(** X13. When the context has no registry, construction fails only at
    registration, with [AttributeError], after the nodes were allocated:
    the instance holds the nodes, their loggers are bound, and nothing
    has returned them to the cluster. *)
Theorem init_without_registry_keeps_nodes
    (num_nodes : option Z) (arg : option NodeSpec) (st : State World)
    (t : Z) (w0 w1 : World) (spec : NodeSpec) (ns : list Node) :
  time_time ext (world (env st)) = (t, w0) ->
  setup_node_spec RemoteAccount (repr_str pr) num_nodes arg = Ok spec ->
  context_services (env st) = None ->
  cluster_alloc ext spec w0 = (Ok ns, w1) ->
  NoDup ns ->
  (forall m, In m ns -> account_logger (env st) m = None) ->
  let st' := snd (__init__ num_nodes arg st) in
  fst (__init__ num_nodes arg st)
  = Raise (AttributeError "'context' object has no attribute 'services'")
  /\ nodes (self st') = ns
  /\ _initialized (self st') = false
  /\ (forall m, In m ns -> account_logger (env st') m = Some (context_logger (env st)))
  /\ world (env st') = w1
  /\ calls (env st') = (calls (env st) ++ [Call_cluster_alloc spec])%list.
Proof.
  destruct st as [s [w f L S tr]].
  cbn [self env world account_logger context_logger context_services calls].
  intros Ht Hsetup HS Halloc Hnd Hclean. subst S.
  destruct (init_served num_nodes arg s w w0 w1 f L None tr t spec ns
              Ht Hsetup Halloc Hnd Hclean I) as (f' & Hbound & Hsame & Hrun).
  rewrite Hrun, init_after_allocation.
  cbn [fst snd self env world account_logger calls].
  repeat split. exact Hbound.
Qed.


(** ** Stop and clean *)

Lemma runs_nodes_calls (hook : Node -> World -> result unit * World) (ev : Node -> Event)
      (ns : list Node) (w w' : World) (out : option exn) (tr : list Event) :
  runs_nodes hook ev ns w out tr w' ->
  match out with
  | None => tr = map ev ns
  | Some _ => exists pre node post,
      ns = (pre ++ node :: post)%list /\ tr = map ev (pre ++ [node])
  end.
Proof.
  induction 1 as [w | node rest w w1 w' out tr Hnode Hrest IH | node rest w w1 e Hnode].
  - reflexivity.
  - destruct out as [e|].
    + destruct IH as (pre & n & post & -> & ->).
      exists (node :: pre), n, post. split; reflexivity.
    + now subst.
  - exists [], node, rest. split; reflexivity.
Qed.

Lemma stop_nodes_loop (s : Service) (f : Node -> option Logger) (L : Logger)
      (S : option (list Handle)) (ns : list Node) :
  forall (w : World) (tr : list Event),
    identified s (Build_Env w f L S tr) ->
    exists w' tr' out,
      runs_nodes (stop_node hooks s) Call_stop_node ns w out tr' w'
      /\ for_each ns
           (fun node =>
              logger_call (who_am_i (Some node)) ;;;
              call_stop_node node)
           {| self := s; env := Build_Env w f L S tr |}
         = (match out with
            | None => Ok tt
            | Some e => Raise e
            end,
            {| self := s; env := Build_Env w' f L S (tr ++ tr') |}).
Proof.
  induction ns as [|x ns IH]; intros w tr Hid.
  - exists w, [], None. split; [constructor | simpl; now rewrite app_nil_r].
  - destruct (stop_node hooks s x w) as [[[]|e] w1] eqn:Hhook.
    + destruct (IH w1 (tr ++ [Call_stop_node x])%list)
        as (w' & tr' & out & Hspec & Hrun).
      { eapply identified_frame; [|exact Hid]. reflexivity. }
      exists w', (Call_stop_node x :: tr'), out. split.
      * econstructor; eassumption.
      * replace (tr ++ Call_stop_node x :: tr')%list
          with ((tr ++ [Call_stop_node x]) ++ tr')%list
          by (rewrite <- app_assoc; reflexivity).
        simpl for_each. unfold bind at 1. unfold bind at 1.
        rewrite (logger_call_identified (Some x) _ _ Hid).
        unfold call_stop_node, bind, get_self, modify_env.
        unfold external at 1. cbn [self env world log_call set_world].
        rewrite Hhook. exact Hrun.
    + exists w1, [Call_stop_node x], (Some e). split.
      * now constructor.
      * simpl for_each. unfold bind at 1. unfold bind at 1.
        rewrite (logger_call_identified (Some x) _ _ Hid).
        unfold call_stop_node, bind, get_self, modify_env.
        unfold external at 1. cbn [self env world log_call set_world].
        rewrite Hhook. reflexivity.
Qed.

Lemma clean_nodes_loop (s : Service) (f : Node -> option Logger) (L : Logger)
      (S : option (list Handle)) (ns : list Node) :
  forall (w : World) (tr : list Event),
    identified s (Build_Env w f L S tr) ->
    exists w' tr' out,
      runs_nodes (clean_node hooks s) Call_clean_node ns w out tr' w'
      /\ for_each ns
           (fun node =>
              logger_call (who_am_i (Some node)) ;;;
              call_clean_node node)
           {| self := s; env := Build_Env w f L S tr |}
         = (match out with
            | None => Ok tt
            | Some e => Raise e
            end,
            {| self := s; env := Build_Env w' f L S (tr ++ tr') |}).
Proof.
  induction ns as [|x ns IH]; intros w tr Hid.
  - exists w, [], None. split; [constructor | simpl; now rewrite app_nil_r].
  - destruct (clean_node hooks s x w) as [[[]|e] w1] eqn:Hhook.
    + destruct (IH w1 (tr ++ [Call_clean_node x])%list)
        as (w' & tr' & out & Hspec & Hrun).
      { eapply identified_frame; [|exact Hid]. reflexivity. }
      exists w', (Call_clean_node x :: tr'), out. split.
      * econstructor; eassumption.
      * replace (tr ++ Call_clean_node x :: tr')%list
          with ((tr ++ [Call_clean_node x]) ++ tr')%list
          by (rewrite <- app_assoc; reflexivity).
        simpl for_each. unfold bind at 1. unfold bind at 1.
        rewrite (logger_call_identified (Some x) _ _ Hid).
        unfold call_clean_node, bind, get_self, modify_env.
        unfold external at 1. cbn [self env world log_call set_world].
        rewrite Hhook. exact Hrun.
    + exists w1, [Call_clean_node x], (Some e). split.
      * now constructor.
      * simpl for_each. unfold bind at 1. unfold bind at 1.
        rewrite (logger_call_identified (Some x) _ _ Hid).
        unfold call_clean_node, bind, get_self, modify_env.
        unfold external at 1. cbn [self env world log_call set_world].
        rewrite Hhook. reflexivity.
Qed.

(** [stop] as a whole. *)
Lemma stop_run (s : Service) (w : World) (f : Node -> option Logger)
      (L : Logger) (S : option (list Handle)) (tr : list Event) :
  identified s (Build_Env w f L S tr) ->
  exists w2 tr' out,
    runs_nodes (stop_node hooks (set_stop_time (fst (time_time ext w)) s))
               Call_stop_node (nodes s) (snd (time_time ext w)) out tr' w2
    /\ stop {| self := s; env := Build_Env w f L S tr |}
       = match out with
         | Some e =>
             (Raise e,
              {| self := set_stop_time (fst (time_time ext w)) s;
                 env := Build_Env w2 f L S (tr ++ tr') |})
         | None =>
             (Ok tt,
              {| self := set_stop_duration_seconds
                           (fst (time_time ext w2) - fst (time_time ext w))
                           (set_stop_time (fst (time_time ext w)) s);
                 env := Build_Env (snd (time_time ext w2)) f L S (tr ++ tr') |})
         end.
Proof.
  intros Hid. destruct (time_time ext w) as [t w0] eqn:Ht. cbn [fst snd].
  set (s1 := set_stop_time t s).
  assert (Hid1 : identified s1 (Build_Env w0 f L S tr)).
  { apply (identified_self s s1); try reflexivity.
    eapply identified_frame; [|exact Hid]. reflexivity. }
  destruct (stop_nodes_loop s1 f L S (nodes s) w0 tr Hid1)
    as (w2 & tr' & out & Hspec & Hrun).
  exists w2, tr', out. split; [exact Hspec|].
  unfold stop.
  rewrite (bind_ok _ _ _ _ _ (time_run s w w0 f L S tr t Ht)).
  rewrite bind_modify_self. cbn [self env]. fold s1.
  rewrite (bind_ok _ _ _ _ _ (logger_call_identified None _ _ Hid1)).
  unfold bind at 1. unfold get_self at 1. cbn [self].
  change (nodes s1) with (nodes s).
  destruct out as [e|].
  - now rewrite (bind_raise _ _ _ _ _ Hrun).
  - rewrite (bind_ok _ _ _ _ _ Hrun).
    destruct (time_time ext w2) as [t' w3] eqn:Ht'. cbn [fst snd].
    rewrite (bind_ok _ _ _ _ _ (time_run s1 w2 w3 f L S _ t' Ht')).
    reflexivity.
Qed.

(** X14. [stop] records the stop time on every call: whatever it was, it
    becomes the clock reading taken on entry, also when [stop_node]
    fails. [stop_node] is called on the nodes in order; its first
    failure is raised by [stop], with the later nodes left running and
    the stop duration left as it was; when all calls return, the stop
    duration is the final clock reading minus the stop time. *)
Theorem stop_records_times_and_propagates (st : State World) :
  identified (self st) (env st) ->
  let st' := snd (stop st) in
  exists w2 tr' out,
    runs_nodes (stop_node hooks
                  (set_stop_time (fst (time_time ext (world (env st)))) (self st)))
               Call_stop_node (nodes (self st))
               (snd (time_time ext (world (env st)))) out tr' w2
    /\ _stop_time (self st') = fst (time_time ext (world (env st)))
    /\ calls (env st') = (calls (env st) ++ tr')%list
    /\ match out with
       | Some e =>
           fst (stop st) = Raise e
           /\ _stop_duration_seconds (self st') = _stop_duration_seconds (self st)
           /\ exists pre node post,
               nodes (self st) = (pre ++ node :: post)%list
               /\ tr' = map Call_stop_node (pre ++ [node])
       | None =>
           fst (stop st) = Ok tt
           /\ _stop_duration_seconds (self st')
              = fst (time_time ext w2) - _stop_time (self st')
           /\ tr' = map Call_stop_node (nodes (self st))
       end.
Proof.
  destruct st as [s [w f L S tr]]. cbn [self env world calls]. intros Hid.
  destruct (stop_run s w f L S tr Hid) as (w2 & tr' & out & Hspec & Hrun).
  exists w2, tr', out. split; [exact Hspec|].
  rewrite Hrun. pose proof (runs_nodes_calls _ _ _ _ _ _ _ Hspec) as Hcalls.
  destruct out as [e|]; cbn [fst snd self env calls]; repeat split; assumption.
Qed.

(** [clean] as a whole. *)
Lemma clean_run (s : Service) (w : World) (f : Node -> option Logger)
      (L : Logger) (S : option (list Handle)) (tr : list Event) :
  identified s (Build_Env w f L S tr) ->
  exists w2 tr' out,
    runs_nodes (clean_node hooks (set_clean_time (fst (time_time ext w)) s))
               Call_clean_node (nodes s) (snd (time_time ext w)) out tr' w2
    /\ clean {| self := s; env := Build_Env w f L S tr |}
       = (match out with
          | Some e => Raise e
          | None => Ok tt
          end,
          {| self := set_clean_time (fst (time_time ext w)) s;
             env := Build_Env w2 f L S (tr ++ tr') |}).
Proof.
  intros Hid. destruct (time_time ext w) as [t w0] eqn:Ht. cbn [fst snd].
  set (s1 := set_clean_time t s).
  assert (Hid1 : identified s1 (Build_Env w0 f L S tr)).
  { apply (identified_self s s1); try reflexivity.
    eapply identified_frame; [|exact Hid]. reflexivity. }
  destruct (clean_nodes_loop s1 f L S (nodes s) w0 tr Hid1)
    as (w2 & tr' & out & Hspec & Hrun).
  exists w2, tr', out. split; [exact Hspec|].
  unfold clean.
  rewrite (bind_ok _ _ _ _ _ (time_run s w w0 f L S tr t Ht)).
  rewrite bind_modify_self. cbn [self env]. fold s1.
  rewrite (bind_ok _ _ _ _ _ (logger_call_identified None _ _ Hid1)).
  unfold bind at 1. unfold get_self at 1. cbn [self].
  change (nodes s1) with (nodes s).
  rewrite Hrun. now destruct out.
Qed.

(** X15. [clean] records the clean time on every call, as the clock
    reading taken on entry, and calls [clean_node] on the nodes in
    order; unlike the pre-cleanup pass of [start], it raises the first
    failure of [clean_node] and leaves the later nodes uncleaned. *)
Theorem clean_records_time_and_propagates (st : State World) :
  identified (self st) (env st) ->
  let st' := snd (clean st) in
  exists w2 tr' out,
    runs_nodes (clean_node hooks
                  (set_clean_time (fst (time_time ext (world (env st)))) (self st)))
               Call_clean_node (nodes (self st))
               (snd (time_time ext (world (env st)))) out tr' w2
    /\ _clean_time (self st') = fst (time_time ext (world (env st)))
    /\ calls (env st') = (calls (env st) ++ tr')%list
    /\ world (env st') = w2
    /\ match out with
       | Some e =>
           fst (clean st) = Raise e
           /\ exists pre node post,
               nodes (self st) = (pre ++ node :: post)%list
               /\ tr' = map Call_clean_node (pre ++ [node])
       | None =>
           fst (clean st) = Ok tt
           /\ tr' = map Call_clean_node (nodes (self st))
       end.
Proof.
  destruct st as [s [w f L S tr]]. cbn [self env world calls]. intros Hid.
  destruct (clean_run s w f L S tr Hid) as (w2 & tr' & out & Hspec & Hrun).
  exists w2, tr', out. split; [exact Hspec|].
  rewrite Hrun. pose proof (runs_nodes_calls _ _ _ _ _ _ _ Hspec) as Hcalls.
  destruct out as [e|]; cbn [fst snd self env calls world]; repeat split; assumption.
Qed.


(** ** What the lifecycle leaves alone *)

Lemma keeps_bind_any {A B} (I : State World -> Prop) (m : M A) (k : A -> M B) :
  keeps I m -> (forall a, keeps I (k a)) -> keeps I (bind m k).
Proof.
  intros Hm Hk st HI. unfold bind. specialize (Hm st HI).
  destruct (m st) as [[a|e] st1]; simpl in *; [now apply Hk | exact Hm].
Qed.

Lemma keeps_for_each_any {A} (I : State World -> Prop) (xs : list A) (body : A -> M unit) :
  (forall x, keeps I (body x)) -> keeps I (for_each xs body).
Proof.
  intros H st HI. apply for_each_invariant; [|exact HI].
  intros x st0. apply H.
Qed.

Lemma keeps_try_pass_any (I : State World -> Prop) (m : M unit) :
  keeps I m -> keeps I (try_pass m).
Proof.
  intros Hm st HI. specialize (Hm st HI). unfold try_pass.
  now destruct (m st).
Qed.

Section Frame.

(** An invariant of the state that does not read the outside world nor
    the log of the calls. *)
Variable I : State World -> Prop.
Hypothesis I_env :
  forall s e e',
    (forall m, account_logger e' m = account_logger e m) ->
    context_logger e' = context_logger e ->
    context_services e' = context_services e ->
    I {| self := s; env := e |} -> I {| self := s; env := e' |}.

(** The assignments that the lifecycle makes. *)
Definition kept_by (g : Service -> Service) : Prop :=
  forall s e, I {| self := s; env := e |} -> I {| self := g s; env := e |}.

Lemma frame_read {A} (m : M A) :
  (forall st, snd (m st) = st) -> keeps I m.
Proof.
  intros H st HI. now rewrite H.
Qed.

Lemma frame_modify_self (g : Service -> Service) :
  kept_by g -> keeps I (modify_self g).
Proof.
  intros Hg [s e] HI. exact (Hg s e HI).
Qed.

Lemma frame_log_call (ev : Event) : keeps I (modify_env (log_call ev)).
Proof.
  intros [s e] HI. apply (I_env s e); [reflexivity.. | exact HI].
Qed.

Lemma frame_external {A} (op : World -> result A * World) : keeps I (external op).
Proof.
  intros [s e] HI. unfold external. cbn [self env].
  destruct (op (world e)) as [r w']. apply (I_env s e); [reflexivity.. | exact HI].
Qed.

Lemma frame_time : keeps I time.
Proof.
  apply frame_external.
Qed.

Lemma frame_logger_call (msg : Service -> Env World -> result string) :
  keeps I (logger_call msg).
Proof.
  apply frame_read. intros st. unfold logger_call, bind, eval.
  now destruct (msg (self st) (env st)).
Qed.

Lemma frame_call_start_node (node : Node) : keeps I (call_start_node node).
Proof.
  unfold call_start_node. apply keeps_bind_any; [now apply frame_read|].
  intros s. apply keeps_bind_any; [apply frame_log_call|].
  intros _. apply frame_external.
Qed.

Lemma frame_call_stop_node (node : Node) : keeps I (call_stop_node node).
Proof.
  unfold call_stop_node. apply keeps_bind_any; [now apply frame_read|].
  intros s. apply keeps_bind_any; [apply frame_log_call|].
  intros _. apply frame_external.
Qed.

Lemma frame_call_clean_node (node : Node) : keeps I (call_clean_node node).
Proof.
  unfold call_clean_node. apply keeps_bind_any; [now apply frame_read|].
  intros s. apply keeps_bind_any; [apply frame_log_call|].
  intros _. apply frame_external.
Qed.

Lemma frame_call_wait_node (node : Node) (timeout_sec : Z) :
  keeps I (call_wait_node node timeout_sec).
Proof.
  unfold call_wait_node. apply keeps_bind_any; [now apply frame_read|].
  intros s. apply keeps_bind_any; [apply frame_log_call|].
  intros _. apply frame_external.
Qed.

Lemma frame_start :
  (forall t, kept_by (set_start_time t)) ->
  (forall d, kept_by (set_start_duration_seconds d)) ->
  keeps I start.
Proof.
  intros Htime Hdur. unfold start.
  apply keeps_bind_any; [apply frame_logger_call|]. intros _.
  apply keeps_bind_any.
  { unfold set_start_time_once. apply keeps_bind_any; [now apply frame_read|].
    intros s. destruct (_start_time s <? 0); [|now apply frame_read].
    apply keeps_bind_any; [apply frame_time|].
    intros t. apply frame_modify_self, Htime. }
  intros _. apply keeps_bind_any; [apply frame_logger_call|]. intros _.
  apply keeps_bind_any.
  { unfold pre_cleanup. apply keeps_bind_any; [now apply frame_read|].
    intros s. apply keeps_for_each_any. intros node.
    apply keeps_bind_any; [apply keeps_try_pass_any, frame_call_stop_node|].
    intros _. apply keeps_try_pass_any, frame_call_clean_node. }
  intros _. apply keeps_bind_any.
  { unfold start_all_nodes. apply keeps_bind_any; [now apply frame_read|].
    intros s. apply keeps_for_each_any. intros node.
    apply keeps_bind_any; [apply frame_logger_call|].
    intros _. apply frame_call_start_node. }
  intros _. unfold set_start_duration_once.
  apply keeps_bind_any; [now apply frame_read|].
  intros s. destruct (_start_duration_seconds s <? 0); [|now apply frame_read].
  apply keeps_bind_any; [apply frame_time|].
  intros t. apply frame_modify_self, Hdur.
Qed.

Lemma frame_wait_loop (ns : list Node) (end_ : Z) :
  forall acc, keeps I (wait_loop ns end_ acc).
Proof.
  induction ns as [|x ns IH]; intros acc; [now apply frame_read|].
  cbn [wait_loop]. apply keeps_bind_any; [apply frame_time|].
  intros now. destruct (end_ >? now); [|apply IH].
  apply keeps_bind_any; [apply frame_logger_call|]. intros _.
  apply keeps_bind_any; [apply frame_call_wait_node|].
  intros finished. destruct (negb finished); apply IH.
Qed.

Lemma frame_wait (timeout_sec : Z) : keeps I (wait timeout_sec).
Proof.
  unfold wait. apply keeps_bind_any; [apply frame_time|].
  intros t. apply keeps_bind_any; [now apply frame_read|].
  intros s. apply keeps_bind_any; [apply frame_wait_loop|].
  intros [|n u]; now apply frame_read.
Qed.

Lemma frame_stop :
  (forall t, kept_by (set_stop_time t)) ->
  (forall d, kept_by (set_stop_duration_seconds d)) ->
  keeps I stop.
Proof.
  intros Htime Hdur.
  unfold stop. apply keeps_bind_any; [apply frame_time|].
  intros t. apply keeps_bind_any; [apply frame_modify_self, Htime|].
  intros _. apply keeps_bind_any; [apply frame_logger_call|].
  intros _. apply keeps_bind_any; [now apply frame_read|].
  intros s. apply keeps_bind_any.
  { apply keeps_for_each_any. intros node.
    apply keeps_bind_any; [apply frame_logger_call|].
    intros _. apply frame_call_stop_node. }
  intros _. apply keeps_bind_any; [apply frame_time|].
  intros t'. apply keeps_bind_any; [now apply frame_read|].
  intros s'. apply frame_modify_self, Hdur.
Qed.

Lemma frame_clean :
  (forall t, kept_by (set_clean_time t)) ->
  keeps I clean.
Proof.
  intros Htime.
  unfold clean. apply keeps_bind_any; [apply frame_time|].
  intros t. apply keeps_bind_any; [apply frame_modify_self, Htime|].
  intros _. apply keeps_bind_any; [apply frame_logger_call|].
  intros _. apply keeps_bind_any; [now apply frame_read|].
  intros s. apply keeps_for_each_any. intros node.
  apply keeps_bind_any; [apply frame_logger_call|].
  intros _. apply frame_call_clean_node.
Qed.

End Frame.

Lemma same_allocation_refl (st : State World) : same_allocation st st.
Proof.
  repeat split.
Qed.

Lemma same_allocation_env (st0 : State World) (s : Service) (e e' : Env World) :
  (forall m, account_logger e' m = account_logger e m) ->
  context_logger e' = context_logger e ->
  context_services e' = context_services e ->
  same_allocation st0 {| self := s; env := e |} ->
  same_allocation st0 {| self := s; env := e' |}.
Proof.
  intros Hl Hc Hs (H1 & H2 & H3 & H4 & H5 & H6 & H7).
  unfold same_allocation. cbn [self env] in *.
  repeat split; try assumption; try congruence.
Qed.

Lemma same_allocation_timestamp (st0 : State World) (g : Service -> Service) :
  (forall s, nodes (g s) = nodes s /\ node_spec (g s) = node_spec s
             /\ _nodes_formerly_allocated (g s) = _nodes_formerly_allocated s
             /\ _initialized (g s) = _initialized s) ->
  kept_by (same_allocation st0) g.
Proof.
  intros Hg s e (H1 & H2 & H3 & H4 & H5 & H6 & H7).
  destruct (Hg s) as (G1 & G2 & G3 & G4).
  unfold same_allocation. cbn [self env] in *.
  rewrite G1, G2, G3, G4. repeat split; assumption.
Qed.

(** X16. The lifecycle leaves the allocation alone. Whether they return
    or raise, and whatever the hooks do to the outside world, [start],
    [wait], [stop], [clean] and [run] change neither the nodes that the
    instance holds, nor its node spec, nor the recorded node
    identifiers, nor the logger slot of any node, nor the registry. *)
Theorem lifecycle_keeps_allocation (st : State World) (timeout_sec : Z) :
  same_allocation st (snd (start st))
  /\ same_allocation st (snd (wait timeout_sec st))
  /\ same_allocation st (snd (stop st))
  /\ same_allocation st (snd (clean st))
  /\ same_allocation st (snd (run st)).
Proof.
  pose proof (same_allocation_refl st) as H.
  pose proof (same_allocation_env st) as He.
  assert (Hstart : keeps (same_allocation st) start)
    by (apply frame_start; [exact He | intros t | intros d];
        now apply same_allocation_timestamp).
  assert (Hwait : forall t, keeps (same_allocation st) (wait t))
    by (intros t; apply frame_wait; exact He).
  assert (Hstop : keeps (same_allocation st) stop)
    by (apply frame_stop; [exact He | intros t | intros d];
        now apply same_allocation_timestamp).
  assert (Hclean : keeps (same_allocation st) clean)
    by (apply frame_clean; [exact He | intros t];
        now apply same_allocation_timestamp).
  split; [exact (Hstart st H)|]. split; [exact (Hwait timeout_sec st H)|].
  split; [exact (Hstop st H)|]. split; [exact (Hclean st H)|].
  unfold run.
  apply (keeps_bind_any (same_allocation st)); [exact Hstart | | exact H].
  intros _. apply keeps_bind_any; [apply Hwait | intros _; exact Hstop].
Qed.


(** ** Wait: a budget that is used up *)

Section WallClock.

(** The clock is a wall clock that a reading never sets back. *)
Variable wall : World -> Z.
Hypothesis reading_wall :
  forall w, wall w <= fst (time_time ext w) <= wall (snd (time_time ext w)).

(** The loop of [wait] once the deadline has passed: every node left is
    marked unfinished and [wait_node] is not called. *)
Lemma wait_loop_exhausted (s : Service) (f : Node -> option Logger) (L : Logger)
      (S : option (list Handle)) (deadline : Z) (ns : list Node) :
  forall (w : World) (tr : list Event) (acc : list Node),
    deadline <= wall w ->
    exists w',
      wait_loop ns deadline acc {| self := s; env := Build_Env w f L S tr |}
      = (Ok (acc ++ ns)%list, {| self := s; env := Build_Env w' f L S tr |})
      /\ wall w <= wall w'.
Proof.
  induction ns as [|x ns IH]; intros w tr acc Hw.
  - exists w. cbn [wait_loop]. rewrite app_nil_r. split; [reflexivity | lia].
  - destruct (time_time ext w) as [now w1] eqn:Ht.
    pose proof (reading_wall w) as Hr. rewrite Ht in Hr. cbn [fst snd] in Hr.
    destruct (IH w1 tr (acc ++ [x])%list) as (w' & Hrun & Hle); [lia|].
    exists w'. split; [|lia].
    cbn [wait_loop]. rewrite (bind_ok _ _ _ _ _ (time_run s w w1 f L S tr now Ht)).
    rewrite Z.gtb_ltb. destruct (now <? deadline) eqn:Hlt;
      [apply Z.ltb_lt in Hlt; lia|].
    rewrite Hrun, <- app_assoc. reflexivity.
Qed.

(** X17. [wait] with a timeout that is zero or negative waits for no
    node: with a clock that is not set back, [wait_node] is never
    called, and [wait] raises a [TimeoutError] that lists all the nodes
    of the instance, or returns when the instance has none. *)
Theorem wait_without_budget (st : State World) (timeout_sec : Z) :
  timeout_sec <= 0 ->
  let st' := snd (wait timeout_sec st) in
  fst (wait timeout_sec st)
  = match nodes (self st) with
    | [] => Ok tt
    | _ :: _ => Raise (TimeoutError (timeout_msg timeout_sec (nodes (self st))))
    end
  /\ calls (env st') = calls (env st)
  /\ self st' = self st.
Proof.
  destruct st as [s [w f L S tr]]. cbn [self env calls]. intros Hneg.
  destruct (time_time ext w) as [t w0] eqn:Ht.
  pose proof (reading_wall w) as Hr. rewrite Ht in Hr. cbn [fst snd] in Hr.
  destruct (wait_loop_exhausted s f L S (t + timeout_sec) (nodes s) w0 tr [])
    as (w' & Hrun & _); [lia|].
  assert (Hwait : wait timeout_sec {| self := s; env := Build_Env w f L S tr |}
                  = (match nodes s with
                     | [] => Ok tt
                     | _ :: _ => Raise (TimeoutError (timeout_msg timeout_sec (nodes s)))
                     end,
                     {| self := s; env := Build_Env w' f L S tr |})).
  { unfold wait. rewrite (bind_ok _ _ _ _ _ (time_run s w w0 f L S tr t Ht)).
    unfold bind at 1. unfold get_self at 1. cbn [self].
    unfold bind at 1. rewrite Hrun. cbn [app].
    destruct (nodes s); reflexivity. }
  rewrite Hwait. repeat split.
Qed.

(** X18. The timeout of [wait] is one budget for all the nodes. When
    [wait_node] on the first node answers false only once the deadline
    has passed, [wait_node] is called on no other node, and the
    [TimeoutError] lists every node of the instance: the first one and
    all those that were never waited for. *)
Theorem wait_first_node_uses_budget
    (st : State World) (timeout_sec : Z) (node : Node) (rest : list Node) (w2 : World) :
  identified (self st) (env st) ->
  nodes (self st) = node :: rest ->
  let deadline := fst (time_time ext (world (env st))) + timeout_sec in
  let w0 := snd (time_time ext (world (env st))) in
  let now := fst (time_time ext w0) in
  now < deadline ->
  wait_node hooks (self st) node (deadline - now) (snd (time_time ext w0))
    = (Ok false, w2) ->
  deadline <= wall w2 ->
  fst (wait timeout_sec st)
  = Raise (TimeoutError (timeout_msg timeout_sec (node :: rest)))
  /\ calls (env (snd (wait timeout_sec st)))
     = (calls (env st) ++ [Call_wait_node node (deadline - now)])%list.
Proof.
  destruct st as [s [w f L S tr]]. cbn [self env world calls].
  intros Hid Hs. cbv zeta.
  destruct (time_time ext w) as [t w0] eqn:Ht. cbn [fst snd].
  destruct (time_time ext w0) as [now w1] eqn:Hnow. cbn [fst snd].
  intros Hlt Hwait Hw2.
  set (deadline := t + timeout_sec) in *.
  assert (Hid1 : identified s (Build_Env w1 f L S tr))
    by (eapply identified_frame; [|exact Hid]; reflexivity).
  destruct (wait_loop_exhausted s f L S deadline rest w2
              (tr ++ [Call_wait_node node (deadline - now)]) [node] Hw2)
    as (w' & Hrun & _).
  assert (Hst : wait timeout_sec {| self := s; env := Build_Env w f L S tr |}
                = (Raise (TimeoutError (timeout_msg timeout_sec (node :: rest))),
                   {| self := s;
                      env := Build_Env w' f L S
                               (tr ++ [Call_wait_node node (deadline - now)]) |})).
  { unfold wait. rewrite (bind_ok _ _ _ _ _ (time_run s w w0 f L S tr t Ht)).
    unfold bind at 1. unfold get_self at 1. cbn [self]. rewrite Hs.
    fold deadline. unfold bind at 1. cbn [wait_loop].
    rewrite (bind_ok _ _ _ _ _ (time_run s w0 w1 f L S tr now Hnow)).
    rewrite Z.gtb_ltb, (proj2 (Z.ltb_lt now deadline) Hlt).
    rewrite (bind_ok _ _ _ _ _ (logger_call_identified (Some node) _ _ Hid1)).
    unfold bind at 1. unfold call_wait_node.
    unfold bind at 1. unfold get_self at 1.
    unfold bind at 1. unfold modify_env at 1. unfold external.
    cbn [self env world log_call]. rewrite Hwait. cbn [negb set_world app].
    unfold set_world, log_call.
    cbn [world account_logger context_logger context_services calls].
    rewrite Hrun. reflexivity. }
  rewrite Hst. split; reflexivity.
Qed.

End WallClock.


(** ** Run *)

Lemma start_wait_keep_stop_times (a b : Z) (timeout_sec : Z) :
  keeps (fun st => _stop_time (self st) = a /\ _stop_duration_seconds (self st) = b)
        (start ;;; wait timeout_sec).
Proof.
  set (I := fun st : State World =>
              _stop_time (self st) = a /\ _stop_duration_seconds (self st) = b).
  assert (He : forall s (e e' : Env World),
             (forall m, account_logger e' m = account_logger e m) ->
             context_logger e' = context_logger e ->
             context_services e' = context_services e ->
             I {| self := s; env := e |} -> I {| self := s; env := e' |})
    by (intros s e e' _ _ _ H; exact H).
  apply keeps_bind_any.
  - apply frame_start; [exact He | intros t s e H; exact H | intros d s e H; exact H].
  - intros _. apply frame_wait. exact He.
Qed.

(** X19. [run] is [start], [wait] with the default timeout of 600, then
    [stop], and it gives up at the first of them that raises. When
    [start] raises, nothing is waited for; when [wait] raises, for
    instance on a timeout, [stop] is not reached: [run] ends in the
    state that [wait] left, with the stop time and the stop duration
    untouched and no [stop_node] call made for the nodes that run. *)
Theorem run_gives_up_at_first_failure (st : State World) :
  (forall e, fst (start st) = Raise e -> run st = (Raise e, snd (start st)))
  /\ (forall e,
         fst (start st) = Ok tt ->
         fst (wait 600 (snd (start st))) = Raise e ->
         run st = (Raise e, snd (wait 600 (snd (start st))))
         /\ _stop_time (self (snd (run st))) = _stop_time (self st)
         /\ _stop_duration_seconds (self (snd (run st)))
            = _stop_duration_seconds (self st))
  /\ (fst (start st) = Ok tt ->
      fst (wait 600 (snd (start st))) = Ok tt ->
      run st = stop (snd (wait 600 (snd (start st))))).
Proof.
  unfold run. split; [|split].
  - intros e He. unfold bind at 1.
    destruct (start st) as [r st1]. cbn [fst snd] in *. now subst r.
  - intros e Hs Hw.
    assert (Hrun : (start ;;; wait 600 ;;; stop) st
                   = (Raise e, snd (wait 600 (snd (start st))))).
    { unfold bind at 1. destruct (start st) as [r st1]. cbn [fst snd] in *. subst r.
      unfold bind at 1. destruct (wait 600 st1) as [r st2]. cbn [fst snd] in *.
      now subst r. }
    rewrite Hrun. split; [reflexivity|]. cbn [snd].
    pose proof (start_wait_keep_stop_times
                  (_stop_time (self st)) (_stop_duration_seconds (self st)) 600
                  st (conj eq_refl eq_refl)) as Hkeep.
    unfold bind in Hkeep. destruct (start st) as [r st1]. cbn [fst snd] in *.
    subst r. exact Hkeep.
  - intros Hs Hw. unfold bind at 1. destruct (start st) as [r st1].
    cbn [fst snd] in *. subst r.
    unfold bind at 1. destruct (wait 600 st1) as [r st2]. cbn [fst snd] in *.
    now subst r.
Qed.


(** ** The scratch directory *)

Lemma local_scratch_dir_recorded (s : Service) (e : Env World) :
  truthy_path (_local_scratch_dir s) = true ->
  local_scratch_dir {| self := s; env := e |}
  = (Ok (_local_scratch_dir s), {| self := s; env := e |}).
Proof.
  intros H. unfold local_scratch_dir, bind, get_self, ret. cbn [self].
  rewrite H. reflexivity.
Qed.

(** X20. The scratch directory is made once. With a [mkdtemp] that
    never returns the empty path, an access to [local_scratch_dir] that
    returns has recorded the path it returns, and every later access
    returns the same path and changes nothing: no second directory is
    made. An access on an instance whose path is recorded already does
    not touch the file system at all. *)
Theorem local_scratch_dir_made_once (st : State World) (p : option string) :
  (forall w d w', mkdtemp fs w = (Ok d, w') -> d <> "") ->
  fst (local_scratch_dir st) = Ok p ->
  let st1 := snd (local_scratch_dir st) in
  truthy_path p = true
  /\ _local_scratch_dir (self st1) = p
  /\ local_scratch_dir st1 = (Ok p, st1)
  /\ (truthy_path (_local_scratch_dir (self st)) = true ->
      st1 = st /\ p = _local_scratch_dir (self st)).
Proof.
  destruct st as [s e]. intros Hmk. cbn [self].
  destruct (truthy_path (_local_scratch_dir s)) eqn:Htr.
  - rewrite (local_scratch_dir_recorded s e Htr). cbn [fst snd self].
    intros H. inversion H; subst p.
    repeat split; try assumption.
    apply (local_scratch_dir_recorded s e Htr).
  - assert (Hrun : local_scratch_dir {| self := s; env := e |}
                   = match mkdtemp fs (world e) with
                     | (Ok d, w') =>
                         (Ok (Some d),
                          {| self := set_local_scratch_dir (Some d) s;
                             env := set_world w' e |})
                     | (Raise x, w') =>
                         (Raise x, {| self := s; env := set_world w' e |})
                     end).
    { cbv [local_scratch_dir bind get_self ret external modify_self self env].
      rewrite Htr. cbn [negb].
      destruct (mkdtemp fs (world e)) as [[d|x] w']; reflexivity. }
    rewrite Hrun.
    destruct (mkdtemp fs (world e)) as [[d|x] w'] eqn:Hd; cbn [fst snd self env];
      [|discriminate].
    intros H. inversion H; subst p.
    assert (Hne : truthy_path (Some d) = true).
    { unfold truthy_path. apply negb_true_iff, String.eqb_neq.
      exact (Hmk _ _ _ Hd). }
    split; [exact Hne|]. split; [reflexivity|]. split; [|discriminate].
    apply (local_scratch_dir_recorded (set_local_scratch_dir (Some d) s)). exact Hne.
Qed.

(** X21. [close] removes the directory but does not forget its path: it
    never changes the instance, so an access to [local_scratch_dir]
    after [close] returns the recorded path again, of a directory that
    [close] may just have removed, and makes no new directory. *)
Theorem close_keeps_recorded_path (st : State World) :
  self (snd (close st)) = self st
  /\ (truthy_path (_local_scratch_dir (self st)) = true ->
      local_scratch_dir (snd (close st))
      = (Ok (_local_scratch_dir (self st)), snd (close st))).
Proof.
  destruct st as [s e]. cbn [self].
  assert (Hself : self (snd (close {| self := s; env := e |})) = s).
  { cbv [close bind get_self get_env ret external self env].
    destruct (_local_scratch_dir s) as [d|]; [|reflexivity].
    destruct (truthy_path (Some d) && path_exists fs d (world e)); [|reflexivity].
    now destruct (rmtree fs d (world e)). }
  split; [exact Hself|]. intros Htr.
  destruct (snd (close {| self := s; env := e |})) as [s1 e1]. cbn [self] in Hself.
  subst s1. now apply local_scratch_dir_recorded.
Qed.

Lemma close_nothing_to_remove (s : Service) (e : Env World) :
  (forall d, _local_scratch_dir s = Some d ->
             truthy_path (Some d) && path_exists fs d (world e) = false) ->
  close {| self := s; env := e |} = (Ok tt, {| self := s; env := e |}).
Proof.
  intros H. cbv [close bind get_self get_env ret self env].
  destruct (_local_scratch_dir s) as [d|]; [|reflexivity].
  now rewrite (H d eq_refl).
Qed.

(** X22. [close] can be called again. On an instance that never asked
    for its scratch directory, or whose directory does not exist,
    [close] does nothing. And when [rmtree] removes what it is given,
    a second [close] after one that returned does nothing either: it
    finds the directory gone and does not call [rmtree]. *)
Theorem close_twice (st : State World) :
  (forall d w w', rmtree fs d w = (Ok tt, w') -> path_exists fs d w' = false) ->
  ((forall d, _local_scratch_dir (self st) = Some d ->
              path_exists fs d (world (env st)) = false) ->
   close st = (Ok tt, st))
  /\ (fst (close st) = Ok tt ->
      close (snd (close st)) = (Ok tt, snd (close st))).
Proof.
  destruct st as [s e]. cbn [self env]. intros Hlaw. split.
  - intros H. apply close_nothing_to_remove. intros d Hd.
    rewrite (H d Hd). apply andb_false_r.
  - assert (Hrun : close {| self := s; env := e |}
                   = match _local_scratch_dir s with
                     | Some d =>
                         if truthy_path (Some d) && path_exists fs d (world e)
                         then (fst (rmtree fs d (world e)),
                               {| self := s;
                                  env := set_world (snd (rmtree fs d (world e))) e |})
                         else (Ok tt, {| self := s; env := e |})
                     | None => (Ok tt, {| self := s; env := e |})
                     end).
    { cbv [close bind get_self get_env ret external self env].
      destruct (_local_scratch_dir s) as [d|]; [|reflexivity].
      destruct (truthy_path (Some d) && path_exists fs d (world e)); [|reflexivity].
      now destruct (rmtree fs d (world e)). }
    rewrite Hrun.
    destruct (_local_scratch_dir s) as [d|] eqn:Hdir.
    + destruct (truthy_path (Some d) && path_exists fs d (world e)) eqn:Hc;
        cbn [fst snd].
      * destruct (rmtree fs d (world e)) as [[[]|x] w'] eqn:Hrm; cbn [fst snd];
          [|discriminate].
        intros _. apply close_nothing_to_remove. intros d' Hd'.
        rewrite Hdir in Hd'. inversion Hd'; subst d'.
        cbn [env world set_world]. rewrite (Hlaw _ _ _ Hrm). apply andb_false_r.
      * intros _. apply close_nothing_to_remove. intros d' Hd'.
        rewrite Hdir in Hd'. inversion Hd'; subst d'. exact Hc.
    + intros _. apply close_nothing_to_remove. intros d' Hd'. congruence.
Qed.

End ServiceModel.

Arguments object {World} _ _.
Arguments shared {World} _.
Arguments Build_Objects {World} _ _.

(** * The hooks of the base class *)

Section BaseClass.

Variable World : Type.
Variable pr : Printers.
Variable ext : Collaborators World.

(** The name of an instance depends on its class, its identity and its
    [_initialized] flag only. *)
Lemma service_id_same_identity (s s1 : Service) (e : Env World) :
  cls_name s1 = cls_name s -> self_id s1 = self_id s ->
  _initialized s1 = _initialized s ->
  service_id World s1 e = service_id World s e.
Proof.
  intros Hc Hi Hn. unfold service_id, _order, registered. now rewrite Hc, Hi, Hn.
Qed.

Lemma service_id_identified (s : Service) (e : Env World) (sid : string) :
  service_id World s e = Ok sid -> identified World s e.
Proof.
  unfold service_id, identified. destruct (_order World s e) as [o|x]; [|discriminate].
  intros _. now exists o.
Qed.

(** With the hooks of the base class the pre-cleanup pass makes all its
    calls and leaves the world alone. *)
Lemma base_pre_cleanup (e : Env World) (s : Service) (ns : list Node) (w w' : World)
      (tr : list Event) :
  runs_pre_cleanup World (base_hooks World pr e) s ns w tr w' ->
  w' = w /\ tr = pre_cleanup_calls ns.
Proof.
  induction 1 as [w | node rest w w1 w2 w' r1 r2 tr Hstop Hclean _ IH].
  - split; reflexivity.
  - cbn in Hstop, Hclean. injection Hstop as _ <-. injection Hclean as _ <-.
    destruct IH as [-> ->]. split; reflexivity.
Qed.

Lemma base_start_nodes (e : Env World) (s : Service) (sid : string) (node : Node)
      (rest : list Node) (w w' : World) (out : option exn) (tr : list Event) :
  service_id World s e = Ok sid ->
  runs_start_nodes World (base_hooks World pr e) s (node :: rest) w out tr w' ->
  out = Some (NotImplementedError (sid ++ ": subclasses must implement start_node."))
  /\ tr = [Call_start_node node] /\ w' = w.
Proof.
  intros Hsid H. inversion H as [| ? ? ? ? ? ? ? Hcall _ | ? ? ? ? ? Hcall]; subst;
    cbn in Hcall; unfold must_implement, who_am_i in Hcall; rewrite Hsid in Hcall.
  - discriminate.
  - injection Hcall as <- <-. repeat split.
Qed.

Lemma start_time_step_identity (s : Service) (w : World) (e : Env World) :
  service_id World (fst (start_time_step World ext s w)) e = service_id World s e
  /\ nodes (fst (start_time_step World ext s w)) = nodes s
  /\ _start_duration_seconds (fst (start_time_step World ext s w))
     = _start_duration_seconds s.
Proof.
  unfold start_time_step. destruct (_start_time s <? 0); [|now repeat split].
  destruct (time_time ext w) as [t w0]. cbn [fst]. repeat split.
Qed.

(** X23. [start] on an instance of the base class, which leaves
    [start_node] to its subclasses. On an instance that holds nodes,
    [start] raises the [NotImplementedError] of [start_node] at the
    first node, and [run] raises with it; before that the pre-cleanup
    pass was made on every node, the [NotImplementedError] of
    [stop_node] being swallowed each time. The outside world has changed
    by the clock reading only, and the start duration is not set. On an
    instance without nodes [start] returns and calls no hook. *)
Theorem base_class_start_raises (st : State World) (sid : string) :
  service_id World (self st) (env st) = Ok sid ->
  let hooks := base_hooks World pr (env st) in
  let st' := snd (start World pr hooks ext st) in
  (forall node rest,
      nodes (self st) = node :: rest ->
      fst (start World pr hooks ext st)
      = Raise (NotImplementedError (sid ++ ": subclasses must implement start_node."))
      /\ fst (run World pr hooks ext st) = fst (start World pr hooks ext st)
      /\ calls (env st')
         = (calls (env st) ++ pre_cleanup_calls (node :: rest)
              ++ [Call_start_node node])%list
      /\ world (env st') = snd (start_time_step World ext (self st) (world (env st)))
      /\ _start_duration_seconds (self st') = _start_duration_seconds (self st))
  /\ (nodes (self st) = [] ->
      fst (start World pr hooks ext st) = Ok tt /\ calls (env st') = calls (env st)).
Proof.
  destruct st as [s [w f L S tr]]. cbn [self env world calls]. intros Hsid.
  set (hooks := base_hooks World pr (Build_Env w f L S tr)).
  pose proof (service_id_identified _ _ _ Hsid) as Hid.
  destruct (start_run World pr hooks ext s w f L S tr Hid)
    as (w1 & w2 & tr1 & tr2 & out & Hpre & Hstart & Hrun).
  destruct (start_time_step_identity s w (Build_Env w f L S tr)) as (Hsid1 & Hnodes1 & Hdur1).
  apply base_pre_cleanup in Hpre. destruct Hpre as [-> ->].
  split.
  - intros node rest Hnodes. rewrite Hnodes in Hstart.
    apply (base_start_nodes _ _ sid) in Hstart; [|now rewrite Hsid1].
    destruct Hstart as (-> & -> & ->).
    assert (Hfst : fst (run World pr hooks ext {| self := s; env := Build_Env w f L S tr |})
                   = fst (start World pr hooks ext
                            {| self := s; env := Build_Env w f L S tr |})).
    { unfold run. unfold bind at 1. rewrite Hrun. reflexivity. }
    split; [now rewrite Hrun|]. split; [exact Hfst|].
    rewrite Hrun. cbn [snd self env calls world]. rewrite Hnodes.
    repeat split. exact Hdur1.
  - intros Hnodes. rewrite Hnodes in Hstart.
    inversion Hstart; subst. rewrite Hrun. cbn [fst snd self env calls].
    split; [reflexivity|]. rewrite Hnodes. cbn. now rewrite app_nil_r.
Qed.

Lemma base_stop_nodes (e : Env World) (s : Service) (sid : string) (node : Node)
      (rest : list Node) (w w' : World) (out : option exn) (tr : list Event) :
  service_id World s e = Ok sid ->
  runs_nodes World (stop_node (base_hooks World pr e) s) Call_stop_node
             (node :: rest) w out tr w' ->
  out = Some (NotImplementedError (sid ++ ": subclasses must implement stop_node."))
  /\ tr = [Call_stop_node node] /\ w' = w.
Proof.
  intros Hsid H. inversion H as [| ? ? ? ? ? ? ? Hcall _ | ? ? ? ? ? Hcall]; subst;
    cbn in Hcall; unfold must_implement, who_am_i in Hcall; rewrite Hsid in Hcall.
  - discriminate.
  - injection Hcall as <- <-. repeat split.
Qed.

Lemma base_clean_nodes (e : Env World) (s : Service) (sid : string) (ns : list Node)
      (w w' : World) (out : option exn) (tr : list Event) :
  service_id World s e = Ok sid ->
  runs_nodes World (clean_node (base_hooks World pr e) s) Call_clean_node ns w out tr w' ->
  out = None /\ tr = map Call_clean_node ns /\ w' = w.
Proof.
  intros Hsid. induction 1 as [w | node rest w w1 w' out tr Hcall _ IH
                               | node rest w w1 x Hcall].
  - repeat split.
  - cbn in Hcall. injection Hcall as _ <-. destruct IH as (-> & -> & ->). repeat split.
  - cbn in Hcall. unfold who_am_i in Hcall. rewrite Hsid in Hcall. discriminate.
Qed.

(** X24. [stop] and [clean] on an instance of the base class. On an
    instance that holds nodes, [stop] raises the [NotImplementedError] of
    [stop_node] at the first node. [clean] returns: [clean_node] of the
    base class only logs a warning, it is called on every node in
    order, and the outside world changes by the clock reading only. *)
Theorem base_class_stop_raises_clean_returns (st : State World) (sid : string) :
  service_id World (self st) (env st) = Ok sid ->
  let hooks := base_hooks World pr (env st) in
  (forall node rest,
      nodes (self st) = node :: rest ->
      fst (stop World pr hooks ext st)
      = Raise (NotImplementedError (sid ++ ": subclasses must implement stop_node."))
      /\ calls (env (snd (stop World pr hooks ext st)))
         = (calls (env st) ++ [Call_stop_node node])%list)
  /\ fst (clean World pr hooks ext st) = Ok tt
  /\ calls (env (snd (clean World pr hooks ext st)))
     = (calls (env st) ++ map Call_clean_node (nodes (self st)))%list
  /\ world (env (snd (clean World pr hooks ext st)))
     = snd (time_time ext (world (env st))).
Proof.
  destruct st as [s [w f L S tr]]. cbn [self env world calls]. intros Hsid.
  set (hooks := base_hooks World pr (Build_Env w f L S tr)).
  pose proof (service_id_identified _ _ _ Hsid) as Hid.
  split.
  - intros node rest Hnodes.
    destruct (stop_run World pr hooks ext s w f L S tr Hid)
      as (w2 & tr' & out & Hstop & Hrun).
    rewrite Hnodes in Hstop. apply (base_stop_nodes _ _ sid) in Hstop.
    + destruct Hstop as (-> & -> & ->). rewrite Hrun. split; reflexivity.
    + rewrite <- Hsid. now apply service_id_same_identity.
  - destruct (clean_run World pr hooks ext s w f L S tr Hid)
      as (w2 & tr' & out & Hclean & Hrun).
    apply (base_clean_nodes _ _ sid) in Hclean.
    + destruct Hclean as (-> & -> & ->). rewrite Hrun. repeat split.
    + rewrite <- Hsid. now apply service_id_same_identity.
Qed.

(** X25. [wait] on an instance of the base class that holds nodes.
    When the clock leaves a positive budget for the first node, [wait]
    raises the [NotImplementedError] of [wait_node], not a
    [TimeoutError]: [wait_node] was called once, on the first node with
    the remaining budget, and the clock was read twice. *)
Theorem base_class_wait_raises (st : State World) (sid : string) (timeout_sec : Z)
        (node : Node) (rest : list Node) :
  service_id World (self st) (env st) = Ok sid ->
  nodes (self st) = node :: rest ->
  let hooks := base_hooks World pr (env st) in
  let deadline := fst (time_time ext (world (env st))) + timeout_sec in
  let now := fst (time_time ext (snd (time_time ext (world (env st))))) in
  now < deadline ->
  fst (wait World pr hooks ext timeout_sec st)
  = Raise (NotImplementedError (sid ++ ": subclasses must implement wait_node."))
  /\ calls (env (snd (wait World pr hooks ext timeout_sec st)))
     = (calls (env st) ++ [Call_wait_node node (deadline - now)])%list
  /\ world (env (snd (wait World pr hooks ext timeout_sec st)))
     = snd (time_time ext (snd (time_time ext (world (env st))))).
Proof.
  destruct st as [s [w f L S tr]]. cbn [self env world calls]. intros Hsid Hnodes.
  set (hooks := base_hooks World pr (Build_Env w f L S tr)).
  pose proof (service_id_identified _ _ _ Hsid) as Hid.
  destruct (time_time ext w) as [start_ w0] eqn:Htime. cbn [fst snd].
  destruct (time_time ext w0) as [now w1] eqn:Hnow. cbn [fst snd]. intros Hbudget.
  destruct (wait_loop_run World pr hooks ext s f L S (start_ + timeout_sec) (nodes s)
              w0 tr []) as (w' & tr' & out & Hspec & Hrun).
  { eapply identified_frame; [|exact Hid]. reflexivity. }
  assert (Hout : out = Aborted (NotImplementedError
                                  (sid ++ ": subclasses must implement wait_node."))
                 /\ tr' = [Call_wait_node node (start_ + timeout_sec - now)]
                 /\ w' = w1).
  { rewrite Hnodes in Hspec.
    inversion Hspec as [| ? ? ? ? ? ? ? ? Ht Hb _
                        | ? ? ? ? ? ? ? ? ? Ht Hb Hcall _
                        | ? ? ? ? ? ? ? ? ? Ht Hb Hcall _
                        | ? ? ? ? ? ? ? Ht Hb Hcall]; subst;
      rewrite Hnow in Ht; injection Ht as <- <-; try lia;
      cbn in Hcall; unfold must_implement, who_am_i in Hcall; rewrite Hsid in Hcall;
      try discriminate.
    injection Hcall as <- <-. repeat split. }
  destruct Hout as (-> & -> & ->).
  assert (Hwait : wait World pr hooks ext timeout_sec
                       {| self := s; env := Build_Env w f L S tr |}
                  = (Raise (NotImplementedError
                              (sid ++ ": subclasses must implement wait_node.")),
                     {| self := s;
                        env := Build_Env w1 f L S
                                 (tr ++ [Call_wait_node node
                                           (start_ + timeout_sec - now)]) |})).
  { unfold wait. rewrite (bind_ok World _ _ _ _ _ (time_run World ext s w w0 f L S tr start_ Htime)).
    unfold bind at 1. unfold get_self at 1. cbn [self].
    unfold bind at 1. rewrite Hrun. reflexivity. }
  rewrite Hwait. repeat split.
Qed.

End BaseClass.

(** * Several services run in parallel *)

Section Parallel.

Variable World : Type.
Variable pr : Printers.
Variable hooks : Hooks World.
Variable ext : Collaborators World.

Section CallLog.

Variable P : Event -> Prop.
Variable c0 : list Event.

Let J (st : State World) : Prop := grown_by World P c0 (env st).
















End CallLog.



(** X27. [run_parallel] on one service is [run] on that service: the
    same result, the same environment and the same fields of every
    object. *)
Theorem run_parallel_single (a : nat) (os : Objects World) :
  let par := run_parallel World pr hooks ext [a] os in
  let seq := on_object World a (run World pr hooks ext) os in
  fst par = fst seq
  /\ shared (snd par) = shared (snd seq)
  /\ forall b, object (snd par) b = object (snd seq) b.
Proof.
  cbv zeta. unfold run_parallel, run, each_object, on_object, bind.
  destruct (start World pr hooks ext {| self := object os a; env := shared os |})
    as [[[]|e1] [s1 e1']]; cbn [fst snd self env object shared];
    [|repeat split].
  rewrite Nat.eqb_refl.
  destruct (wait World pr hooks ext 600 {| self := s1; env := e1' |})
    as [[[]|e2] [s2 e2']]; cbn [fst snd self env object shared].
  - rewrite Nat.eqb_refl.
    destruct (stop World pr hooks ext {| self := s2; env := e2' |})
      as [[[]|e3] [s3 e3']]; cbn [fst snd self env object shared];
      (split; [reflexivity|]; split; [reflexivity|];
       intros b; destruct (Nat.eqb b a); reflexivity).
  - split; [reflexivity|]. split; [reflexivity|].
    intros b. destruct (Nat.eqb b a); reflexivity.
Qed.

End Parallel.

(** * The snapshot and the allocation *)

Section Snapshot.

Variable World : Type.
Variable pr : Printers.
Variable ext : Collaborators World.
Variable module_name : string -> string.

(** The snapshot of the state is [v]. *)
Variable v : result ServiceJson.
Let J (st : State World) : Prop := to_json World module_name (self st) (env st) = v.

Lemma snapshot_read {A} (m : M World A) :
  (forall st, snd (m st) = st) -> keeps World J m.
Proof.
  intros H st HJ. now rewrite H.
Qed.

Lemma snapshot_modify_env (g : Env World -> Env World) :
  (forall e, context_services (g e) = context_services e) ->
  keeps World J (modify_env World g).
Proof.
  intros Hg [s e] HJ. unfold J in *. cbn [modify_env snd self env] in *.
  rewrite <- HJ. unfold to_json, service_id, _order. now rewrite Hg.
Qed.

Lemma snapshot_external {A} (op : World -> result A * World) :
  keeps World J (external World op).
Proof.
  intros [s e] HJ. unfold external. cbn [self env].
  destruct (op (world e)) as [r w']. exact HJ.
Qed.

Lemma snapshot_logger_call (msg : Service -> Env World -> result string) :
  keeps World J (logger_call World msg).
Proof.
  apply snapshot_read. intros st. unfold logger_call, bind, eval.
  now destruct (msg (self st) (env st)).
Qed.

Lemma snapshot_set_nodes (ns : list Node) :
  keeps World J (modify_self World (set_nodes ns)).
Proof.
  intros [s e] HJ. exact HJ.
Qed.

Lemma snapshot_free : keeps World J (free World pr ext).
Proof.
  unfold free. apply keeps_bind_any; [now apply snapshot_read|].
  intros s. apply keeps_bind_any; [|intros _; apply snapshot_set_nodes].
  apply keeps_for_each_any. intros node.
  apply keeps_bind_any; [apply snapshot_logger_call|]. intros _.
  apply keeps_bind_any; [now apply snapshot_modify_env|]. intros _.
  unfold call_cluster_free.
  apply keeps_bind_any; [now apply snapshot_modify_env|]. intros _.
  apply snapshot_external.
Qed.

Lemma snapshot_allocate_nodes : keeps World J (allocate_nodes World pr ext).
Proof.
  unfold allocate_nodes. apply keeps_bind_any; [now apply snapshot_read|].
  intros s. destruct (allocated s); [now apply snapshot_read|].
  apply keeps_bind_any.
  - intros st HJ. unfold try_except.
    assert (Hcall : J (snd (call_cluster_alloc World ext (node_spec s) st))).
    { revert st HJ. unfold call_cluster_alloc.
      apply keeps_bind_any; [now apply snapshot_modify_env|]. intros _.
      apply snapshot_external. }
    destruct (call_cluster_alloc World ext (node_spec s) st) as [[ns|e] st1];
      cbn [snd] in *; [exact Hcall|].
    destruct (runtime_error_message e); exact Hcall.
  - intros ns. apply keeps_bind_any; [apply snapshot_set_nodes|]. intros _.
    apply keeps_bind_any; [|intros _; apply snapshot_logger_call].
    apply keeps_for_each_any. intros node. unfold bind_logger.
    apply keeps_bind_any; [now apply snapshot_read|]. intros s'.
    apply keeps_bind_any; [now apply snapshot_read|]. intros e'.
    destruct (account_logger e' node); [now apply snapshot_read|].
    now apply snapshot_modify_env.
Qed.

End Snapshot.

Section SnapshotProperties.

Variable World : Type.
Variable pr : Printers.
Variable ext : Collaborators World.
Variable module_name : string -> string.

(** X28. The snapshot does not show whether the instance holds nodes:
    [to_json] gives the same result, or raises the same exception,
    after [allocate_nodes] and after [free] as before them, whether they
    return or raise. Its ["nodes"] entry is the list of recorded
    identifiers and its ["service_id"] entry the service id; it raises
    exactly when [_order] raises, with the same exception. *)
Theorem to_json_ignores_allocation (st : State World) :
  let snapshot st := to_json World module_name (self st) (env st) in
  snapshot (snd (allocate_nodes World pr ext st)) = snapshot st
  /\ snapshot (snd (free World pr ext st)) = snapshot st
  /\ (forall j, snapshot st = Ok j ->
        json_nodes j = _nodes_formerly_allocated (self st)
        /\ service_id World (self st) (env st) = Ok (json_service_id j))
  /\ (forall x, snapshot st = Raise x <-> _order World (self st) (env st) = Raise x).
Proof.
  cbv zeta. split; [|split; [|split]].
  - now apply (snapshot_allocate_nodes World pr ext module_name).
  - now apply (snapshot_free World pr ext module_name).
  - intros j. unfold to_json.
    destruct (service_id World (self st) (env st)) as [sid|x]; [|discriminate].
    intros Hj. injection Hj as <-. split; reflexivity.
  - intros x. unfold to_json, service_id.
    destruct (_order World (self st) (env st)) as [o|y]; split; intros H;
      try discriminate; injection H as <-; reflexivity.
Qed.

End SnapshotProperties.

(** * The model on concrete inputs *)

(** [Service.__init__] with [num_nodes = 2] on the toy cluster. *)
Example toy_kafka_constructed :
  __init__ Toy.World Toy.consts Toy.printers Toy.collaborators (Some 2) None Toy.fresh
  = (Ok tt, Toy.kafka).
Proof.
  reflexivity.
Qed.

(** Registering five instances in the order A, B, A, B, A builds the
    registry [Toy.registry], *)
Example toy_registry_by_registration :
  fold_left
    (fun e s => env (snd (register_self Toy.World {| self := s; env := e |})))
    [Toy.service_of "A" 1; Toy.service_of "B" 2; Toy.service_of "A" 3;
     Toy.service_of "B" 4; Toy.service_of "A" 5]
    (set_context_services (Some []) Toy.registry_env)
  = Toy.registry_env.
Proof.
  reflexivity.
Qed.

(** in which their orders are 0, 0, 1, 1, 2. *)
Example toy_orders_A_B_A_B_A :
  map (fun s => _order Toy.World s Toy.registry_env)
      [Toy.service_of "A" 1; Toy.service_of "B" 2; Toy.service_of "A" 3;
       Toy.service_of "B" 4; Toy.service_of "A" 5]
  = [Ok 0; Ok 0; Ok 1; Ok 1; Ok 2].
Proof.
  reflexivity.
Qed.

(** [wait(10)] on the two nodes of the toy service: node 1 uses up the
    shared budget, so node 2 is not waited for. *)
Example toy_wait_10 :
  fst (wait Toy.World Toy.printers Toy.hooks Toy.collaborators 10 Toy.kafka)
  = Raise (TimeoutError
             ("Timed out waiting 10 seconds for service nodes to finish. "
              ++ "These nodes are still alive: [<node 1>, <node 2>]"))
  /\ calls (env (snd (wait Toy.World Toy.printers Toy.hooks Toy.collaborators 10
                           Toy.kafka)))
     = [Call_cluster_alloc [("linux", 2)]; Call_wait_node 1%nat 9].
Proof.
  split; reflexivity.
Qed.

(** [start()] twice on the toy service: the second call, made later,
    leaves the start time and the start duration of the first. *)
Example toy_start_twice :
  let start := start Toy.World Toy.printers Toy.hooks Toy.collaborators in
  let once := snd (start Toy.kafka) in
  let twice := snd (start once) in
  (_start_time (self once), _start_duration_seconds (self once)) = (101, 7)
  /\ (_start_time (self twice), _start_duration_seconds (self twice)) = (101, 7)
  /\ Toy.clock (world (env once)) = 109%nat
  /\ Toy.clock (world (env twice)) = 115%nat.
Proof.
  repeat split.
Qed.

Lemma wait_shared_deadline_witness :
  identified Toy.World (self Toy.kafka) (env Toy.kafka)
  /\ exists out tr w',
      wait_checks Toy.World Toy.hooks Toy.collaborators (self Toy.kafka) (101 + 10)
                  [1; 2]%nat {| Toy.clock := 102; Toy.pool := [3; 4; 5; 6]%nat |}
                  out tr w'
      /\ calls (env (snd (wait Toy.World Toy.printers Toy.hooks Toy.collaborators 10
                               Toy.kafka)))
         = (calls (env Toy.kafka) ++ tr)%list.
Proof.
  assert (H : identified Toy.World (self Toy.kafka) (env Toy.kafka))
    by (exists 0; reflexivity).
  split; [exact H|].
  destruct (wait_shared_deadline Toy.World Toy.printers Toy.hooks Toy.collaborators
              Toy.kafka 10 H) as (out & tr & w' & Hchecks & Hcalls & _).
  exists out, tr, w'. split; [exact Hchecks | exact Hcalls].
Defined.

Lemma order_is_position_among_same_type_witness :
  _order Toy.World (Toy.service_of "A" 5) Toy.registry_env = Ok 2.
Proof.
  apply (order_is_position_among_same_type Toy.World (Toy.service_of "A" 5)
           Toy.registry_env
           (map handle_of [Toy.service_of "A" 1; Toy.service_of "B" 2;
                           Toy.service_of "A" 3; Toy.service_of "B" 4])
           []).
  - reflexivity.
  - intros h [<- | [<- | [<- | [<- | []]]]]; simpl; lia.
Defined.

(** C3 as stated fails when the clock is set back: the first [start]
    completes and records the duration 90 - 100, and the second [start]
    sets the duration again, to 120 - 100. *)
Lemma start_sets_duration_again_after_clock_set_back :
  let init := __init__ SetBack.World Toy.consts Toy.printers SetBack.collaborators
                       (Some 1) None in
  let start := start SetBack.World Toy.printers SetBack.hooks SetBack.collaborators in
  let constructed := init SetBack.fresh in
  let once := start (snd constructed) in
  let twice := start (snd once) in
  fst constructed = Ok tt
  /\ fst once = Ok tt
  /\ _start_time (self (snd once)) = 100
  /\ _start_duration_seconds (self (snd once)) = -10
  /\ fst twice = Ok tt
  /\ _start_time (self (snd twice)) = 100
  /\ _start_duration_seconds (self (snd twice)) = 20.
Proof.
  repeat split.
Qed.

Lemma start_sets_time_and_duration_once_witness :
  _start_time (self (snd (start Toy.World Toy.printers Toy.hooks Toy.collaborators
                                Toy.kafka))) = 101
  /\ 0 <= _start_duration_seconds
            (self (snd (start Toy.World Toy.printers Toy.hooks Toy.collaborators
                              Toy.kafka))).
Proof.
  pose proof (start_sets_time_and_duration_once Toy.World Toy.printers Toy.hooks
                Toy.collaborators (fun w => Z.of_nat (Toy.clock w))) as H.
  specialize (H (fun w => Nat2Z.is_nonneg (Toy.clock w))).
  assert (H1 : forall w : Toy.World,
             Z.of_nat (Toy.clock w) <= fst (time_time Toy.collaborators w)
             <= Z.of_nat (Toy.clock (snd (time_time Toy.collaborators w))))
    by (intros w; simpl; lia).
  assert (H2 : forall s node (w : Toy.World),
             Z.of_nat (Toy.clock w)
             <= Z.of_nat (Toy.clock (snd (start_node Toy.hooks s node w))))
    by (intros s node w; simpl; destruct (Nat.eqb node 7); simpl; lia).
  assert (H3 : forall s node (w : Toy.World),
             Z.of_nat (Toy.clock w)
             <= Z.of_nat (Toy.clock (snd (stop_node Toy.hooks s node w))))
    by (intros s node w; simpl; lia).
  assert (H4 : forall s node (w : Toy.World),
             Z.of_nat (Toy.clock w)
             <= Z.of_nat (Toy.clock (snd (clean_node Toy.hooks s node w))))
    by (intros s node w; simpl; lia).
  assert (Hid : identified Toy.World (self Toy.kafka) (env Toy.kafka))
    by (exists 0; reflexivity).
  specialize (H H1 H2 H3 H4 Toy.kafka Hid). cbv zeta in H.
  destruct H as (Htime & _ & Hdur & _).
  split.
  - apply Htime. simpl. lia.
  - destruct Hdur as (w1 & w2 & tr1 & tr2 & _ & _ & _ & _ & Hnn);
      [simpl; lia | reflexivity |].
    apply Hnn. left. simpl. lia.
Defined.

Lemma start_pre_cleanup_swallows_start_node_propagates_witness :
  identified Toy.World (self Toy.kafka) (env Toy.kafka)
  /\ exists tr2,
      calls (env (snd (start Toy.World Toy.printers Toy.hooks Toy.collaborators
                             Toy.kafka)))
      = (calls (env Toy.kafka) ++ pre_cleanup_calls [1; 2]%nat ++ tr2)%list.
Proof.
  assert (H : identified Toy.World (self Toy.kafka) (env Toy.kafka))
    by (exists 0; reflexivity).
  split; [exact H|].
  destruct (start_pre_cleanup_swallows_start_node_propagates Toy.World Toy.printers
              Toy.hooks Toy.collaborators Toy.kafka H)
    as (w1 & w2 & tr2 & out & _ & _ & Hcalls & _).
  exists tr2. exact Hcalls.
Defined.

(** C5 as stated fails: a mapping with a zero count is accepted, and the
    construction succeeds on a cluster that can serve it. *)
Lemma init_accepts_a_zero_count :
  fst (__init__ Toy.World Toy.consts Toy.printers Toy.collaborators
                None (Some [("linux", 0)]) Toy.fresh) = Ok tt
  /\ node_spec (self (snd (__init__ Toy.World Toy.consts Toy.printers
                                    Toy.collaborators
                                    None (Some [("linux", 0)]) Toy.fresh)))
     = [("linux", 0)]
  /\ ~ stated_node_spec_invariant
         (SUPPORTED_OS_TYPES Toy.consts)
         (node_spec (self (snd (__init__ Toy.World Toy.consts Toy.printers
                                         Toy.collaborators
                                         None (Some [("linux", 0)]) Toy.fresh)))).
Proof.
  split; [reflexivity|]. split; [reflexivity|].
  intros (_ & _ & Hpos).
  specialize (Hpos ("linux", 0) (or_introl eq_refl)).
  simpl in Hpos. lia.
Qed.

Lemma init_node_spec_invariant_witness :
  let init := __init__ Toy.World Toy.consts Toy.printers Toy.collaborators in
  node_spec (self (snd (init None (Some [("linux", 2); ("windows", 0)]) Toy.fresh)))
  = [("linux", 2); ("windows", 0)]
  /\ fst (init (Some 2) (Some [("linux", 1); ("solaris", 1)]) Toy.fresh)
     = Raise (Exception (unsupported_msg Toy.consts (repr_str Toy.printers)
                                         [("linux", 1); ("solaris", 1)])).
Proof.
  intros init. split.
  - destruct (init_node_spec_invariant Toy.World Toy.consts Toy.printers
                Toy.collaborators None (Some [("linux", 2); ("windows", 0)]) Toy.fresh)
      as (Hok & _ & _).
    + simpl. now left.
    + destruct (Hok eq_refl) as (_ & _ & Hmapping & _).
      exact (f_equal (fun o : option NodeSpec =>
                        match o with Some d => d | None => [] end)
                     (eq_sym (Hmapping eq_refl))).
  - destruct (init_node_spec_invariant Toy.World Toy.consts Toy.printers
                Toy.collaborators (Some 2) (Some [("linux", 1); ("solaris", 1)])
                Toy.fresh)
      as (_ & _ & Hkey).
    + simpl. now left.
    + apply (Hkey [("linux", 1); ("solaris", 1)] "solaris" eq_refl).
      * simpl. right. now left.
      * intros [H | [H | []]]; discriminate.
Defined.

Lemma setup_node_spec_rejects_unsupported_key_witness :
  setup_node_spec Toy.consts (repr_str Toy.printers) None
                  (Some [("linux", 2); ("solaris", 1)])
  = Raise (Exception
             ("Each node_spec key must be a supported operating system: "
              ++ "['linux', 'windows'], node_spec: {'linux': 2, 'solaris': 1}"))
  /\ occurs_in "'solaris'"
               (unsupported_msg Toy.consts (repr_str Toy.printers)
                                [("linux", 2); ("solaris", 1)]).
Proof.
  destruct (setup_node_spec_rejects_unsupported_key Toy.consts Toy.printers None
              [("linux", 2); ("solaris", 1)] "solaris") as (Hraise & Hkey & _).
  - simpl. right. now left.
  - reflexivity.
  - split; [exact Hraise | exact Hkey].
Defined.

Lemma allocate_nodes_twice_witness :
  allocate_nodes Toy.World Toy.printers Toy.collaborators Toy.kafka
  = (Raise (Exception
              "Requesting nodes for a service that has already been allocated nodes."),
     Toy.kafka).
Proof.
  apply (allocate_nodes_twice Toy.World Toy.printers Toy.collaborators Toy.kafka).
  simpl. discriminate.
Defined.

Lemma free_releases_nodes_witness :
  nodes (self (snd (free Toy.World Toy.printers Toy.collaborators Toy.kafka))) = []
  /\ to_json_nodes (self (snd (free Toy.World Toy.printers Toy.collaborators Toy.kafka)))
     = ["user@host1"; "user@host2"]
  /\ Toy.pool (world (env (snd (free Toy.World Toy.printers Toy.collaborators
                                     Toy.kafka))))
     = [3; 4; 5; 6; 1; 2]%nat.
Proof.
  destruct (proj2 (free_releases_nodes Toy.World Toy.printers Toy.collaborators
                     Toy.kafka))
    as (_ & Hnodes & _ & Hjson & _ & _ & _ & Hworld).
  - exists 0. reflexivity.
  - intros node w _. reflexivity.
  - split; [exact Hnodes | split; [exact Hjson | rewrite Hworld; reflexivity]].
Defined.

Lemma allocate_nodes_dirty_node_not_atomic_witness :
  fst (allocate_nodes Toy.World Toy.printers Toy.collaborators Toy.asking)
  = Raise (RuntimeError (dirty_node_msg Toy.printers (self Toy.asking) 4%nat))
  /\ nodes (self (snd (allocate_nodes Toy.World Toy.printers Toy.collaborators
                                      Toy.asking))) = [3; 4; 5]%nat.
Proof.
  destruct (allocate_nodes_dirty_node_not_atomic Toy.World Toy.printers
              Toy.collaborators Toy.asking [3%nat] [5%nat] 4%nat
              {| Toy.clock := 100; Toy.pool := [] |})
    as (Hraise & Hnodes & _).
  - reflexivity.
  - reflexivity.
  - constructor; [intros [] | constructor].
  - intros m [<- | []]. reflexivity.
  - simpl. discriminate.
  - split; [exact Hraise | exact Hnodes].
Defined.

Lemma idx_get_node_round_trip_witness :
  idx (self Toy.kafka) 2%nat = Ok 2
  /\ get_node (self Toy.kafka) 2 = Ok 2%nat.
Proof.
  apply (proj1 (idx_get_node_round_trip (self Toy.kafka) 2%nat) [1%nat] []).
  - reflexivity.
  - intros [H | []]. discriminate.
Defined.

(** ** The further properties on concrete inputs *)

Lemma get_node_bounds_witness :
  get_node (self Toy.kafka) 2 = Ok 2%nat
  /\ get_node (self Toy.kafka) (-1) = Ok 1%nat
  /\ get_node (self Toy.kafka) 3 = Raise (IndexError "list index out of range").
Proof.
  destruct (get_node_bounds (self Toy.kafka) 2) as (Hpos & _ & _).
  destruct (get_node_bounds (self Toy.kafka) (-1)) as (_ & Hneg & _).
  destruct (get_node_bounds (self Toy.kafka) 3) as (_ & _ & Hout).
  destruct Hpos as (n & Hn & Hget); [unfold len; simpl; lia|].
  destruct Hneg as (n' & Hn' & Hget'); [unfold len; simpl; lia|].
  split; [|split].
  - vm_compute in Hn. injection Hn as <-. exact Hget.
  - vm_compute in Hn'. injection Hn' as <-. exact Hget'.
  - apply Hout. left. unfold len. simpl. lia.
Defined.

Lemma idx_of_get_node_witness :
  exists j, idx (self Toy.kafka) 2%nat = Ok j /\ 1 <= j <= 2
            /\ get_node (self Toy.kafka) j = Ok 2%nat
            /\ (NoDup (nodes (self Toy.kafka)) -> j = 2).
Proof.
  apply (idx_of_get_node (self Toy.kafka) 2 2%nat).
  - unfold len. simpl. lia.
  - reflexivity.
Defined.

Lemma order_at_construction_is_final_witness :
  let l := map handle_of [Toy.service_of "A" 1; Toy.service_of "B" 2;
                          Toy.service_of "A" 3; Toy.service_of "B" 4] in
  _order Toy.World (new_object "A" 5) (set_context_services (Some l) Toy.registry_env)
  = Ok 2
  /\ _order Toy.World (set_initialized true (new_object "A" 5)) Toy.registry_env
     = Ok 2.
Proof.
  intros l.
  destruct (order_at_construction_is_final Toy.World (new_object "A" 5)
              (set_context_services (Some l) Toy.registry_env) Toy.registry_env
              l true) as (H1 & H2).
  - reflexivity.
  - intros h [<- | [<- | [<- | [<- | []]]]]; simpl; lia.
  - reflexivity.
  - reflexivity.
  - split; [exact H1 | rewrite H2; exact H1].
Defined.

Lemma order_stable_under_registration_witness :
  _order Toy.World (Toy.service_of "A" 3) Toy.registry_env
  = _order Toy.World (Toy.service_of "A" 3)
      (set_context_services
         (Some (map handle_of [Toy.service_of "A" 1; Toy.service_of "B" 2;
                               Toy.service_of "A" 3]))
         Toy.registry_env).
Proof.
  apply (order_stable_under_registration Toy.World (Toy.service_of "A" 3) _
           Toy.registry_env
           (map handle_of [Toy.service_of "A" 1; Toy.service_of "B" 2;
                           Toy.service_of "A" 3])
           (map handle_of [Toy.service_of "B" 4; Toy.service_of "A" 5])).
  - reflexivity.
  - simpl. right. right. left. reflexivity.
  - reflexivity.
Defined.

Lemma unregistered_instance_raises_witness :
  let st := {| self := Toy.service_of "A" 9; env := Toy.registry_env |} in
  _order Toy.World (self st) (env st) = Raise (ValueError "9 is not in list")
  /\ start Toy.World Toy.printers Toy.hooks Toy.collaborators st
     = (Raise (ValueError "9 is not in list"), st).
Proof.
  intros st.
  destruct (unregistered_instance_raises Toy.World Toy.printers Toy.hooks
              Toy.collaborators st Toy.registry) as (Horder & Hstart & _).
  - reflexivity.
  - intros h [<- | [<- | [<- | [<- | [<- | []]]]]]; simpl; lia.
  - reflexivity.
  - split; [exact Horder | exact Hstart].
Defined.

Lemma allocate_nodes_succeeds_witness :
  let st := {| self := set_node_spec [("linux", 2)] (new_object "KafkaService" 1001);
               env := Toy.env0 |} in
  fst (allocate_nodes Toy.World Toy.printers Toy.collaborators st) = Ok tt
  /\ nodes (self (snd (allocate_nodes Toy.World Toy.printers Toy.collaborators st)))
     = [1; 2]%nat.
Proof.
  intros st.
  destruct (allocate_nodes_succeeds Toy.World Toy.printers Toy.collaborators st
              [1; 2]%nat {| Toy.clock := 100; Toy.pool := [3; 4; 5; 6]%nat |})
    as (Hok & Hself & _).
  - reflexivity.
  - exists 0. reflexivity.
  - reflexivity.
  - constructor; [intros [H | []]; discriminate | constructor; [intros [] | constructor]].
  - intros m _. reflexivity.
  - split; [exact Hok | rewrite Hself; reflexivity].
Defined.

Lemma allocate_nodes_refused_witness :
  let st := {| self := set_node_spec [("linux", 9)] (new_object "KafkaService" 1001);
               env := Toy.env0 |} in
  fst (allocate_nodes Toy.World Toy.printers Toy.collaborators st)
  = Raise (RuntimeError ("There aren't enough available nodes."
                         ++ " Currently registered services: []"))
  /\ self (snd (allocate_nodes Toy.World Toy.printers Toy.collaborators st)) = self st.
Proof.
  intros st.
  destruct (allocate_nodes_refused Toy.World Toy.printers Toy.collaborators st
              (RuntimeError "There aren't enough available nodes.")
              (world Toy.env0))
    as (Hraise & Hself & _).
  - reflexivity.
  - reflexivity.
  - split; [exact Hraise | exact Hself].
Defined.

Lemma allocate_nodes_repeated_node_witness :
  let st := {| self := set_node_spec [("linux", 2)] (new_object "KafkaService" 1001);
               env := set_world {| Toy.clock := 100; Toy.pool := [3; 3]%nat |}
                                Toy.env0 |} in
  fst (allocate_nodes Toy.World Toy.printers Toy.collaborators st)
  = Raise (RuntimeError (dirty_node_msg Toy.printers (self st) 3%nat))
  /\ nodes (self (snd (allocate_nodes Toy.World Toy.printers Toy.collaborators st)))
     = [3; 3]%nat.
Proof.
  intros st.
  destruct (allocate_nodes_repeated_node Toy.World Toy.printers Toy.collaborators st
              [3%nat] [] 3%nat {| Toy.clock := 100; Toy.pool := [] |})
    as (Hraise & Hnodes & _).
  - reflexivity.
  - reflexivity.
  - constructor; [intros [] | constructor].
  - intros m _. reflexivity.
  - left. reflexivity.
  - split; [exact Hraise | exact Hnodes].
Defined.

Lemma free_refused_node_witness :
  fst (free Toy.World Toy.printers Toy.stubborn Toy.kafka)
  = Raise (RuntimeError "node is down")
  /\ nodes (self (snd (free Toy.World Toy.printers Toy.stubborn Toy.kafka)))
     = [1; 2]%nat
  /\ calls (env (snd (free Toy.World Toy.printers Toy.stubborn Toy.kafka)))
     = [Call_cluster_alloc [("linux", 2)]; Call_cluster_free 1%nat;
        Call_cluster_free 2%nat].
Proof.
  destruct (free_refused_node Toy.World Toy.printers Toy.stubborn Toy.kafka
              [1%nat] [] 2%nat (RuntimeError "node is down"))
    as (Hraise & Hself & _ & _ & Hcalls).
  - reflexivity.
  - exists 0. reflexivity.
  - intros m w [<- | []]. reflexivity.
  - intros w. reflexivity.
  - split; [exact Hraise | split; [rewrite Hself; reflexivity | exact Hcalls]].
Defined.

Lemma allocate_then_free_witness :
  let st := {| self := set_node_spec [("linux", 2)] (new_object "KafkaService" 1001);
               env := Toy.env0 |} in
  let st1 := snd (allocate_nodes Toy.World Toy.printers Toy.collaborators st) in
  let st2 := snd (free Toy.World Toy.printers Toy.collaborators st1) in
  nodes (self st2) = []
  /\ (forall m, account_logger (env st2) m = None)
  /\ calls (env st2)
     = [Call_cluster_alloc [("linux", 2)]; Call_cluster_free 1%nat;
        Call_cluster_free 2%nat].
Proof.
  intros st st1 st2.
  destruct (allocate_then_free Toy.World Toy.printers Toy.collaborators st
              [1; 2]%nat {| Toy.clock := 100; Toy.pool := [3; 4; 5; 6]%nat |})
    as (_ & _ & Hnodes & _ & Hloggers & Hcalls).
  - reflexivity.
  - exists 0. reflexivity.
  - reflexivity.
  - constructor; [intros [H | []]; discriminate | constructor; [intros [] | constructor]].
  - intros m _. reflexivity.
  - intros m w _. reflexivity.
  - split; [exact Hnodes | split; [exact Hloggers | exact Hcalls]].
Defined.

Lemma init_rejected_request_touches_nothing_witness :
  let init := __init__ Toy.World Toy.consts Toy.printers Toy.collaborators
                       None (Some [("solaris", 1)]) in
  fst (init Toy.fresh)
  = Raise (Exception (unsupported_msg Toy.consts (repr_str Toy.printers)
                                      [("solaris", 1)]))
  /\ calls (env (snd (init Toy.fresh))) = []
  /\ _initialized (self (snd (init Toy.fresh))) = false.
Proof.
  intros init.
  destruct (init_rejected_request_touches_nothing Toy.World Toy.consts Toy.printers
              Toy.collaborators None (Some [("solaris", 1)]) Toy.fresh
              (Exception (unsupported_msg Toy.consts (repr_str Toy.printers)
                                          [("solaris", 1)])))
    as (Hraise & Henv & _ & Hinit).
  - reflexivity.
  - split; [exact Hraise | split; [|exact Hinit]].
    unfold init. rewrite Henv. reflexivity.
Defined.

Lemma init_succeeds_witness :
  let st' := snd (__init__ Toy.World Toy.consts Toy.printers Toy.collaborators
                           (Some 2) None Toy.fresh) in
  nodes (self st') = [1; 2]%nat
  /\ context_services (env st') = Some [{| h_id := 1001; h_type := "KafkaService" |}]
  /\ _order Toy.World (self st') (env st') = Ok 0.
Proof.
  intros st'.
  destruct (init_succeeds Toy.World Toy.consts Toy.printers Toy.collaborators
              (Some 2) None Toy.fresh 100
              {| Toy.clock := 101; Toy.pool := [1; 2; 3; 4; 5; 6]%nat |}
              {| Toy.clock := 101; Toy.pool := [3; 4; 5; 6]%nat |}
              [("linux", 2)] [1; 2]%nat [])
    as (_ & Hself & Hreg & Horder & _).
  - reflexivity.
  - reflexivity.
  - reflexivity.
  - intros h [].
  - reflexivity.
  - constructor; [intros [H | []]; discriminate | constructor; [intros [] | constructor]].
  - intros m _. reflexivity.
  - split; [|split; [exact Hreg | exact Horder]].
    unfold st'. rewrite Hself. reflexivity.
Defined.

Lemma init_without_registry_keeps_nodes_witness :
  let st := {| self := self Toy.fresh; env := set_context_services None Toy.env0 |} in
  let init := __init__ Toy.World Toy.consts Toy.printers Toy.collaborators
                       (Some 2) None in
  fst (init st) = Raise (AttributeError "'context' object has no attribute 'services'")
  /\ nodes (self (snd (init st))) = [1; 2]%nat
  /\ Toy.pool (world (env (snd (init st)))) = [3; 4; 5; 6]%nat.
Proof.
  intros st init.
  destruct (init_without_registry_keeps_nodes Toy.World Toy.consts Toy.printers
              Toy.collaborators (Some 2) None st 100
              {| Toy.clock := 101; Toy.pool := [1; 2; 3; 4; 5; 6]%nat |}
              {| Toy.clock := 101; Toy.pool := [3; 4; 5; 6]%nat |}
              [("linux", 2)] [1; 2]%nat)
    as (Hraise & Hnodes & _ & _ & Hworld & _).
  - reflexivity.
  - reflexivity.
  - reflexivity.
  - reflexivity.
  - constructor; [intros [H | []]; discriminate | constructor; [intros [] | constructor]].
  - intros m _. reflexivity.
  - split; [exact Hraise | split; [exact Hnodes|]].
    unfold init. rewrite Hworld. reflexivity.
Defined.

Lemma stop_records_times_and_propagates_witness :
  identified Toy.World (self Toy.kafka) (env Toy.kafka)
  /\ _stop_time (self (snd (stop Toy.World Toy.printers Toy.hooks Toy.collaborators
                                 Toy.kafka))) = 101.
Proof.
  assert (H : identified Toy.World (self Toy.kafka) (env Toy.kafka))
    by (exists 0; reflexivity).
  split; [exact H|].
  destruct (stop_records_times_and_propagates Toy.World Toy.printers Toy.hooks
              Toy.collaborators Toy.kafka H) as (w2 & tr' & out & _ & Htime & _).
  exact Htime.
Defined.

Lemma clean_records_time_and_propagates_witness :
  identified Toy.World (self Toy.kafka) (env Toy.kafka)
  /\ _clean_time (self (snd (clean Toy.World Toy.printers Toy.hooks Toy.collaborators
                                   Toy.kafka))) = 101.
Proof.
  assert (H : identified Toy.World (self Toy.kafka) (env Toy.kafka))
    by (exists 0; reflexivity).
  split; [exact H|].
  destruct (clean_records_time_and_propagates Toy.World Toy.printers Toy.hooks
              Toy.collaborators Toy.kafka H) as (w2 & tr' & out & _ & Htime & _).
  exact Htime.
Defined.

Lemma wait_without_budget_witness :
  fst (wait Toy.World Toy.printers Toy.hooks Toy.collaborators 0 Toy.kafka)
  = Raise (TimeoutError (timeout_msg Toy.printers 0 [1; 2]%nat))
  /\ calls (env (snd (wait Toy.World Toy.printers Toy.hooks Toy.collaborators 0
                           Toy.kafka)))
     = calls (env Toy.kafka).
Proof.
  destruct (wait_without_budget Toy.World Toy.printers Toy.hooks Toy.collaborators
              (fun w => Z.of_nat (Toy.clock w))) with (st := Toy.kafka) (timeout_sec := 0)
    as (Hraise & Hcalls & _).
  - intros w. simpl. lia.
  - lia.
  - split; [exact Hraise | exact Hcalls].
Defined.

Lemma wait_first_node_uses_budget_witness :
  fst (wait Toy.World Toy.printers Toy.hooks Toy.collaborators 10 Toy.kafka)
  = Raise (TimeoutError (timeout_msg Toy.printers 10 [1; 2]%nat))
  /\ calls (env (snd (wait Toy.World Toy.printers Toy.hooks Toy.collaborators 10
                           Toy.kafka)))
     = [Call_cluster_alloc [("linux", 2)]; Call_wait_node 1%nat 9].
Proof.
  apply (wait_first_node_uses_budget Toy.World Toy.printers Toy.hooks Toy.collaborators
           (fun w => Z.of_nat (Toy.clock w))) with
    (w2 := {| Toy.clock := 112; Toy.pool := [3; 4; 5; 6]%nat |}).
  - intros w. simpl. lia.
  - exists 0. reflexivity.
  - reflexivity.
  - simpl. lia.
  - reflexivity.
  - simpl. lia.
Defined.

Lemma run_gives_up_at_first_failure_witness :
  let st := {| self := set_nodes [7]%nat (self Toy.kafka); env := env Toy.kafka |} in
  fst (run Toy.World Toy.printers Toy.hooks Toy.collaborators st)
  = Raise (RuntimeError "cannot start")
  /\ calls (env (snd (run Toy.World Toy.printers Toy.hooks Toy.collaborators st)))
     = [Call_cluster_alloc [("linux", 2)]; Call_stop_node 7%nat; Call_clean_node 7%nat;
        Call_start_node 7%nat].
Proof.
  intros st.
  destruct (run_gives_up_at_first_failure Toy.World Toy.printers Toy.hooks
              Toy.collaborators st) as (Hstart & _).
  rewrite (Hstart (RuntimeError "cannot start") eq_refl).
  split; reflexivity.
Defined.

Lemma local_scratch_dir_made_once_witness :
  let st1 := snd (local_scratch_dir ToyFS.World ToyFS.fs ToyFS.service) in
  _local_scratch_dir (self st1) = Some "/tmp/tmp7"
  /\ local_scratch_dir ToyFS.World ToyFS.fs st1 = (Ok (Some "/tmp/tmp7"), st1).
Proof.
  intros st1.
  destruct (local_scratch_dir_made_once ToyFS.World ToyFS.fs ToyFS.service
              (Some "/tmp/tmp7")) as (_ & Hrec & Hagain & _).
  - intros w d w' H. simpl in H. injection H as <- _. discriminate.
  - reflexivity.
  - split; [exact Hrec | exact Hagain].
Defined.

Lemma close_keeps_recorded_path_witness :
  let st1 := snd (local_scratch_dir ToyFS.World ToyFS.fs ToyFS.service) in
  let st2 := snd (close ToyFS.World ToyFS.fs st1) in
  ToyFS.dirs (world (env st2)) = ["/tmp/other"]
  /\ local_scratch_dir ToyFS.World ToyFS.fs st2 = (Ok (Some "/tmp/tmp7"), st2).
Proof.
  intros st1 st2.
  split; [reflexivity|].
  apply (proj2 (close_keeps_recorded_path ToyFS.World ToyFS.fs st1)).
  reflexivity.
Defined.

Lemma toy_rmtree_removes (d : string) (w w' : ToyFS.World) :
  rmtree ToyFS.fs d w = (Ok tt, w') -> path_exists ToyFS.fs d w' = false.
Proof.
  simpl. destruct (in_strs d (ToyFS.dirs w)); [|discriminate].
  intros H. injection H as <-. simpl.
  induction (ToyFS.dirs w) as [|x l IH]; [reflexivity|].
  simpl. destruct (String.eqb x d) eqn:Hx; simpl; [exact IH|].
  rewrite String.eqb_sym, Hx. exact IH.
Qed.

Lemma close_twice_witness :
  let st1 := snd (local_scratch_dir ToyFS.World ToyFS.fs ToyFS.service) in
  let st2 := snd (close ToyFS.World ToyFS.fs st1) in
  close ToyFS.World ToyFS.fs ToyFS.service = (Ok tt, ToyFS.service)
  /\ close ToyFS.World ToyFS.fs st2 = (Ok tt, st2).
Proof.
  intros st1 st2.
  split.
  - apply (proj1 (close_twice ToyFS.World ToyFS.fs ToyFS.service toy_rmtree_removes)).
    intros d H. discriminate.
  - apply (proj2 (close_twice ToyFS.World ToyFS.fs st1 toy_rmtree_removes)).
    reflexivity.
Defined.

(** Two services of one test: the toy Kafka service at address 0 and a
    consumer with one node at address 1, both registered. *)
Example toy_run_parallel :
  let pair :=
    {| object := fun a => if Nat.eqb a 1
                          then set_nodes [3%nat] (Toy.service_of "ConsoleConsumer" 1002)
                          else self Toy.kafka;
       shared := set_context_services
                   (Some [{| h_id := 1001; h_type := "KafkaService" |};
                          {| h_id := 1002; h_type := "ConsoleConsumer" |}])
                   (env Toy.kafka) |} in
  let done := run_parallel Toy.World Toy.printers Toy.hooks Toy.collaborators
                           [0; 1]%nat pair in
  fst done = Raise (RuntimeError "no process to kill")
  /\ calls (shared (snd done))
     = [Call_cluster_alloc [("linux", 2)];
        Call_stop_node 1%nat; Call_clean_node 1%nat;
        Call_stop_node 2%nat; Call_clean_node 2%nat;
        Call_start_node 1%nat; Call_start_node 2%nat;
        Call_stop_node 3%nat; Call_clean_node 3%nat; Call_start_node 3%nat;
        Call_wait_node 1%nat 599; Call_wait_node 2%nat 586; Call_wait_node 3%nat 599;
        Call_stop_node 1%nat].
Proof.
  split; reflexivity.
Qed.

(** When the consumer, at address 1, holds node 7, which does not start,
    [run_parallel] raises after the Kafka service was started: nothing
    is waited for and the Kafka nodes are left running. *)
Example toy_run_parallel_start_fails :
  let pair :=
    {| object := fun a => if Nat.eqb a 1
                          then set_nodes [7%nat] (Toy.service_of "ConsoleConsumer" 1002)
                          else self Toy.kafka;
       shared := set_context_services
                   (Some [{| h_id := 1001; h_type := "KafkaService" |};
                          {| h_id := 1002; h_type := "ConsoleConsumer" |}])
                   (env Toy.kafka) |} in
  let done := run_parallel Toy.World Toy.printers Toy.hooks Toy.collaborators
                           [0; 1]%nat pair in
  fst done = Raise (RuntimeError "cannot start")
  /\ calls (shared (snd done))
     = [Call_cluster_alloc [("linux", 2)];
        Call_stop_node 1%nat; Call_clean_node 1%nat;
        Call_stop_node 2%nat; Call_clean_node 2%nat;
        Call_start_node 1%nat; Call_start_node 2%nat;
        Call_stop_node 7%nat; Call_clean_node 7%nat; Call_start_node 7%nat].
Proof.
  split; reflexivity.
Qed.

Lemma base_class_start_raises_witness :
  let hooks := base_hooks Toy.World Toy.printers (env Toy.kafka) in
  fst (start Toy.World Toy.printers hooks Toy.collaborators Toy.kafka)
  = Raise (NotImplementedError
             "KafkaService-0-1001: subclasses must implement start_node.")
  /\ calls (env (snd (start Toy.World Toy.printers hooks Toy.collaborators Toy.kafka)))
     = [Call_cluster_alloc [("linux", 2)];
        Call_stop_node 1%nat; Call_clean_node 1%nat;
        Call_stop_node 2%nat; Call_clean_node 2%nat;
        Call_start_node 1%nat].
Proof.
  intros hooks.
  destruct (proj1 (base_class_start_raises Toy.World Toy.printers Toy.collaborators
                     Toy.kafka "KafkaService-0-1001" eq_refl) 1%nat [2%nat] eq_refl)
    as (Hraise & _ & Hcalls & _).
  split; [exact Hraise | exact Hcalls].
Defined.

Lemma base_class_stop_raises_clean_returns_witness :
  let hooks := base_hooks Toy.World Toy.printers (env Toy.kafka) in
  fst (stop Toy.World Toy.printers hooks Toy.collaborators Toy.kafka)
  = Raise (NotImplementedError
             "KafkaService-0-1001: subclasses must implement stop_node.")
  /\ fst (clean Toy.World Toy.printers hooks Toy.collaborators Toy.kafka) = Ok tt
  /\ calls (env (snd (clean Toy.World Toy.printers hooks Toy.collaborators Toy.kafka)))
     = [Call_cluster_alloc [("linux", 2)]; Call_clean_node 1%nat; Call_clean_node 2%nat].
Proof.
  intros hooks.
  destruct (base_class_stop_raises_clean_returns Toy.World Toy.printers
              Toy.collaborators Toy.kafka "KafkaService-0-1001" eq_refl)
    as (Hstop & Hclean & Hcalls & _).
  destruct (Hstop 1%nat [2%nat] eq_refl) as (Hraise & _).
  split; [exact Hraise | split; [exact Hclean | exact Hcalls]].
Defined.

Lemma base_class_wait_raises_witness :
  let hooks := base_hooks Toy.World Toy.printers (env Toy.kafka) in
  fst (wait Toy.World Toy.printers hooks Toy.collaborators 10 Toy.kafka)
  = Raise (NotImplementedError
             "KafkaService-0-1001: subclasses must implement wait_node.")
  /\ calls (env (snd (wait Toy.World Toy.printers hooks Toy.collaborators 10 Toy.kafka)))
     = [Call_cluster_alloc [("linux", 2)]; Call_wait_node 1%nat 9].
Proof.
  intros hooks.
  destruct (base_class_wait_raises Toy.World Toy.printers Toy.collaborators
              Toy.kafka "KafkaService-0-1001" 10 1%nat [2%nat] eq_refl eq_refl)
    as (Hraise & Hcalls & _).
  - simpl. lia.
  - split; [exact Hraise | exact Hcalls].
Defined.

Lemma to_json_ignores_allocation_witness :
  let module_name := fun _ : string => "kafkatest.services" in
  let released := snd (free Toy.World Toy.printers Toy.collaborators Toy.kafka) in
  nodes (self released) = []
  /\ to_json Toy.World module_name (self released) (env released)
     = to_json Toy.World module_name (self Toy.kafka) (env Toy.kafka)
  /\ exists j, to_json Toy.World module_name (self released) (env released) = Ok j
               /\ json_nodes j = ["user@host1"; "user@host2"].
Proof.
  intros module_name released.
  destruct (to_json_ignores_allocation Toy.World Toy.printers Toy.collaborators
              module_name Toy.kafka) as (_ & Hfree & Hread & _).
  split; [reflexivity|]. split; [exact Hfree|].
  unfold released. rewrite Hfree.
  destruct (to_json Toy.World module_name (self Toy.kafka) (env Toy.kafka))
    as [j|x] eqn:Hj; [|discriminate].
  exists j. split; [reflexivity|]. exact (proj1 (Hread j eq_refl)).
Defined.
